(** * Lost & Found: schema, row-level policies, triggers and client data access

    A shallow embedding of the Supabase migrations (tables, policies,
    trigger functions) and of the client functions that read and write
    them, with the properties of the specification stated over it.

    Conventions.
    - A table is the list of its rows, in insertion order.
    - [gen_random_uuid()] and [NOW()] are inputs of the operation that
      evaluates them.
    - A write returns a [result]: the new database or the error the
      backend raises.  A failed statement leaves the database as it was.
    - Text is [string] (one [ascii] per character). *)

From Stdlib Require Import String Ascii List ZArith Bool Lia Permutation Sorted.
From Stdlib Require Import DecimalString DecimalZ DecimalPos Finite.
Import ListNotations.
Open Scope string_scope.
Open Scope Z_scope.

Set Implicit Arguments.

(** ** Results of backend statements *)

Inductive pg_error : Type :=
| unique_violation
| foreign_key_violation
| not_null_violation
| rls_violation
| integer_out_of_range
| transport_error.

Inductive result (A : Type) : Type :=
| Ok (a : A)
| Err (e : pg_error).

Arguments Ok {A} a.
Arguments Err {A} e.

Definition bind {A B : Type} (r : result A) (k : A -> result B) : result B :=
  match r with
  | Ok a => k a
  | Err e => Err e
  end.

Notation "x <- r ;; k" := (bind r (fun x => k))
  (at level 61, r at next level, right associativity).

Definition guard (b : bool) (e : pg_error) : result unit :=
  if b then Ok tt else Err e.

(** ** Text helpers *)

Definition dquote : string := String "034"%char EmptyString.

(** [includes s t]: [s] occurs in [t] as a contiguous piece. *)
Definition includes (s t : string) : Prop :=
  exists pre post, t = pre ++ s ++ post.

(** ** Schema *)

Definition uuid := string.

(** [TIMESTAMP WITH TIME ZONE]: microseconds since the epoch, the
    resolution PostgreSQL stores and orders by. *)
Definition timestamptz := Z.

Inductive app_role : Type := user | admin.
Inductive item_type : Type := lost | found.
Inductive item_status : Type := active | claimed | archived.
Inductive claim_status : Type := pending | approved | rejected.

Definition app_role_eqb (a b : app_role) : bool :=
  match a, b with user, user | admin, admin => true | _, _ => false end.

Definition item_status_eqb (a b : item_status) : bool :=
  match a, b with
  | active, active | claimed, claimed | archived, archived => true
  | _, _ => false
  end.

(** [auth.users], as far as the migrations read it. *)
Module Users.
Record row : Type := mk {
  id : uuid;
  email : string;
  meta_username : option string;   (* raw_user_meta_data->>'username' *)
  meta_full_name : option string   (* raw_user_meta_data->>'full_name' *)
}.
End Users.

Module Profiles.
Record row : Type := mk {
  id : uuid;
  username : string;
  full_name : option string;
  role : option app_role;
  avatar_url : option string;
  created_at : timestamptz;
  updated_at : timestamptz
}.
End Profiles.

Module Items.
Record row : Type := mk {
  id : uuid;
  user_id : uuid;
  title : string;
  description : string;
  image_url : option string;
  category : string;
  tags : list string;
  location : string;
  status : option item_status;
  type : item_type;
  created_at : timestamptz;
  updated_at : timestamptz
}.
End Items.

Module Claims.
Record row : Type := mk {
  id : uuid;
  item_id : uuid;
  claimant_id : uuid;
  message : string;
  status : option claim_status;
  created_at : timestamptz;
  updated_at : timestamptz
}.
End Claims.

Module Notifications.
Record row : Type := mk {
  id : uuid;
  user_id : uuid;
  type : string;
  title : string;
  message : string;
  read : bool;
  created_at : timestamptz
}.
End Notifications.

Module Messages.
Record row : Type := mk {
  id : uuid;
  sender_id : uuid;
  recipient_id : uuid;
  item_id : uuid;
  message : string;
  read : bool;
  created_at : timestamptz;
  updated_at : timestamptz
}.
End Messages.

(** The database: one list of rows per table. *)
Record db : Type := mkdb {
  users : list Users.row;
  profiles : list Profiles.row;
  items : list Items.row;
  claims : list Claims.row;
  notifications : list Notifications.row;
  messages : list Messages.row
}.

Definition set_profiles (d : db) (l : list Profiles.row) : db :=
  mkdb (users d) l (items d) (claims d) (notifications d) (messages d).
Definition set_items (d : db) (l : list Items.row) : db :=
  mkdb (users d) (profiles d) l (claims d) (notifications d) (messages d).
Definition set_claims (d : db) (l : list Claims.row) : db :=
  mkdb (users d) (profiles d) (items d) l (notifications d) (messages d).
Definition set_notifications (d : db) (l : list Notifications.row) : db :=
  mkdb (users d) (profiles d) (items d) (claims d) l (messages d).
Definition set_messages (d : db) (l : list Messages.row) : db :=
  mkdb (users d) (profiles d) (items d) (claims d) (notifications d) l.

(** Point lookups ([WHERE id = ...]). *)
Definition user_exists (d : db) (u : uuid) : bool :=
  existsb (fun r => String.eqb (Users.id r) u) (users d).

Definition find_item (d : db) (i : uuid) : option Items.row :=
  find (fun r => String.eqb (Items.id r) i) (items d).

Definition find_profile (d : db) (u : uuid) : option Profiles.row :=
  find (fun r => String.eqb (Profiles.id r) u) (profiles d).

(** ** The caller

    [auth.uid()] is the account id of the session, NULL for an anonymous
    request; [auth.role()] is ['authenticated'] exactly when there is a
    session. *)

Definition caller := option uuid.

Definition uid_is (c : caller) (u : uuid) : bool :=
  match c with
  | Some v => String.eqb v u
  | None => false
  end.

Definition authenticated (c : caller) : bool :=
  match c with Some _ => true | None => false end.

(** [public.get_user_role(user_id)]:
    [SELECT role FROM public.profiles WHERE id = user_id]. *)
Definition get_user_role (d : db) (c : caller) : option app_role :=
  match c with
  | Some u =>
      match find_profile d u with
      | Some p => Profiles.role p
      | None => None
      end
  | None => None
  end.

Definition is_admin (d : db) (c : caller) : bool :=
  match get_user_role d c with
  | Some r => app_role_eqb r admin
  | None => false
  end.

(** ** Constraint-checked inserts used by the trigger functions

    Trigger functions are [SECURITY DEFINER]: their statements skip the
    row-level policies but not the table constraints. *)

Definition insert_notification_row (r : Notifications.row) (d : db) : result db :=
  _ <- guard (negb (existsb (fun n => String.eqb (Notifications.id n) (Notifications.id r))
                            (notifications d))) unique_violation ;;
  _ <- guard (user_exists d (Notifications.user_id r)) foreign_key_violation ;;
  Ok (set_notifications d (notifications d ++ [r])%list).

Definition username_taken (d : db) (name : string) : bool :=
  existsb (fun p => String.eqb (Profiles.username p) name) (profiles d).

Definition insert_profile_row (r : Profiles.row) (d : db) : result db :=
  _ <- guard (negb (existsb (fun p => String.eqb (Profiles.id p) (Profiles.id r))
                            (profiles d))) unique_violation ;;
  _ <- guard (negb (username_taken d (Profiles.username r))) unique_violation ;;
  _ <- guard (user_exists d (Profiles.id r)) foreign_key_violation ;;
  Ok (set_profiles d (profiles d ++ [r])%list).

(** ** Trigger [on_message_created]: [create_message_notification]
    (20250701052339-enhance-message-notifications.sql, replacing the first
    version of the function) *)

Definition generic_message_body : string :=
  "You have received a new message about an item".

Definition titled_message_body (item_title : string) : string :=
  "You have received a new message about " ++ dquote ++ item_title ++ dquote.

Definition create_message_notification
    (now : timestamptz) (notif_id : uuid) (NEW : Messages.row) (d : db) : result db :=
  (* SELECT title INTO item_title FROM public.items WHERE id = NEW.item_id *)
  let item_title := option_map Items.title (find_item d (Messages.item_id NEW)) in
  insert_notification_row
    (Notifications.mk notif_id
       (Messages.recipient_id NEW)
       "message"
       "New Message"
       (match item_title with
        | Some t => titled_message_body t
        | None => generic_message_body
        end)
       false now)
    d.

(** [INSERT INTO public.messages (sender_id, recipient_id, item_id, message)]
    under the policy "Users can send messages", followed by the
    [AFTER INSERT ... FOR EACH ROW] trigger.  An error of the trigger aborts
    the statement. *)
Definition insert_message
    (c : caller) (now : timestamptz) (new_id notif_id : uuid)
    (sender recipient item : uuid) (body : string) (d : db) : result db :=
  let NEW := Messages.mk new_id sender recipient item body false now now in
  _ <- guard (uid_is c sender) rls_violation ;;
  _ <- guard (negb (existsb (fun m => String.eqb (Messages.id m) new_id) (messages d)))
             unique_violation ;;
  _ <- guard (user_exists d sender && user_exists d recipient) foreign_key_violation ;;
  _ <- guard (match find_item d item with Some _ => true | None => false end)
             foreign_key_violation ;;
  create_message_notification now notif_id NEW
    (set_messages d (messages d ++ [NEW])%list).

(** ** Trigger [on_auth_user_created]: [handle_new_user] *)

(** SQL text functions used by the trigger. *)

Fixpoint ltrim (s : string) : string :=
  match s with
  | String c s' => if Ascii.eqb c " " then ltrim s' else s
  | EmptyString => EmptyString
  end.

Fixpoint rtrim (s : string) : string :=
  match s with
  | String c s' =>
      match rtrim s' with
      | EmptyString => if Ascii.eqb c " " then EmptyString else String c EmptyString
      | t => String c t
      end
  | EmptyString => EmptyString
  end.

(** [trim(s)]: spaces removed at both ends. *)
Definition trim (s : string) : string := ltrim (rtrim s).

(** [NULLIF(s, '')] *)
Definition nullif_empty (s : option string) : option string :=
  match s with
  | Some EmptyString => None
  | other => other
  end.

(** [COALESCE(a, b)] with a non-null second argument. *)
Definition coalesce (a : option string) (b : string) : string :=
  match a with
  | Some v => v
  | None => b
  end.

(** [split_part(s, '@', 1)]: the text before the first ['@']. *)
Fixpoint split_part_at_1 (s : string) : string :=
  match s with
  | String c s' => if Ascii.eqb c "@" then EmptyString else String c (split_part_at_1 s')
  | EmptyString => EmptyString
  end.

Definition lower_char (c : ascii) : ascii :=
  let n := N_of_ascii c in
  if (N.leb 65 n && N.leb n 90)%bool then ascii_of_N (n + 32)%N else c.

(** [lower(s)] *)
Fixpoint lower (s : string) : string :=
  match s with
  | String c s' => String (lower_char c) (lower s')
  | EmptyString => EmptyString
  end.

(** The character class [[a-z0-9_]]. *)
Definition handle_char (c : ascii) : bool :=
  let n := N_of_ascii c in
  ((N.leb 97 n && N.leb n 122) || (N.leb 48 n && N.leb n 57) || N.eqb n 95)%bool.

(** [regexp_replace(s, '[^a-z0-9_]', '', 'g')] *)
Fixpoint strip_non_handle (s : string) : string :=
  match s with
  | String c s' =>
      if handle_char c then String c (strip_non_handle s') else strip_non_handle s'
  | EmptyString => EmptyString
  end.

(** [substring(s from 1 for n)] *)
Fixpoint substring_from_1_for (n : nat) (s : string) : string :=
  match n, s with
  | S n', String c s' => String c (substring_from_1_for n' s')
  | _, _ => EmptyString
  end.

(** The text of an [INTEGER], as [||] renders it. *)
Definition text_of_int (z : Z) : string :=
  DecimalString.NilZero.string_of_int (Z.to_int z).

Definition int4_max : Z := 2147483647.

Definition base_username (NEW : Users.row) : string :=
  let base :=
    coalesce (nullif_empty (option_map trim (Users.meta_username NEW)))
             (split_part_at_1 (Users.email NEW)) in
  let base := strip_non_handle (lower base) in
  substring_from_1_for 20 base.

(** The [WHILE EXISTS (...) LOOP] of [handle_new_user], entered with the
    current [final_username] and [counter].  [None] is an exhausted
    iteration budget; [counter := counter + 1] raises when [counter] is the
    largest [INTEGER]. *)
Fixpoint unique_loop (fuel : nat) (d : db) (base final : string) (counter : Z)
  : option (result string) :=
  match fuel with
  | O => None
  | S fuel' =>
      if username_taken d final then
        if counter =? int4_max then Some (Err integer_out_of_range)
        else unique_loop fuel' d base (base ++ text_of_int counter) (counter + 1)
      else Some (Ok final)
  end.

(** One iteration per existing profile row, plus one, is always enough
    ([unique_loop_budget] below), so the last branch is never taken. *)
Definition final_username (d : db) (base : string) : result string :=
  match unique_loop (S (List.length (profiles d))) d base base 1 with
  | Some r => r
  | None => Err integer_out_of_range
  end.

Definition handle_new_user (now : timestamptz) (NEW : Users.row) (d : db) : result db :=
  final <- final_username d (base_username NEW) ;;
  insert_profile_row
    (Profiles.mk (Users.id NEW)
       final
       (Some (coalesce (nullif_empty (option_map trim (Users.meta_full_name NEW))) final))
       (Some user)
       None now now)
    d.

(** [INSERT INTO auth.users] by the authentication provider, followed by
    the [AFTER INSERT] trigger. *)
Definition sign_up (now : timestamptz) (NEW : Users.row) (d : db) : result db :=
  _ <- guard (negb (user_exists d (Users.id NEW))) unique_violation ;;
  handle_new_user now NEW
    (mkdb (users d ++ [NEW])%list (profiles d) (items d) (claims d)
          (notifications d) (messages d)).

(** The candidate as the specification words it: lowercase, keep
    [[a-z0-9_]], keep the first 20 characters. *)
Definition spec_candidate (source : string) : string :=
  string_of_list_ascii
    (firstn 20 (filter handle_char (map lower_char (list_ascii_of_string source)))).


(** ** Row-level policies

    One definition per [CREATE POLICY].  Policies are permissive: a command
    is allowed on a row when one of the policies for that command (or a
    [FOR ALL] policy) accepts it. *)

Definition status_is (r : Items.row) (s : item_status) : bool :=
  match Items.status r with
  | Some v => item_status_eqb v s
  | None => false
  end.

(** "Anyone can view active items" *)
Definition anyone_can_view_active_items (r : Items.row) : bool :=
  status_is r active.
(** "Users can insert own items" *)
Definition users_can_insert_own_items (c : caller) (r : Items.row) : bool :=
  uid_is c (Items.user_id r).
(** "Users can update own items" *)
Definition users_can_update_own_items (c : caller) (r : Items.row) : bool :=
  uid_is c (Items.user_id r).
(** "Admins can manage all items" ([FOR ALL]) *)
Definition admins_can_manage_all_items (d : db) (c : caller) : bool :=
  is_admin d c.

Definition items_select (d : db) (c : caller) (r : Items.row) : bool :=
  anyone_can_view_active_items r || admins_can_manage_all_items d c.
Definition items_insert (d : db) (c : caller) (r : Items.row) : bool :=
  users_can_insert_own_items c r || admins_can_manage_all_items d c.
Definition items_update (d : db) (c : caller) (r : Items.row) : bool :=
  users_can_update_own_items c r || admins_can_manage_all_items d c.
Definition items_delete (d : db) (c : caller) (r : Items.row) : bool :=
  admins_can_manage_all_items d c.

(** [EXISTS (SELECT 1 FROM public.items WHERE items.id = claims.item_id
    AND items.user_id = auth.uid())].  The sub-select runs as the caller,
    under the row-level security of items: it sees the rows the caller may
    read. *)
Definition owns_claimed_item (d : db) (c : caller) (r : Claims.row) : bool :=
  existsb (fun i => String.eqb (Items.id i) (Claims.item_id r) && uid_is c (Items.user_id i)
                    && items_select d c i)
          (items d).

(** "Users can view claims for their items" *)
Definition users_can_view_claims (d : db) (c : caller) (r : Claims.row) : bool :=
  owns_claimed_item d c r || uid_is c (Claims.claimant_id r).
(** "Users can create claims" *)
Definition users_can_create_claims (c : caller) (r : Claims.row) : bool :=
  uid_is c (Claims.claimant_id r).
(** "Item owners can update claims" *)
Definition item_owners_can_update_claims (d : db) (c : caller) (r : Claims.row) : bool :=
  owns_claimed_item d c r.
(** "Admins can manage all claims" ([FOR ALL]) *)
Definition admins_can_manage_all_claims (d : db) (c : caller) : bool :=
  is_admin d c.

Definition claims_select (d : db) (c : caller) (r : Claims.row) : bool :=
  users_can_view_claims d c r || admins_can_manage_all_claims d c.
Definition claims_insert (d : db) (c : caller) (r : Claims.row) : bool :=
  users_can_create_claims c r || admins_can_manage_all_claims d c.
Definition claims_update (d : db) (c : caller) (r : Claims.row) : bool :=
  item_owners_can_update_claims d c r || admins_can_manage_all_claims d c.
Definition claims_delete (d : db) (c : caller) (r : Claims.row) : bool :=
  admins_can_manage_all_claims d c.

(** Notifications: "Users can view own notifications", "Users can update
    own notifications", "System can insert notifications". *)
Definition notifications_select (c : caller) (r : Notifications.row) : bool :=
  uid_is c (Notifications.user_id r).
Definition notifications_update (c : caller) (r : Notifications.row) : bool :=
  uid_is c (Notifications.user_id r).
Definition notifications_insert (c : caller) (r : Notifications.row) : bool := true.

(** Messages: "Users can view messages they sent or received". *)
Definition messages_select (c : caller) (r : Messages.row) : bool :=
  uid_is c (Messages.sender_id r) || uid_is c (Messages.recipient_id r).

(** ** Storage policies on [storage.objects] *)

Record storage_object : Type := mkobj {
  bucket_id : string;
  name : string
}.

Fixpoint split_on (sep : ascii) (s : string) : list string :=
  match s with
  | EmptyString => [EmptyString]
  | String c s' =>
      if Ascii.eqb c sep then EmptyString :: split_on sep s'
      else match split_on sep s' with
           | part :: rest => String c part :: rest
           | [] => [String c EmptyString]
           end
  end.

(** Modelled from the spec: [storage.foldername] belongs to the storage
    service, not to this repository.  It yields the folder components of an
    object path: the pieces between slashes, the file name left out, so
    that its first element is the path prefix before the first slash, and
    is NULL for a path without a folder. *)
Definition foldername (path : string) : list string :=
  removelast (split_on "/" path).

(** [auth.uid()::text = (storage.foldername(name))[1]] *)
Definition uid_is_first_folder (c : caller) (o : storage_object) : bool :=
  match c, foldername (name o) with
  | Some u, folder :: _ => String.eqb u folder
  | _, _ => false
  end.

(** "Anyone can view item images" *)
Definition anyone_can_view_item_images (o : storage_object) : bool :=
  String.eqb (bucket_id o) "item-images".
(** "Users can upload item images" *)
Definition users_can_upload_item_images (c : caller) (o : storage_object) : bool :=
  String.eqb (bucket_id o) "item-images" && authenticated c && uid_is_first_folder c o.
(** "Users can update own item images" *)
Definition users_can_update_own_item_images (c : caller) (o : storage_object) : bool :=
  String.eqb (bucket_id o) "item-images" && uid_is_first_folder c o.
(** "Users can delete own item images" *)
Definition users_can_delete_own_item_images (c : caller) (o : storage_object) : bool :=
  String.eqb (bucket_id o) "item-images" && uid_is_first_folder c o.

(** "Anyone can view profile avatars" *)
Definition anyone_can_view_profile_avatars (o : storage_object) : bool :=
  String.eqb (bucket_id o) "profile-avatars".
(** "Users can upload profile avatars" *)
Definition users_can_upload_profile_avatars (c : caller) (o : storage_object) : bool :=
  String.eqb (bucket_id o) "profile-avatars" && authenticated c.
(** "Users can update their own profile avatars" *)
Definition users_can_update_own_profile_avatars (c : caller) (o : storage_object) : bool :=
  String.eqb (bucket_id o) "profile-avatars" && uid_is_first_folder c o.
(** "Users can delete their own profile avatars" *)
Definition users_can_delete_own_profile_avatars (c : caller) (o : storage_object) : bool :=
  String.eqb (bucket_id o) "profile-avatars" && uid_is_first_folder c o.

Definition objects_select (c : caller) (o : storage_object) : bool :=
  anyone_can_view_item_images o || anyone_can_view_profile_avatars o.
Definition objects_insert (c : caller) (o : storage_object) : bool :=
  users_can_upload_item_images c o || users_can_upload_profile_avatars c o.
Definition objects_update (c : caller) (o : storage_object) : bool :=
  users_can_update_own_item_images c o || users_can_update_own_profile_avatars c o.
Definition objects_delete (c : caller) (o : storage_object) : bool :=
  users_can_delete_own_item_images c o || users_can_delete_own_profile_avatars c o.


(** ** Statements issued through the data API

    Every statement runs as the caller.  Following PostgreSQL's rules for
    row-level security: an [UPDATE] or [DELETE] with a [WHERE] clause acts
    on the rows that match it and pass both the [SELECT] and the command's
    own [USING] policies, other rows being skipped silently; the rows an
    [UPDATE] writes must pass those policies again (none of the policies
    has a [WITH CHECK] of its own), and a violation is an error.  The
    caller's role is read before the statement. *)


(** *** items *)

Record items_patch : Type := mk_items_patch {
  set_user_id : option uuid;
  set_title : option string;
  set_description : option string;
  set_image_url : option (option string);
  set_category : option string;
  set_tags : option (list string);
  set_location : option string;
  set_status : option (option item_status);
  set_type : option item_type
}.

Definition or_keep {A : Type} (new : option A) (old : A) : A :=
  match new with
  | Some v => v
  | None => old
  end.

Definition apply_items_patch (p : items_patch) (r : Items.row) : Items.row :=
  Items.mk (Items.id r)
    (or_keep (set_user_id p) (Items.user_id r))
    (or_keep (set_title p) (Items.title r))
    (or_keep (set_description p) (Items.description r))
    (or_keep (set_image_url p) (Items.image_url r))
    (or_keep (set_category p) (Items.category r))
    (or_keep (set_tags p) (Items.tags r))
    (or_keep (set_location p) (Items.location r))
    (or_keep (set_status p) (Items.status r))
    (or_keep (set_type p) (Items.type r))
    (Items.created_at r) (Items.updated_at r).

(** [INSERT INTO items]; [returning] is set when the request asks for the
    new row back ([.select()]). *)
Definition insert_item (c : caller) (returning : bool) (r : Items.row) (d : db) : result db :=
  _ <- guard (items_insert d c r) rls_violation ;;
  _ <- guard (negb returning || items_select d c r) rls_violation ;;
  _ <- guard (negb (existsb (fun i => String.eqb (Items.id i) (Items.id r)) (items d)))
             unique_violation ;;
  _ <- guard (user_exists d (Items.user_id r)) foreign_key_violation ;;
  Ok (set_items d (items d ++ [r])%list).

(** [UPDATE items SET ... WHERE id = item]: the rows it acts on, the table
    it leaves, and the statement. *)
Definition items_update_hit (d : db) (c : caller) (item : uuid) (r : Items.row) : bool :=
  String.eqb (Items.id r) item && items_select d c r && items_update d c r.

Definition items_updated (d : db) (c : caller) (item : uuid) (p : items_patch)
  : list Items.row :=
  map (fun r => if items_update_hit d c item r then apply_items_patch p r else r) (items d).

Definition update_items (c : caller) (item : uuid) (p : items_patch) (d : db) : result db :=
  _ <- guard (forallb (fun r => negb (items_update_hit d c item r)
                                || (items_update d c (apply_items_patch p r)
                                    && items_select d c (apply_items_patch p r)))
                      (items d)) rls_violation ;;
  _ <- guard (match set_user_id p with
              | Some u => negb (existsb (items_update_hit d c item) (items d))
                          || user_exists d u
              | None => true
              end) foreign_key_violation ;;
  Ok (set_items d (items_updated d c item p)).

(** [DELETE FROM items WHERE ...], with the cascade to claims and messages
    of the deleted items. *)
Definition delete_items (c : caller) (where_ : Items.row -> bool) (d : db) : result db :=
  let hit r := where_ r && items_select d c r && items_delete d c r in
  let gone i := existsb (fun r => hit r && String.eqb (Items.id r) i) (items d) in
  Ok (mkdb (users d) (profiles d)
        (filter (fun r => negb (hit r)) (items d))
        (filter (fun r => negb (gone (Claims.item_id r))) (claims d))
        (notifications d)
        (filter (fun r => negb (gone (Messages.item_id r))) (messages d))).

(** *** claims *)

Record claims_patch : Type := mk_claims_patch {
  set_item_id : option uuid;
  set_claimant_id : option uuid;
  set_message : option string;
  set_claim_status : option (option claim_status)
}.

Definition apply_claims_patch (p : claims_patch) (r : Claims.row) : Claims.row :=
  Claims.mk (Claims.id r)
    (or_keep (set_item_id p) (Claims.item_id r))
    (or_keep (set_claimant_id p) (Claims.claimant_id r))
    (or_keep (set_message p) (Claims.message r))
    (or_keep (set_claim_status p) (Claims.status r))
    (Claims.created_at r) (Claims.updated_at r).

(** The key of [UNIQUE(item_id, claimant_id)]. *)
Definition claim_key (r : Claims.row) : uuid * uuid :=
  (Claims.item_id r, Claims.claimant_id r).

Definition key_eqb (a b : uuid * uuid) : bool :=
  String.eqb (fst a) (fst b) && String.eqb (snd a) (snd b).

Definition claim_key_present (k : uuid * uuid) (l : list Claims.row) : bool :=
  existsb (fun r => key_eqb (claim_key r) k) l.

Definition claim_key_count (k : uuid * uuid) (l : list Claims.row) : nat :=
  List.length (filter (fun r => key_eqb (claim_key r) k) l).

(** [INSERT INTO claims] *)
Definition insert_claim (c : caller) (r : Claims.row) (d : db) : result db :=
  _ <- guard (claims_insert d c r) rls_violation ;;
  _ <- guard (negb (existsb (fun x => String.eqb (Claims.id x) (Claims.id r)) (claims d)))
             unique_violation ;;
  _ <- guard (match find_item d (Claims.item_id r) with Some _ => true | None => false end)
             foreign_key_violation ;;
  _ <- guard (user_exists d (Claims.claimant_id r)) foreign_key_violation ;;
  _ <- guard (negb (claim_key_present (claim_key r) (claims d))) unique_violation ;;
  Ok (set_claims d (claims d ++ [r])%list).

Definition touches_claim_key (p : claims_patch) : bool :=
  match set_item_id p, set_claimant_id p with
  | None, None => false
  | _, _ => true
  end.

(** [UPDATE claims SET ... WHERE id = claim].  The unique index and the
    foreign keys are consulted for the rows whose key columns are
    written. *)
Definition claims_update_hit (d : db) (c : caller) (claim : uuid) (r : Claims.row) : bool :=
  String.eqb (Claims.id r) claim && claims_select d c r && claims_update d c r.

Definition claims_updated (d : db) (c : caller) (claim : uuid) (p : claims_patch)
  : list Claims.row :=
  map (fun r => if claims_update_hit d c claim r then apply_claims_patch p r else r)
      (claims d).

Definition update_claims (c : caller) (claim : uuid) (p : claims_patch) (d : db) : result db :=
  let hit := claims_update_hit d c claim in
  let written := apply_claims_patch p in
  _ <- guard (forallb (fun r => negb (hit r)
                                || (claims_update d c (written r) && claims_select d c (written r)))
                      (claims d)) rls_violation ;;
  _ <- guard (negb (touches_claim_key p)
              || forallb (fun r => negb (hit r)
                                   || (match find_item d (Claims.item_id (written r)) with
                                       | Some _ => true
                                       | None => false
                                       end
                                       && user_exists d (Claims.claimant_id (written r))))
                         (claims d)) foreign_key_violation ;;
  _ <- guard (negb (touches_claim_key p)
              || forallb (fun r => negb (hit r)
                                   || Nat.eqb (claim_key_count (claim_key (written r))
                                                 (claims_updated d c claim p)) 1)
                         (claims d)) unique_violation ;;
  Ok (set_claims d (claims_updated d c claim p)).

(** [DELETE FROM claims WHERE ...] *)
Definition delete_claims (c : caller) (where_ : Claims.row -> bool) (d : db) : result db :=
  let hit r := where_ r && claims_select d c r && claims_delete d c r in
  Ok (set_claims d (filter (fun r => negb (hit r)) (claims d))).

(** *** notifications, messages *)

(** [INSERT INTO notifications] by a client. *)
Definition insert_notification (c : caller) (r : Notifications.row) (d : db) : result db :=
  _ <- guard (notifications_insert c r) rls_violation ;;
  insert_notification_row r d.

(** [UPDATE notifications SET read = true WHERE ...] *)
Definition mark_notifications_read
    (c : caller) (where_ : Notifications.row -> bool) (d : db) : result db :=
  let hit r := where_ r && notifications_select c r && notifications_update c r in
  Ok (set_notifications d
        (map (fun r => if hit r
                       then Notifications.mk (Notifications.id r) (Notifications.user_id r)
                              (Notifications.type r) (Notifications.title r)
                              (Notifications.message r) true (Notifications.created_at r)
                       else r)
             (notifications d))).

(** [UPDATE messages SET read = true WHERE id IN (...)], under "Users can
    update messages they received". *)
Definition mark_messages_read (c : caller) (ids : list uuid) (d : db) : result db :=
  let hit r := existsb (String.eqb (Messages.id r)) ids
               && messages_select c r && uid_is c (Messages.recipient_id r) in
  Ok (set_messages d
        (map (fun r => if hit r
                       then Messages.mk (Messages.id r) (Messages.sender_id r)
                              (Messages.recipient_id r) (Messages.item_id r)
                              (Messages.message r) true (Messages.created_at r)
                              (Messages.updated_at r)
                       else r)
             (messages d))).

(** Removal of an account from [auth.users], with every [ON DELETE CASCADE]
    that follows from it. *)
Definition delete_account (u : uuid) (d : db) : db :=
  let item_gone i :=
    existsb (fun r => String.eqb (Items.id r) i && String.eqb (Items.user_id r) u) (items d) in
  mkdb (filter (fun r => negb (String.eqb (Users.id r) u)) (users d))
       (filter (fun r => negb (String.eqb (Profiles.id r) u)) (profiles d))
       (filter (fun r => negb (String.eqb (Items.user_id r) u)) (items d))
       (filter (fun r => negb (String.eqb (Claims.claimant_id r) u
                               || item_gone (Claims.item_id r))) (claims d))
       (filter (fun r => negb (String.eqb (Notifications.user_id r) u)) (notifications d))
       (filter (fun r => negb (String.eqb (Messages.sender_id r) u
                               || String.eqb (Messages.recipient_id r) u
                               || item_gone (Messages.item_id r))) (messages d)).

(** *** profiles *)

Record profiles_patch : Type := mk_profiles_patch {
  set_username : option string;
  set_full_name : option (option string);
  set_role : option (option app_role);
  set_avatar_url : option (option string)
}.

Definition apply_profiles_patch (p : profiles_patch) (r : Profiles.row) : Profiles.row :=
  Profiles.mk (Profiles.id r)
    (or_keep (set_username p) (Profiles.username r))
    (or_keep (set_full_name p) (Profiles.full_name r))
    (or_keep (set_role p) (Profiles.role r))
    (or_keep (set_avatar_url p) (Profiles.avatar_url r))
    (Profiles.created_at r) (Profiles.updated_at r).

(** [UPDATE profiles SET ... WHERE id = profile], under "Users can update
    own profile" ("Users can view all profiles" lets every row be read). *)
Definition update_profiles (c : caller) (profile : uuid) (p : profiles_patch) (d : db)
  : result db :=
  let hit r := String.eqb (Profiles.id r) profile && uid_is c (Profiles.id r) in
  let table := map (fun r => if hit r then apply_profiles_patch p r else r) (profiles d) in
  _ <- guard (match set_username p with
              | Some u =>
                  forallb (fun r => negb (hit r)
                                    || Nat.eqb (List.length
                                                  (filter (fun x => String.eqb (Profiles.username x) u)
                                                          table)) 1)
                          (profiles d)
              | None => true
              end) unique_violation ;;
  Ok (set_profiles d table).

(** A transport failure: the request does not reach the backend. *)
Definition call {A : Type} (fault : bool) (statement : result A) : result A :=
  if fault then Err transport_error else statement.

(** One statement of the data API, or one event of the authentication
    provider. *)
Inductive statement : Type :=
| SignUp (now : timestamptz) (NEW : Users.row)
| DeleteAccount (u : uuid)
| UpdateProfiles (profile : uuid) (p : profiles_patch)
| InsertItem (returning : bool) (r : Items.row)
| UpdateItems (item : uuid) (p : items_patch)
| DeleteItems (where_ : Items.row -> bool)
| InsertClaim (r : Claims.row)
| UpdateClaims (claim : uuid) (p : claims_patch)
| DeleteClaims (where_ : Claims.row -> bool)
| InsertMessage (now : timestamptz) (new_id notif_id sender recipient item : uuid)
                (body : string)
| MarkMessagesRead (ids : list uuid)
| InsertNotification (r : Notifications.row)
| MarkNotificationsRead (where_ : Notifications.row -> bool).

Definition exec (c : caller) (s : statement) (d : db) : result db :=
  match s with
  | SignUp now NEW => sign_up now NEW d
  | DeleteAccount u => Ok (delete_account u d)
  | UpdateProfiles profile p => update_profiles c profile p d
  | InsertItem returning r => insert_item c returning r d
  | UpdateItems item p => update_items c item p d
  | DeleteItems where_ => delete_items c where_ d
  | InsertClaim r => insert_claim c r d
  | UpdateClaims claim p => update_claims c claim p d
  | DeleteClaims where_ => delete_claims c where_ d
  | InsertMessage now new_id notif_id sender recipient item body =>
      insert_message c now new_id notif_id sender recipient item body d
  | MarkMessagesRead ids => mark_messages_read c ids d
  | InsertNotification r => insert_notification c r d
  | MarkNotificationsRead where_ => mark_notifications_read c where_ d
  end.

Definition empty_db : db := mkdb [] [] [] [] [] [].

(** The states the database can be in: those reached from the empty
    database by statements that succeed. *)
Inductive reachable : db -> Prop :=
| reachable_empty : reachable empty_db
| reachable_exec (c : caller) (s : statement) (d d' : db) :
    reachable d -> exec c s d = Ok d' -> reachable d'.

(** ** Client data access

    Each function takes the database before the call and returns the
    database after it together with the toast it shows.  [fault] arguments
    are transport failures of the individual requests. *)

Inductive toast : Type :=
| NoToast
| ToastAuthenticationRequired
| ToastAlreadyClaimed
| ToastSuccess
| ToastError.

(** [.select(...).eq(...).single()]: the row when exactly one visible row
    matches, no data otherwise. *)
Definition single {A : Type} (rows : list A) : option A :=
  match rows with
  | [r] => Some r
  | _ => None
  end.

Definition select_claims (c : caller) (where_ : Claims.row -> bool) (d : db) : list Claims.row :=
  filter (fun r => where_ r && claims_select d c r) (claims d).

Definition select_items (c : caller) (where_ : Items.row -> bool) (d : db) : list Items.row :=
  filter (fun r => where_ r && items_select d c r) (items d).

(** JavaScript truthiness of a string. *)
Definition truthy (s : string) : bool :=
  match s with
  | EmptyString => false
  | _ => true
  end.

Definition claim_notification_body (item_title : string) : string :=
  "Someone has claimed your item " ++ dquote ++ item_title ++ dquote.

(** [const { data } = await ....single()]: only [data] is read, so a
    request that fails gives no data, like one that matches no row. *)
Definition data_of_single {A : Type} (fault : bool) (rows : list A) : option A :=
  if fault then None else single rows.

(** [createClaim] of the item list (the dashboard has the same function).
    [usr] is the signed-in account, [prompted] the answer to the prompt
    ([None] when it is dismissed).  The check for an existing claim and the
    look-up of the item ignore their errors; an error of the claims insert
    aborts; the notification insert is not looked at. *)
Definition createClaim
    (usr : option uuid) (itemId : uuid) (prompted : option string)
    (now : timestamptz) (claim_id notif_id : uuid)
    (fault_check fault_item fault_claim fault_notification : bool) (d : db) : db * toast :=
  match usr with
  | None => (d, ToastAuthenticationRequired)
  | Some user_id =>
      (* Check if user has already claimed this item *)
      let existingClaim :=
        data_of_single fault_check
          (select_claims usr
             (fun r => String.eqb (Claims.item_id r) itemId
                       && String.eqb (Claims.claimant_id r) user_id) d) in
      match existingClaim with
      | Some _ => (d, ToastAlreadyClaimed)
      | None =>
          match prompted with
          | None => (d, NoToast)
          | Some message =>
              if negb (truthy message) then (d, NoToast)
              else
                (* Get item details for notification *)
                let itemData :=
                  data_of_single fault_item
                    (select_items usr (fun r => String.eqb (Items.id r) itemId) d) in
                match call fault_claim
                        (insert_claim usr
                           (Claims.mk claim_id itemId user_id message (Some pending) now now) d)
                with
                | Err _ => (d, ToastError)
                | Ok d1 =>
                    (* Create notification for the item owner *)
                    let d2 :=
                      match itemData with
                      | Some it =>
                          if truthy (Items.user_id it) then
                            match call fault_notification
                                    (insert_notification usr
                                       (Notifications.mk notif_id (Items.user_id it)
                                          "claim" "New Claim Received"
                                          (claim_notification_body (Items.title it))
                                          false now) d1)
                            with
                            | Ok d' => d'
                            | Err _ => d1
                            end
                          else d1
                      | None => d1
                      end in
                    (d2, ToastSuccess)
                end
          end
      end
  end.

Definition status_patch (s : claim_status) : claims_patch :=
  mk_claims_patch None None None (Some (Some s)).

Definition item_status_patch (s : item_status) : items_patch :=
  mk_items_patch None None None None None None None (Some (Some s)) None.

(** [updateClaimStatus] of the admin claims table.  [claims_state] is the
    component's list of claims, as last fetched. *)
Definition updateClaimStatus
    (c : caller) (claims_state : list Claims.row) (claimId : uuid) (status : claim_status)
    (fault_claim fault_item : bool) (d : db) : db * toast :=
  match call fault_claim (update_claims c claimId (status_patch status) d) with
  | Err _ => (d, ToastError)
  | Ok d1 =>
      (* If claim is approved, update item status to claimed *)
      let d2 :=
        match status with
        | approved =>
            match find (fun x => String.eqb (Claims.id x) claimId) claims_state with
            | Some claim =>
                match call fault_item
                        (update_items c (Claims.item_id claim) (item_status_patch claimed) d1)
                with
                | Ok d' => d'
                | Err _ => d1   (* the error is logged *)
                end
            | None => d1
            end
        | _ => d1
        end in
      (d2, ToastSuccess)
  end.

(** [updateItemStatus] of the admin page. *)
Definition updateItemStatus
    (c : caller) (itemId : uuid) (status : item_status) (fault : bool) (d : db) : db * toast :=
  match call fault (update_items c itemId (item_status_patch status) d) with
  | Err _ => (d, ToastError)
  | Ok d1 => (d1, ToastSuccess)
  end.

(** [editItem] of the admin page; the three arguments are the answers to
    its prompts ([None] when a prompt is dismissed). *)
Definition editItem
    (c : caller) (item : Items.row) (newTitle newDescription newLocation : option string)
    (fault : bool) (d : db) : db * toast :=
  match newTitle, newDescription, newLocation with
  | Some t, Some de, Some l =>
      if negb (truthy t) || String.eqb t (Items.title item) then (d, NoToast)
      else
        let p :=
          mk_items_patch None (Some t)
            (Some (if truthy de then de else Items.description item))
            None None None
            (Some (if truthy l then l else Items.location item))
            None None in
        match call fault (update_items c (Items.id item) p d) with
        | Err _ => (d, ToastError)
        | Ok d1 => (d1, ToastSuccess)
        end
  | _, _, _ => (d, NoToast)
  end.

(** [deleteItem] of the admin page: the item's claims, then the item. *)
Definition deleteItem (c : caller) (itemId : uuid) (fault_claims fault_item : bool) (d : db)
  : db * toast :=
  match call fault_claims
          (delete_claims c (fun r => String.eqb (Claims.item_id r) itemId) d) with
  | Err _ => (d, ToastError)
  | Ok d1 =>
      match call fault_item (delete_items c (fun r => String.eqb (Items.id r) itemId) d1) with
      | Err _ => (d1, ToastError)
      | Ok d2 => (d2, ToastSuccess)
      end
  end.

(** The insert of the report form ([handleSubmit] of [ReportItem]); the
    status column takes its default. *)
Definition reportItem
    (usr : option uuid) (now : timestamptz) (new_id : uuid)
    (title description category location : string) (kind : item_type)
    (tags : list string) (imageUrl : option string) (fault : bool) (d : db) : db * toast :=
  match usr with
  | None => (d, NoToast)
  | Some user_id =>
      match call fault
              (insert_item usr true
                 (Items.mk new_id user_id title description imageUrl category tags location
                    (Some active) kind now now) d)
      with
      | Err _ => (d, ToastError)
      | Ok d1 => (d1, ToastSuccess)
      end
  end.

(** The item-touching operations of the client, as one type. *)
Inductive client_op : Type :=
| OpReportItem (usr : option uuid) (now : timestamptz) (new_id : uuid)
               (title description category location : string) (kind : item_type)
               (tags : list string) (imageUrl : option string) (fault : bool)
| OpUpdateItemStatus (c : caller) (itemId : uuid) (status : item_status) (fault : bool)
| OpEditItem (c : caller) (item : Items.row)
             (newTitle newDescription newLocation : option string)
             (fault : bool)
| OpDeleteItem (c : caller) (itemId : uuid) (fault_claims fault_item : bool)
| OpUpdateClaimStatus (c : caller) (claims_state : list Claims.row) (claimId : uuid)
                      (status : claim_status) (fault_claim fault_item : bool)
| OpCreateClaim (usr : option uuid) (itemId : uuid) (prompted : option string)
                (now : timestamptz) (claim_id notif_id : uuid)
                (fault_check fault_item fault_claim fault_notification : bool).

Definition run_op (o : client_op) (d : db) : db :=
  match o with
  | OpReportItem usr now new_id title description category location kind tags imageUrl fault =>
      fst (reportItem usr now new_id title description category location kind tags imageUrl
             fault d)
  | OpUpdateItemStatus c itemId status fault => fst (updateItemStatus c itemId status fault d)
  | OpEditItem c item t de l fault => fst (editItem c item t de l fault d)
  | OpDeleteItem c itemId f1 f2 => fst (deleteItem c itemId f1 f2 d)
  | OpUpdateClaimStatus c cs claimId status f1 f2 =>
      fst (updateClaimStatus c cs claimId status f1 f2 d)
  | OpCreateClaim usr itemId prompted now claim_id notif_id f_check f_item f1 f2 =>
      fst (createClaim usr itemId prompted now claim_id notif_id f_check f_item f1 f2 d)
  end.

Definition run_ops (ops : list client_op) (d : db) : db :=
  fold_left (fun acc o => run_op o acc) ops d.

(** ** [fetchConversations] of the messages page *)

(** A row of [select('id, title')] on items. *)
Record item_ref : Type := mk_item_ref {
  ref_id : uuid;
  ref_title : string
}.

(** A row of [select('id, username, avatar_url')] on profiles. *)
Record profile_ref : Type := mk_profile_ref {
  pref_id : uuid;
  pref_username : string;
  pref_avatar_url : option string
}.

(** A message with the joined item and profiles. *)
Record enriched : Type := mk_enriched {
  row_of : Messages.row;
  joined_items : option item_ref;
  sender_profile : option profile_ref;
  recipient_profile : option profile_ref
}.

Module Conversation.
Record t : Type := mk {
  item_id : uuid;
  item_title : string;
  other_user_id : uuid;
  other_user_username : string;
  other_user_avatar : option string;
  messages : list enriched;
  last_message_date : timestamptz;
  unread_count : nat
}.
End Conversation.

(** [Array.prototype.sort] with a comparator: a stable sort; [a] stays in
    front of [b] when [compare a b <= 0]. *)
Fixpoint sort_insert {A : Type} (compare : A -> A -> Z) (x : A) (l : list A) : list A :=
  match l with
  | [] => [x]
  | y :: l' => if compare x y <=? 0 then x :: l else y :: sort_insert compare x l'
  end.

Fixpoint array_sort {A : Type} (compare : A -> A -> Z) (l : list A) : list A :=
  match l with
  | [] => []
  | x :: l' => sort_insert compare x (array_sort compare l')
  end.

(** [new Date(created_at).getTime()]: whole milliseconds; the digits of
    the timestamp below the millisecond are dropped. *)
Definition getTime (t : timestamptz) : Z := t / 1000.

(** [a || fallback] on strings. *)
Definition or_default (a : option string) (fallback : string) : string :=
  match a with
  | Some v => if truthy v then v else fallback
  | None => fallback
  end.

Definition enrich (itemsData : list item_ref) (profilesData : list profile_ref)
    (message : Messages.row) : enriched :=
  mk_enriched message
    (find (fun item => String.eqb (ref_id item) (Messages.item_id message)) itemsData)
    (find (fun profile => String.eqb (pref_id profile) (Messages.sender_id message)) profilesData)
    (find (fun profile => String.eqb (pref_id profile) (Messages.recipient_id message))
          profilesData).

Definition otherUserId (usr : uuid) (message : Messages.row) : uuid :=
  if String.eqb (Messages.sender_id message) usr
  then Messages.recipient_id message
  else Messages.sender_id message.

Definition conversationKey (usr : uuid) (message : Messages.row) : string :=
  Messages.item_id message ++ "-" ++ otherUserId usr message.

(** Counted as unread: addressed to the caller and not read. *)
Definition unread_for (usr : uuid) (message : Messages.row) : bool :=
  String.eqb (Messages.recipient_id message) usr && negb (Messages.read message).

(** The [Map<string, Conversation>]: entries in insertion order. *)
Definition conversation_map := list (string * Conversation.t).

Definition map_has (key : string) (m : conversation_map) : bool :=
  existsb (fun e => String.eqb (fst e) key) m.

(** In-place change of the conversation stored under [key]. *)
Fixpoint map_modify (key : string) (f : Conversation.t -> Conversation.t)
    (m : conversation_map) : conversation_map :=
  match m with
  | [] => []
  | (k, v) :: m' =>
      if String.eqb k key then (k, f v) :: m' else (k, v) :: map_modify key f m'
  end.

Definition new_conversation (usr : uuid) (e : enriched) : Conversation.t :=
  let message := row_of e in
  let otherUserProfile :=
    if String.eqb (Messages.sender_id message) usr
    then recipient_profile e else sender_profile e in
  Conversation.mk
    (Messages.item_id message)
    (or_default (option_map ref_title (joined_items e)) "Unknown Item")
    (otherUserId usr message)
    (or_default (option_map pref_username otherUserProfile) "Unknown User")
    (match otherUserProfile with Some p => pref_avatar_url p | None => None end)
    []
    (Messages.created_at message)
    0%nat.

Definition push_message (usr : uuid) (e : enriched) (conversation : Conversation.t)
  : Conversation.t :=
  Conversation.mk
    (Conversation.item_id conversation)
    (Conversation.item_title conversation)
    (Conversation.other_user_id conversation)
    (Conversation.other_user_username conversation)
    (Conversation.other_user_avatar conversation)
    (Conversation.messages conversation ++ [e])%list
    (Conversation.last_message_date conversation)
    (if unread_for usr (row_of e)
     then S (Conversation.unread_count conversation)
     else Conversation.unread_count conversation).

(** The body of [enrichedMessages.forEach]. *)
Definition group_message (usr : uuid) (m : conversation_map) (e : enriched)
  : conversation_map :=
  let key := conversationKey usr (row_of e) in
  let m1 := if map_has key m then m else (m ++ [(key, new_conversation usr e)])%list in
  map_modify key (push_message usr e) m1.

Definition sort_messages (conversation : Conversation.t) : Conversation.t :=
  Conversation.mk
    (Conversation.item_id conversation)
    (Conversation.item_title conversation)
    (Conversation.other_user_id conversation)
    (Conversation.other_user_username conversation)
    (Conversation.other_user_avatar conversation)
    (array_sort
       (fun a b => getTime (Messages.created_at (row_of a))
                   - getTime (Messages.created_at (row_of b)))
       (Conversation.messages conversation))
    (Conversation.last_message_date conversation)
    (Conversation.unread_count conversation).

(** The client side of [fetchConversations], from the three responses to
    the list it stores. *)
Definition fetchConversations
    (usr : uuid) (messagesData : list Messages.row)
    (itemsData : list item_ref) (profilesData : list profile_ref) : list Conversation.t :=
  let enrichedMessages := map (enrich itemsData profilesData) messagesData in
  let conversationMap := fold_left (group_message usr) enrichedMessages [] in
  let conversationMap := map (fun e => (fst e, sort_messages (snd e))) conversationMap in
  array_sort
    (fun a b => getTime (Conversation.last_message_date b)
                - getTime (Conversation.last_message_date a))
    (map snd conversationMap).

(** The messages request:
    [.or(sender_id.eq.usr, recipient_id.eq.usr).order('created_at', desc)].
    A response holds the rows of the table that involve the caller, newest
    first; rows of equal time come in an order the backend chooses. *)
Definition involves (usr : uuid) (m : Messages.row) : bool :=
  String.eqb (Messages.sender_id m) usr || String.eqb (Messages.recipient_id m) usr.

Definition newest_first (l : list Messages.row) : Prop :=
  StronglySorted (fun a b => Messages.created_at a >= Messages.created_at b) l.

Definition messages_response (usr : uuid) (d : db) (messagesData : list Messages.row) : Prop :=
  Permutation messagesData (filter (involves usr) (messages d)) /\ newest_first messagesData.

(** The text form of a [UUID] column: 36 characters. *)
Definition uuid_text (s : string) : Prop := String.length s = 36%nat.

(** The names the loop of [handle_new_user] tries, in order: [base], then
    [base || 1], [base || 2], ... *)
Definition candidate (base : string) (k : Z) : string :=
  if k =? 0 then base else base ++ text_of_int k.

(** The text the handle is derived from: the trimmed metadata username
    when it is given and not blank, else the local part of the email. *)
Definition handle_source (NEW : Users.row) : string :=
  match Users.meta_username NEW with
  | Some u => if truthy (trim u) then trim u else split_part_at_1 (Users.email NEW)
  | None => split_part_at_1 (Users.email NEW)
  end.

(** The display name given at registration, if any. *)
Definition given_full_name (NEW : Users.row) : option string :=
  match Users.meta_full_name NEW with
  | Some f => if truthy (trim f) then Some (trim f) else None
  | None => None
  end.

(** No account and no profile row uses the id [u]. *)
Definition unused_id (d : db) (u : uuid) : Prop :=
  user_exists d u = false /\
  existsb (fun p => String.eqb (Profiles.id p) u) (profiles d) = false.

(** A profile table in which [base] and [base || 1 .. base || n] are all
    taken. *)
Definition profile_named (name_ : string) : Profiles.row :=
  Profiles.mk name_ name_ None (Some user) None 0 0.

Definition crowded (base : string) (n : nat) : db :=
  set_profiles empty_db
    (map profile_named
         (base :: map (fun k => base ++ text_of_int (Z.of_nat k)) (seq 1 n))).

(** The grouping as the specification words it: the bucket of a key holds
    the messages with that key, in the order received; its conversation
    takes item, other party and date from the first of them and counts the
    unread ones. *)
Definition bucket (usr : uuid) (key : string) (es : list enriched) : list enriched :=
  filter (fun e => String.eqb (conversationKey usr (row_of e)) key) es.

Definition unread_in (usr : uuid) (es : list enriched) : nat :=
  List.length (filter (fun e => unread_for usr (row_of e)) es).

Definition grouped (usr : uuid) (key : string) (es : list enriched) : option Conversation.t :=
  match bucket usr key es with
  | [] => None
  | e0 :: rest =>
      let c := new_conversation usr e0 in
      Some (Conversation.mk
              (Conversation.item_id c) (Conversation.item_title c)
              (Conversation.other_user_id c) (Conversation.other_user_username c)
              (Conversation.other_user_avatar c)
              (e0 :: rest)
              (Conversation.last_message_date c)
              (unread_in usr (e0 :: rest)))
  end.

(** The messages of the table that belong to the conversation of the caller
    with [other] about [item]. *)
Definition in_conversation (usr item other : uuid) (m : Messages.row) : bool :=
  involves usr m && String.eqb (Messages.item_id m) item
  && String.eqb (otherUserId usr m) other.

(** [mints o i]: the operation creates an item row with id [i]. *)
Definition mints (o : client_op) (i : uuid) : bool :=
  match o with
  | OpReportItem _ _ new_id _ _ _ _ _ _ _ _ => String.eqb new_id i
  | _ => false
  end.

(** One of the three values of [item_status], not NULL. *)
Definition status_defined (r : Items.row) : Prop :=
  Items.status r = Some active \/ Items.status r = Some claimed
  \/ Items.status r = Some archived.

(** Every row of [l'] continues a row of [l]: same id, same kind. *)
Definition continues (l l' : list Items.row) : Prop :=
  forall x', In x' l' ->
             exists x, In x l /\ Items.id x = Items.id x' /\ Items.type x = Items.type x'.

(** ** Sample data *)

Definition alice : uuid := "00000000-0000-4000-8000-00000000000a".
Definition bob : uuid := "00000000-0000-4000-8000-00000000000b".
Definition carol : uuid := "00000000-0000-4000-8000-00000000000c".
Definition backpack : uuid := "10000000-0000-4000-8000-000000000001".
Definition umbrella : uuid := "10000000-0000-4000-8000-000000000002".

Definition alice_account : Users.row :=
  Users.mk alice "alice@example.com" (Some "alice") None.
Definition bob_account : Users.row :=
  Users.mk bob "bob@example.com" None (Some "Bob B.").
Definition carol_account : Users.row :=
  Users.mk carol "carol@example.com" None None.

Definition blue_backpack : Items.row :=
  Items.mk backpack alice "Blue Backpack" "Found near the library" None "Other" []
    "Library" (Some active) found 100 100.

Definition lost_umbrella : Items.row :=
  Items.mk umbrella alice "Umbrella" "Black, lost on the bus" None "Other" []
    "Bus 12" (Some claimed) lost 90 90.

(** Alice, Bob and Carol registered; Carol promoted to admin; two items of
    Alice. *)
Definition sample_db : db :=
  mkdb [alice_account; bob_account; carol_account]
       [Profiles.mk alice "alice" (Some "alice") (Some user) None 1 1;
        Profiles.mk bob "bob" (Some "Bob B.") (Some user) None 2 2;
        Profiles.mk carol "carol" (Some "carol") (Some admin) None 3 3]
       [blue_backpack; lost_umbrella]
       [] [] [].

(** The statement by which an owner rewrites the kind of an item. *)
Definition rewrite_kind (kind : item_type) : items_patch :=
  mk_items_patch None None None None None None None None (Some kind).

Definition promote_to_admin : profiles_patch :=
  mk_profiles_patch None None (Some (Some admin)) None.

(** A history that builds [sample_db]. *)
Definition sample_history : list (caller * statement) :=
  [ (None, SignUp 1 alice_account);
    (None, SignUp 2 bob_account);
    (None, SignUp 3 carol_account);
    (Some carol, UpdateProfiles carol promote_to_admin);
    (Some alice, InsertItem true blue_backpack);
    (Some alice, InsertItem false lost_umbrella) ].

Fixpoint replay (h : list (caller * statement)) (d : db) : result db :=
  match h with
  | [] => Ok d
  | (c, s) :: h' => d1 <- exec c s d ;; replay h' d1
  end.

(** Bob has claimed the backpack. *)
Definition bobs_claim : Claims.row :=
  Claims.mk "20000000-0000-4000-8000-000000000001" backpack bob "That's mine"
    (Some pending) 110 110.

Definition claimed_db : db := set_claims sample_db [bobs_claim].

(** Bob and Alice have exchanged messages about the backpack, and Carol
    has written to Alice about the umbrella; newest first. *)
Definition chat : list Messages.row :=
  [ Messages.mk "30000000-0000-4000-8000-000000000004" carol alice umbrella
      "Is this yours?" false 240000 240000;
    Messages.mk "30000000-0000-4000-8000-000000000003" bob alice backpack
      "Great, thanks" false 230000 230000;
    Messages.mk "30000000-0000-4000-8000-000000000002" alice bob backpack
      "Yes, come by" true 220000 220000;
    Messages.mk "30000000-0000-4000-8000-000000000001" bob alice backpack
      "Is it still there?" true 210000 210000 ].

Definition chat_db : db := set_messages sample_db chat.

(** Bob has sent Alice two messages about the backpack within one
    millisecond; newest first. *)
Definition quick_chat : list Messages.row :=
  [ Messages.mk "30000000-0000-4000-8000-000000000007" bob alice backpack
      "I can come today" false 1000002 1000002;
    Messages.mk "30000000-0000-4000-8000-000000000006" bob alice backpack
      "Is it still there?" false 1000001 1000001 ].

Definition quick_chat_db : db := set_messages sample_db quick_chat.

Definition john_by_username : Users.row :=
  Users.mk alice "js@example.com" (Some "John Smith") None.
Definition john_by_email : Users.row :=
  Users.mk bob "john.smith@example.com" None None.

Definition sample_ops : list client_op :=
  [ OpUpdateItemStatus (Some carol) backpack archived false;
    OpEditItem (Some carol) blue_backpack (Some "Navy Backpack") (Some EmptyString) (Some EmptyString) false;
    OpReportItem (Some bob) 300 "10000000-0000-4000-8000-000000000003"
      "Keys" "Three keys on a ring" "Keys" "Gym" lost [] None false ].

(** ** Integrity of the schema, as predicates on a database *)

(** [text] is made of characters of [[a-z0-9_]] only. *)
Definition handle_text (text : string) : Prop :=
  Forall (fun ch => handle_char ch = true) (list_ascii_of_string text).

Definition digit_char (ch : ascii) : bool :=
  let n := N_of_ascii ch in (N.leb 48 n && N.leb n 57)%bool.

Definition digits_text (text : string) : Prop :=
  Forall (fun ch => digit_char ch = true) (list_ascii_of_string text).

Definition item_exists (d : db) (i : uuid) : bool :=
  existsb (fun r => String.eqb (Items.id r) i) (items d).

(** The [REFERENCES] clauses of the five tables. *)
Definition referential_integrity (d : db) : Prop :=
  Forall (fun p => user_exists d (Profiles.id p) = true) (profiles d) /\
  Forall (fun i => user_exists d (Items.user_id i) = true) (items d) /\
  Forall (fun c => item_exists d (Claims.item_id c) = true
                   /\ user_exists d (Claims.claimant_id c) = true) (claims d) /\
  Forall (fun n => user_exists d (Notifications.user_id n) = true) (notifications d) /\
  Forall (fun m => user_exists d (Messages.sender_id m) = true
                   /\ user_exists d (Messages.recipient_id m) = true
                   /\ item_exists d (Messages.item_id m) = true) (messages d).

(** How often the key [k] occurs in a table, for a unique index on the
    column [key]. *)
Definition key_count {A K : Type} (key : A -> K) (same : K -> K -> bool) (k : K)
    (l : list A) : nat :=
  List.length (filter (fun x => same (key x) k) l).

(** The [PRIMARY KEY] clauses. *)
Definition primary_keys (d : db) : Prop :=
  NoDup (map Users.id (users d)) /\
  NoDup (map Profiles.id (profiles d)) /\
  NoDup (map Items.id (items d)) /\
  NoDup (map Claims.id (claims d)) /\
  NoDup (map Notifications.id (notifications d)) /\
  NoDup (map Messages.id (messages d)).

(** ** Tables without a DELETE policy

    Row-level security is enabled on profiles, notifications and messages
    and no policy names [DELETE] for them (the two [FOR ALL] policies are on
    items and claims): a [DELETE] through the data API finds no row it may
    remove, and reports no error. *)

Definition profiles_delete (c : caller) (r : Profiles.row) : bool := false.
Definition notifications_delete (c : caller) (r : Notifications.row) : bool := false.
Definition messages_delete (c : caller) (r : Messages.row) : bool := false.

(** [DELETE FROM messages WHERE ...] *)
Definition delete_messages (c : caller) (where_ : Messages.row -> bool) (d : db) : result db :=
  let hit r := where_ r && messages_select c r && messages_delete c r in
  Ok (set_messages d (filter (fun r => negb (hit r)) (messages d))).

(** [DELETE FROM notifications WHERE ...] *)
Definition delete_notifications
    (c : caller) (where_ : Notifications.row -> bool) (d : db) : result db :=
  let hit r := where_ r && notifications_select c r && notifications_delete c r in
  Ok (set_notifications d (filter (fun r => negb (hit r)) (notifications d))).

(** [DELETE FROM profiles WHERE ...] ("Users can view all profiles" lets
    every row be read). *)
Definition delete_profiles (c : caller) (where_ : Profiles.row -> bool) (d : db) : result db :=
  let hit r := where_ r && profiles_delete c r in
  Ok (set_profiles d (filter (fun r => negb (hit r)) (profiles d))).

(** ** More client data access *)

(** [deleteUser] of the admin users table.  [confirmed] is the answer to
    the confirmation dialog.  Errors of the claims, messages and
    notifications requests are logged and the sequence goes on; errors of
    the items and profile requests abort it. *)
Definition deleteUser
    (c : caller) (confirmed : bool) (userId : uuid)
    (fault_claims fault_items fault_messages fault_notifications fault_profile : bool)
    (d : db) : db * toast :=
  if negb confirmed then (d, NoToast)
  else
    (* First, delete claims where this user is the claimant *)
    let d1 :=
      match call fault_claims
              (delete_claims c (fun r => String.eqb (Claims.claimant_id r) userId) d) with
      | Ok d' => d'
      | Err _ => d
      end in
    (* Delete user's items *)
    match call fault_items
            (delete_items c (fun r => String.eqb (Items.user_id r) userId) d1) with
    | Err _ => (d1, ToastError)
    | Ok d2 =>
        (* Delete user's messages *)
        let d3 :=
          match call fault_messages
                  (delete_messages c
                     (fun r => String.eqb (Messages.sender_id r) userId
                               || String.eqb (Messages.recipient_id r) userId) d2) with
          | Ok d' => d'
          | Err _ => d2
          end in
        (* Delete user's notifications *)
        let d4 :=
          match call fault_notifications
                  (delete_notifications c
                     (fun r => String.eqb (Notifications.user_id r) userId) d3) with
          | Ok d' => d'
          | Err _ => d3
          end in
        (* Finally delete the user profile *)
        match call fault_profile
                (delete_profiles c (fun r => String.eqb (Profiles.id r) userId) d4) with
        | Err _ => (d4, ToastError)
        | Ok d5 => (d5, ToastSuccess)
        end
    end.

(** [handleSave] of the profile page: the update writes username,
    full_name and avatar_url of the caller's own row. *)
Definition handleSave
    (usr : option uuid) (username fullName avatarUrl : string) (fault : bool) (d : db)
  : db * toast :=
  match usr with
  | None => (d, NoToast)
  | Some user_id =>
      match call fault
              (update_profiles usr user_id
                 (mk_profiles_patch (Some username) (Some (Some fullName)) None
                    (Some (Some avatarUrl))) d) with
      | Err _ => (d, ToastError)
      | Ok d1 => (d1, ToastSuccess)
      end
  end.

(** The notifications page keeps the fetched rows in its state; the item
    titles joined to them are not touched by the two functions below. *)
Definition notifications_page : Type := (db * list Notifications.row)%type.

(** [{ ...notification, read: true }] *)
Definition with_read_true (r : Notifications.row) : Notifications.row :=
  Notifications.mk (Notifications.id r) (Notifications.user_id r) (Notifications.type r)
    (Notifications.title r) (Notifications.message r) true (Notifications.created_at r).

(** The rows [fetchNotifications] asks for: [.eq('user_id', user?.id)],
    before ordering. *)
Definition own_notifications (c : caller) (d : db) : list Notifications.row :=
  filter (fun r => uid_is c (Notifications.user_id r) && notifications_select c r)
         (notifications d).

(** [markAsRead] and [markAllAsRead] of the notifications page, for the
    signed-in user [usr]; an error is logged and the state kept. *)
Definition markAsRead
    (c : caller) (notificationId : uuid) (fault : bool) (st : notifications_page)
  : notifications_page :=
  let (d, prev) := st in
  match call fault
          (mark_notifications_read c
             (fun r => String.eqb (Notifications.id r) notificationId) d) with
  | Ok d1 =>
      (d1, map (fun notification =>
                  if String.eqb (Notifications.id notification) notificationId
                  then with_read_true notification else notification) prev)
  | Err _ => (d, prev)
  end.

Definition markAllAsRead (usr : uuid) (fault : bool) (st : notifications_page)
  : notifications_page :=
  let (d, prev) := st in
  match call fault
          (mark_notifications_read (Some usr)
             (fun r => String.eqb (Notifications.user_id r) usr
                       && negb (Notifications.read r)) d)
  with
  | Ok d1 => (d1, map with_read_true prev)
  | Err _ => (d, prev)
  end.

(** [notifications.filter(n => !n.read).length] *)
Definition unreadCount (notifications : list Notifications.row) : nat :=
  List.length (filter (fun n => negb (Notifications.read n)) notifications).

(** [markConversationAsRead] of the messages page: one update for the
    unread messages of the conversation that are addressed to the caller,
    no request when there is none. *)
Definition unreadMessageIds (usr : uuid) (conversation : Conversation.t) : list uuid :=
  map (fun msg => Messages.id (row_of msg))
      (filter (fun msg => unread_for usr (row_of msg)) (Conversation.messages conversation)).

Definition markConversationAsRead
    (usr : uuid) (conversation : Conversation.t) (fault : bool) (d : db) : db :=
  match unreadMessageIds usr conversation with
  | [] => d
  | _ =>
      match call fault (mark_messages_read (Some usr) (unreadMessageIds usr conversation) d) with
      | Ok d1 => d1
      | Err _ => d
      end
  end.

(** [String.prototype.trim]: white space and line terminators removed at
    both ends (tab, line feed, vertical tab, form feed, carriage return,
    space, no-break space, among the characters a [string] holds). *)
Definition js_space (ch : ascii) : bool :=
  let n := N_of_ascii ch in
  ((N.leb 9 n && N.leb n 13) || N.eqb n 32 || N.eqb n 160)%bool.

Fixpoint trim_start (s : string) : string :=
  match s with
  | String ch s' => if js_space ch then trim_start s' else s
  | EmptyString => EmptyString
  end.

Fixpoint trim_end (s : string) : string :=
  match s with
  | String ch s' =>
      match trim_end s' with
      | EmptyString => if js_space ch then EmptyString else String ch EmptyString
      | t => String ch t
      end
  | EmptyString => EmptyString
  end.

Definition js_trim (s : string) : string := trim_start (trim_end s).

(** [handleSendMessage] of the contact dialog. *)
Definition handleSendMessage
    (usr : option uuid) (ownerUserId itemId : uuid) (message : string)
    (now : timestamptz) (new_id notif_id : uuid) (fault : bool) (d : db) : db * toast :=
  if negb (truthy (js_trim message)) then (d, ToastError)
  else
    match usr with
    | None => (d, ToastError)
    | Some user_id =>
        match call fault
                (insert_message usr now new_id notif_id user_id ownerUserId itemId
                   (js_trim message) d) with
        | Err _ => (d, ToastError)
        | Ok d1 => (d1, ToastSuccess)
        end
    end.

(** [handleReply] of the messages page; without a session the insert
    carries no sender and is rejected. *)
Definition handleReply
    (usr : option uuid) (selectedConversation : option Conversation.t) (replyMessage : string)
    (now : timestamptz) (new_id notif_id : uuid) (fault : bool) (d : db) : db * toast :=
  match selectedConversation with
  | None => (d, ToastError)
  | Some conversation =>
      if negb (truthy (js_trim replyMessage)) then (d, ToastError)
      else
        match usr with
        | None => (d, ToastError)
        | Some user_id =>
            match call fault
                    (insert_message usr now new_id notif_id user_id
                       (Conversation.other_user_id conversation)
                       (Conversation.item_id conversation)
                       (js_trim replyMessage) d) with
            | Err _ => (d, ToastError)
            | Ok d1 => (d1, ToastSuccess)
            end
        end
  end.

(** [createAdminClaim] of the admin page:
    [prompt(...) || 'Admin claim verification']. *)
Definition createAdminClaim
    (usr : option uuid) (itemId : uuid) (prompted : option string)
    (now : timestamptz) (claim_id : uuid) (fault : bool) (d : db) : db * toast :=
  match usr with
  | None => (d, NoToast)
  | Some user_id =>
      let message := or_default prompted "Admin claim verification" in
      match call fault
              (insert_claim usr (Claims.mk claim_id itemId user_id message (Some pending) now now)
                 d) with
      | Err _ => (d, ToastError)
      | Ok d1 => (d1, ToastSuccess)
      end
  end.

(** [{ read: true }] written to a message row. *)
Definition message_with_read_true (r : Messages.row) : Messages.row :=
  Messages.mk (Messages.id r) (Messages.sender_id r) (Messages.recipient_id r)
    (Messages.item_id r) (Messages.message r) true (Messages.created_at r)
    (Messages.updated_at r).

(** The sum of a quantity over the conversations of a map. *)
Definition map_total (w : Conversation.t -> nat) (m : conversation_map) : nat :=
  list_sum (map (fun e => w (snd e)) m).

(** A text of white space only. *)
Definition blank (s : string) : bool := forallb js_space (list_ascii_of_string s).

(** [body] is [s] without the white space at its two ends. *)
Definition trimmed_of (s body : string) : Prop :=
  exists pre post,
    s = (pre ++ body ++ post)%string /\ blank pre = true /\ blank post = true /\
    (forall ch t, body = String ch t -> js_space ch = false) /\
    (forall t ch, body = (t ++ String ch EmptyString)%string -> js_space ch = false).

(** ** JavaScript collections

    [new Set(xs)] keeps the first occurrence of each value, in insertion
    order; a [Map] keeps its keys in insertion order and [set] on a present
    key replaces the value in place. *)

Definition Set_add (x : string) (s : list string) : list string :=
  if existsb (String.eqb x) s then s else (s ++ [x])%list.

(** [[...new Set(xs)]] *)
Definition new_Set (xs : list string) : list string :=
  fold_left (fun s x => Set_add x s) xs [].

Definition Map_has {V : Type} (key : string) (m : list (string * V)) : bool :=
  existsb (fun e => String.eqb (fst e) key) m.

Fixpoint Map_replace {V : Type} (key : string) (v : V) (m : list (string * V))
  : list (string * V) :=
  match m with
  | [] => []
  | (k, w) :: m' => if String.eqb k key then (k, v) :: m' else (k, w) :: Map_replace key v m'
  end.

Definition Map_set {V : Type} (key : string) (v : V) (m : list (string * V))
  : list (string * V) :=
  if Map_has key m then Map_replace key v m else (m ++ [(key, v)])%list.

Definition Map_get {V : Type} (key : string) (m : list (string * V)) : option V :=
  option_map snd (find (fun e => String.eqb (fst e) key) m).

(** [.in('id', ids)] *)
Definition in_list (ids : list uuid) (x : uuid) : bool := existsb (String.eqb x) ids.

(** ** The claims table of the admin page: [fetchClaims] *)

Record ClaimItemDetails : Type := mk_item_details {
  details_title : string;
  details_type : item_type
}.

Record ClaimWithDetails : Type := mk_claim_with_details {
  claim_row : Claims.row;
  claim_items : option ClaimItemDetails;
  claim_profiles : option string   (* { username } *)
}.

Definition itemIds (claimsData : list Claims.row) : list uuid :=
  new_Set (map Claims.item_id claimsData).

Definition userIds (claimsData : list Claims.row) : list uuid :=
  new_Set (map Claims.claimant_id claimsData).

(** The client side of [fetchClaims], from the three responses ([None] for
    a request that failed) and the claims the component holds to the claims
    it holds afterwards. *)
Definition fetchClaims
    (claimsData : option (list Claims.row))
    (itemsData : option (list Items.row)) (profilesData : option (list Profiles.row))
    (prev : list ClaimWithDetails) : list ClaimWithDetails :=
  match claimsData with
  | None => prev
  | Some [] => []
  | Some claimsData =>
      let itemsMap :=
        match itemsData with
        | Some l =>
            fold_left (fun m item =>
                         Map_set (Items.id item)
                           (mk_item_details (Items.title item) (Items.type item)) m) l []
        | None => []
        end in
      let profilesMap :=
        match profilesData with
        | Some l =>
            fold_left (fun m profile =>
                         Map_set (Profiles.id profile) (Profiles.username profile) m) l []
        | None => []
        end in
      map (fun claim =>
             mk_claim_with_details claim
               (Map_get (Claims.item_id claim) itemsMap)
               (Map_get (Claims.claimant_id claim) profilesMap))
          claimsData
  end.

(** The three requests of [fetchClaims] against the database: each
    response holds the rows the caller may read that match the filter, in
    an order the backend chooses. *)
Definition claims_response (c : caller) (d : db) (claimsData : list Claims.row) : Prop :=
  Permutation claimsData (select_claims c (fun _ => true) d).

Definition items_response (c : caller) (d : db) (ids : list uuid) (itemsData : list Items.row)
  : Prop :=
  Permutation itemsData (select_items c (fun r => in_list ids (Items.id r)) d).

Definition profiles_response (d : db) (ids : list uuid) (profilesData : list Profiles.row)
  : Prop :=
  Permutation profilesData (filter (fun r => in_list ids (Profiles.id r)) (profiles d)).

(** ** The dashboard: [fetchUserStats]

    [count: 'exact', head: true] counts the rows the caller may read that
    match the filter; a failed request leaves the count null. *)
Definition fetchUserStats (usr : uuid) (fault_items fault_claims : bool) (d : db)
  : nat * nat :=
  let itemsCount :=
    match call fault_items
            (Ok (List.length (select_items (Some usr)
                                (fun r => String.eqb (Items.user_id r) usr) d))) with
    | Ok n => n
    | Err _ => 0%nat
    end in
  let claimsCount :=
    match call fault_claims
            (Ok (List.length (select_claims (Some usr)
                                (fun r => String.eqb (Claims.claimant_id r) usr) d))) with
    | Ok n => n
    | Err _ => 0%nat
    end in
  (itemsCount, claimsCount).

(** ** The admin page: the item counts of [fetchAdminData] *)

Record item_stats : Type := mk_item_stats {
  totalItems : nat;
  activeItems : nat;
  claimedItems : nat;
  archivedItems : nat
}.

Definition itemStats (validItems : list Items.row) : item_stats :=
  mk_item_stats
    (List.length validItems)
    (List.length (filter (fun item => status_is item active) validItems))
    (List.length (filter (fun item => status_is item claimed) validItems))
    (List.length (filter (fun item => status_is item archived) validItems)).

(** ** The report form: tags and the image path *)

(** The state [addTag] and [removeTag] work on. *)
Record tag_form : Type := mk_tag_form {
  form_tags : list string;
  currentTag : string
}.

Definition addTag (f : tag_form) : tag_form :=
  if truthy (js_trim (currentTag f))
     && negb (existsb (String.eqb (js_trim (currentTag f))) (form_tags f))
  then mk_tag_form (form_tags f ++ [js_trim (currentTag f)])%list EmptyString
  else f.

Definition removeTag (tagToRemove : string) (f : tag_form) : tag_form :=
  mk_tag_form (filter (fun tag => negb (String.eqb tag tagToRemove)) (form_tags f))
              (currentTag f).

(** What the user does with the tag field. *)
Inductive tag_event : Type :=
| TypeTag (text : string)
| AddTag
| RemoveTag (tagToRemove : string).

Definition tag_step (f : tag_form) (e : tag_event) : tag_form :=
  match e with
  | TypeTag text => mk_tag_form (form_tags f) text
  | AddTag => addTag f
  | RemoveTag t => removeTag t f
  end.

(** [name.split('.').pop()] *)
Definition fileExt (file_name : string) : string :=
  last (split_on "." file_name) EmptyString.

(** [`${user.id}/${Date.now()}.${fileExt}`] of [uploadImage] *)
Definition item_image_name (user_id : uuid) (now : Z) (file_name : string) : string :=
  user_id ++ "/" ++ text_of_int now ++ "." ++ fileExt file_name.

(** [`${user?.id}-${Date.now()}.${fileExt}`] of the avatar upload, for a
    signed-in user. *)
Definition avatar_name (user_id : uuid) (now : Z) (file_name : string) : string :=
  user_id ++ "-" ++ text_of_int now ++ "." ++ fileExt file_name.

Definition no_slash (s : string) : bool :=
  forallb (fun ch => negb (Ascii.eqb ch "/")) (list_ascii_of_string s).

(** ** The items page: [filteredItems] and [categories] *)

(** [s.includes(t)] *)
Fixpoint js_includes (s t : string) : bool :=
  String.prefix t s
  || match s with
     | String _ s' => js_includes s' t
     | EmptyString => false
     end.

Definition item_type_eqb (a b : item_type) : bool :=
  match a, b with lost, lost | found, found => true | _, _ => false end.

(** [toLowerCase] is a parameter: the case mapping is the engine's. *)
Definition filteredItems
    (toLowerCase : string -> string) (items : list Items.row)
    (searchTerm : string) (typeFilter : option item_type) (categoryFilter : string)
  : list Items.row :=
  filter
    (fun item =>
       let matchesSearch :=
         js_includes (toLowerCase (Items.title item)) (toLowerCase searchTerm)
         || js_includes (toLowerCase (Items.description item)) (toLowerCase searchTerm)
         || js_includes (toLowerCase (Items.location item)) (toLowerCase searchTerm) in
       let matchesType :=
         match typeFilter with
         | None => true
         | Some t => item_type_eqb (Items.type item) t
         end in
       let matchesCategory :=
         String.eqb categoryFilter "all" || String.eqb (Items.category item) categoryFilter in
       matchesSearch && matchesType && matchesCategory)
    items.

Definition categories (items : list Items.row) : list string :=
  new_Set (map Items.category items).

(** ** The item page: [fetchItem]

    [.single()] is an error unless exactly one readable row matches; the
    profile is asked for only when the item was found. *)
Definition fetchItem (c : caller) (id : uuid) (fault_item fault_profile : bool) (d : db)
  : option (Items.row * option Profiles.row) :=
  match (if fault_item then None
         else single (select_items c (fun r => String.eqb (Items.id r) id) d)) with
  | None => None
  | Some itemData =>
      let profileData :=
        if truthy (Items.user_id itemData)
        then if fault_profile then None
             else single (filter (fun p => String.eqb (Profiles.id p) (Items.user_id itemData))
                                 (profiles d))
        else None in
      Some (itemData, profileData)
  end.

(** ** The layout: [fetchUnreadNotifications]

    The badge keeps its number when the request fails. *)
Definition fetchUnreadNotifications (usr : uuid) (fault : bool) (d : db) (prev : nat) : nat :=
  if fault then prev
  else List.length
         (filter (fun r => String.eqb (Notifications.user_id r) usr
                           && negb (Notifications.read r)
                           && notifications_select (Some usr) r)
                 (notifications d)).

(** ** More sample data *)

Definition dave : uuid := "00000000-0000-4000-8000-00000000000d".

(** Dave asks for a handle that is taken. *)
Definition dave_account : Users.row :=
  Users.mk dave "dave@example.com" (Some "Alice!") None.

Definition bob_profile : Profiles.row :=
  Profiles.mk bob "bob" (Some "Bob B.") (Some user) None 2 2.

(** The conversation of Alice with Bob about the backpack, as
    [fetchConversations] builds it from [chat]. *)
Definition backpack_conversation : Conversation.t :=
  nth 1 (fetchConversations alice chat [] [])
      (Conversation.mk EmptyString EmptyString EmptyString EmptyString None [] 0 0%nat).

(** ** The notifications page: [fetchNotifications] *)

Record EnhancedNotification : Type := mk_enhanced {
  notification_row : Notifications.row;
  notification_items : option item_ref
}.

(** A row of [select('item_id, created_at')] on messages. *)
Record message_ref : Type := mk_message_ref {
  mref_item_id : uuid;
  mref_created_at : timestamptz
}.

(** Within 5 seconds *)
Definition within_5_seconds (notification : Notifications.row) (msg : message_ref) : bool :=
  (getTime (Notifications.created_at notification) - 5000 <=? getTime (mref_created_at msg))
  && (getTime (mref_created_at msg) <=? getTime (Notifications.created_at notification) + 5000).

(** The client side of [fetchNotifications], from the three responses
    ([None] for a request that gave no data) and the notifications the page
    holds to the notifications it holds afterwards. *)
Definition fetchNotifications
    (notificationsData : option (list Notifications.row))
    (messagesData : option (list message_ref)) (itemsData : option (list item_ref))
    (prev : list EnhancedNotification) : list EnhancedNotification :=
  match notificationsData with
  | None => prev
  | Some notificationsData =>
      let plain := map (fun n => mk_enhanced n None) notificationsData in
      let messageNotifications :=
        filter (fun n => String.eqb (Notifications.type n) "message") notificationsData in
      match messageNotifications, messagesData with
      | _ :: _, Some ((_ :: _) as messagesData) =>
          map (fun notification =>
                 match String.eqb (Notifications.type notification) "message", itemsData with
                 | true, Some itemsData =>
                     match find (within_5_seconds notification) messagesData with
                     | Some relatedMessage =>
                         mk_enhanced notification
                           (find (fun item => String.eqb (ref_id item)
                                                (mref_item_id relatedMessage))
                                 itemsData)
                     | None => mk_enhanced notification None
                     end
                 | _, _ => mk_enhanced notification None
                 end)
              notificationsData
      | _, _ => plain
      end
  end.

(** * Properties *)

(** ** Generic facts *)

Ltac inv H := inversion H; subst; clear H.

(** Splits the guards of a statement that succeeded. *)
Ltac unguard H :=
  unfold bind, guard in H;
  repeat match type of H with
         | context [if ?b then _ else _] => destruct b eqn:?; try discriminate H
         end.

Lemma string_app_assoc (a b c : string) : ((a ++ b) ++ c = a ++ (b ++ c))%string.
Proof. induction a as [|x a IH]; simpl; [reflexivity | now rewrite IH]. Qed.

Lemma string_app_nil_r (a : string) : (a ++ EmptyString)%string = a.
Proof. induction a as [|x a IH]; simpl; [reflexivity | now rewrite IH]. Qed.

Lemma string_app_inv_head (a b c : string) : (a ++ b = a ++ c)%string -> b = c.
Proof. induction a as [|x a IH]; simpl; intros H; [exact H | inv H; auto]. Qed.

(** ** C1: the message trigger *)

Lemma titled_body_includes_title (t : string) : includes t (titled_message_body t).
Proof.
  unfold titled_message_body.
  exists ("You have received a new message about " ++ dquote)%string, dquote.
  now rewrite string_app_assoc.
Qed.

Lemma create_message_notification_appends now notif_id NEW d d' :
  create_message_notification now notif_id NEW d = Ok d' ->
  exists n,
    d' = set_notifications d (notifications d ++ [n])%list /\
    Notifications.user_id n = Messages.recipient_id NEW /\
    Notifications.type n = "message" /\
    Notifications.read n = false /\
    Notifications.message n =
      match find_item d (Messages.item_id NEW) with
      | Some it => titled_message_body (Items.title it)
      | None => generic_message_body
      end.
Proof.
  unfold create_message_notification, insert_notification_row. intros H.
  unguard H. inv H. eexists. split; [reflexivity|]. simpl.
  repeat split. now destruct (find_item d (Messages.item_id NEW)).
Qed.

(** C1. Every message insert that succeeds adds, in the same statement,
    exactly one notification row: it is addressed to the message's
    recipient, has type 'message', and its body contains the title of the
    referenced item.  The trigger function itself falls back to the generic
    body when no item has the referenced id. *)
Theorem message_insert_creates_one_notification :
  (forall c now new_id notif_id sender recipient item body d d',
      insert_message c now new_id notif_id sender recipient item body d = Ok d' ->
      exists n it,
        messages d' =
          (messages d ++ [Messages.mk new_id sender recipient item body false now now])%list /\
        notifications d' = (notifications d ++ [n])%list /\
        Notifications.user_id n = recipient /\
        Notifications.type n = "message" /\
        find_item d item = Some it /\
        Notifications.message n = titled_message_body (Items.title it) /\
        includes (Items.title it) (Notifications.message n)) /\
  (forall now notif_id NEW d d',
      create_message_notification now notif_id NEW d = Ok d' ->
      exists n,
        notifications d' = (notifications d ++ [n])%list /\
        messages d' = messages d /\
        Notifications.user_id n = Messages.recipient_id NEW /\
        Notifications.type n = "message" /\
        match find_item d (Messages.item_id NEW) with
        | Some it => Notifications.message n = titled_message_body (Items.title it)
                     /\ includes (Items.title it) (Notifications.message n)
        | None => Notifications.message n = generic_message_body
        end).
Proof.
  split.
  - intros c now new_id notif_id sender recipient item body d d' H.
    unfold insert_message in H. unguard H.
    destruct (find_item d item) as [it|] eqn:Hit; [|discriminate].
    apply create_message_notification_appends in H.
    destruct H as (n & -> & Hu & Ht & _ & Hm).
    exists n, it. simpl in *.
    change (find_item (set_messages d _) item) with (find_item d item) in Hm.
    rewrite Hit in Hm. repeat split; auto.
    rewrite Hm. apply titled_body_includes_title.
  - intros now notif_id NEW d d' H.
    apply create_message_notification_appends in H.
    destruct H as (n & -> & Hu & Ht & _ & Hm).
    exists n. simpl. repeat split; auto.
    destruct (find_item d (Messages.item_id NEW)); [split|]; auto.
    rewrite Hm. apply titled_body_includes_title.
Qed.

(** ** C2, C9: the profile trigger *)

Lemma text_of_int_parse (z : Z) :
  NilZero.int_of_string (text_of_int z) = Some (Z.to_int z).
Proof.
  unfold text_of_int. apply NilZero.isi; destruct z; simpl; try discriminate;
    intros H; inv H; eapply Unsigned.to_uint_nonnil; eauto.
Qed.

Lemma text_of_int_inj (a b : Z) : text_of_int a = text_of_int b -> a = b.
Proof.
  intros H. apply DecimalZ.to_int_inj.
  pose proof (text_of_int_parse a) as Ha. rewrite H, text_of_int_parse in Ha.
  now inv Ha.
Qed.

Lemma text_of_int_nonempty (z : Z) : text_of_int z <> EmptyString.
Proof.
  intros H. pose proof (text_of_int_parse z) as Hz. rewrite H in Hz. discriminate.
Qed.

Lemma candidate_inj (base : string) (i j : Z) :
  candidate base i = candidate base j -> i = j.
Proof.
  unfold candidate.
  destruct (Z.eqb_spec i 0) as [->|Hi], (Z.eqb_spec j 0) as [->|Hj]; intros H; auto.
  - rewrite <- (string_app_nil_r base) in H at 1.
    apply string_app_inv_head in H. symmetry in H. now apply text_of_int_nonempty in H.
  - rewrite <- (string_app_nil_r base) in H at 2.
    apply string_app_inv_head in H. now apply text_of_int_nonempty in H.
  - apply string_app_inv_head in H. now apply text_of_int_inj.
Qed.

Lemma candidate_succ (base : string) (k : Z) :
  1 <= k -> (base ++ text_of_int k)%string = candidate base k.
Proof. intros H. unfold candidate. destruct (Z.eqb_spec k 0); [lia | reflexivity]. Qed.

(** What the loop returns, entered at the [k]-th candidate. *)
Lemma unique_loop_spec (d : db) (base : string) :
  forall fuel k,
    0 <= k < int4_max ->
    match unique_loop fuel d base (candidate base k) (k + 1) with
    | None =>
        forall j, k <= j < k + Z.of_nat fuel -> username_taken d (candidate base j) = true
    | Some (Ok f) =>
        exists j, k <= j < int4_max /\ f = candidate base j /\
                  username_taken d f = false /\
                  forall i, k <= i < j -> username_taken d (candidate base i) = true
    | Some (Err e) =>
        e = integer_out_of_range /\
        forall j, k <= j < int4_max -> username_taken d (candidate base j) = true
    end.
Proof.
  induction fuel as [|fuel IH]; intros k Hk.
  - simpl. intros j Hj. lia.
  - cbn [unique_loop].
    destruct (username_taken d (candidate base k)) eqn:Htaken.
    + destruct (Z.eqb_spec (k + 1) int4_max) as [Hmax|Hmax].
      * split; [reflexivity|]. intros j Hj. assert (j = k) as -> by lia. exact Htaken.
      * rewrite candidate_succ by lia.
        specialize (IH (k + 1)). 
        destruct (unique_loop fuel d base (candidate base (k + 1)) (k + 1 + 1))
          as [[f|e]|].
        -- destruct IH as (j & Hj & Hf & Hfree & Hbelow); [lia|].
           exists j. repeat split; try lia; auto.
           intros i Hi. destruct (Z.eq_dec i k) as [->|]; [exact Htaken | apply Hbelow; lia].
        -- destruct IH as (He & Hall); [lia|]. split; [exact He|].
           intros j Hj. destruct (Z.eq_dec j k) as [->|]; [exact Htaken | apply Hall; lia].
        -- intros j Hj. destruct (Z.eq_dec j k) as [->|]; [exact Htaken|].
           apply IH; lia.
    + exists k. repeat split; try lia; auto.
Qed.

Lemma username_taken_In (d : db) (s : string) :
  username_taken d s = true -> In s (map Profiles.username (profiles d)).
Proof.
  unfold username_taken. rewrite existsb_exists. intros (p & Hp & He).
  apply String.eqb_eq in He. subst. now apply in_map.
Qed.

(** No more candidates can be taken than there are profile rows. *)
Lemma candidates_pigeonhole (d : db) (base : string) (n : nat) :
  (forall j, 0 <= j < Z.of_nat n -> username_taken d (candidate base j) = true) ->
  (n <= List.length (profiles d))%nat.
Proof.
  intros H.
  set (tried := map (fun i => candidate base (Z.of_nat i)) (seq 0 n)).
  assert (Hnd : NoDup tried).
  { apply Injective_map_NoDup_in; [|apply seq_NoDup].
    intros x y _ _ Hxy. apply candidate_inj in Hxy. lia. }
  assert (Hincl : incl tried (map Profiles.username (profiles d))).
  { intros s Hs. apply in_map_iff in Hs. destruct Hs as (i & <- & Hi).
    apply in_seq in Hi. apply username_taken_In, H. lia. }
  pose proof (NoDup_incl_length Hnd Hincl) as Hlen.
  unfold tried in Hlen. now rewrite !length_map, length_seq in Hlen.
Qed.

(** The iteration budget of [final_username] is never exhausted. *)
Lemma unique_loop_budget (d : db) (base : string) :
  unique_loop (S (List.length (profiles d))) d base base 1 <> None.
Proof.
  intros Hnone.
  pose proof (@unique_loop_spec d base (S (List.length (profiles d))) 0) as H.
  change (candidate base 0) with base in H. change (0 + 1) with 1 in H.
  rewrite Hnone in H.
  assert (Hle := @candidates_pigeonhole d base (S (List.length (profiles d)))).
  assert (0 <= 0 < int4_max) as H0 by (unfold int4_max; lia).
  specialize (H H0). 
  assert (S (List.length (profiles d)) <= List.length (profiles d))%nat; [|lia].
  apply Hle. intros j Hj. apply H. lia.
Qed.

Lemma final_username_spec (d : db) (base : string) :
  match final_username d base with
  | Ok f =>
      exists j, 0 <= j < int4_max /\ f = candidate base j /\
                username_taken d f = false /\
                forall i, 0 <= i < j -> username_taken d (candidate base i) = true
  | Err e =>
      e = integer_out_of_range /\
      forall j, 0 <= j < int4_max -> username_taken d (candidate base j) = true
  end.
Proof.
  unfold final_username.
  pose proof (@unique_loop_spec d base (S (List.length (profiles d))) 0) as H.
  pose proof (@unique_loop_budget d base) as Hb.
  change (candidate base 0) with base in H. change (0 + 1) with 1 in H.
  assert (0 <= 0 < int4_max) as H0 by (unfold int4_max; lia).
  specialize (H H0).
  destruct (unique_loop (S (List.length (profiles d))) d base base 1) as [[f|e]|];
    [exact H | exact H | congruence].
Qed.

Lemma unique_loop_more_fuel (d : db) (base : string) (r : result string) :
  forall fuel extra final counter,
    unique_loop fuel d base final counter = Some r ->
    unique_loop (fuel + extra) d base final counter = Some r.
Proof.
  induction fuel as [|fuel IH]; intros extra final counter H; [discriminate|].
  cbn [unique_loop Nat.add] in *.
  destruct (username_taken d final); [|exact H].
  destruct (counter =? int4_max); [exact H|]. now apply IH.
Qed.

Lemma list_ascii_of_lower (s : string) :
  list_ascii_of_string (lower s) = map lower_char (list_ascii_of_string s).
Proof. induction s as [|c s IH]; simpl; [reflexivity | now rewrite IH]. Qed.

Lemma list_ascii_of_strip (s : string) :
  list_ascii_of_string (strip_non_handle s) = filter handle_char (list_ascii_of_string s).
Proof.
  induction s as [|c s IH]; simpl; [reflexivity|].
  destruct (handle_char c); simpl; now rewrite IH.
Qed.

Lemma substring_from_1_for_firstn (n : nat) (s : string) :
  substring_from_1_for n s = string_of_list_ascii (firstn n (list_ascii_of_string s)).
Proof.
  revert s. induction n as [|n IH]; intros [|c s]; simpl; try reflexivity.
  now rewrite IH.
Qed.

Lemma coalesce_trimmed (o : option string) (fallback : string) :
  coalesce (nullif_empty (option_map trim o)) fallback =
  match o with
  | Some u => if truthy (trim u) then trim u else fallback
  | None => fallback
  end.
Proof. destruct o as [u|]; simpl; [|reflexivity]. now destruct (trim u). Qed.

(** The code's candidate is the candidate of the specification. *)
Lemma base_username_spec (NEW : Users.row) :
  base_username NEW = spec_candidate (handle_source NEW).
Proof.
  unfold base_username, spec_candidate, handle_source.
  rewrite coalesce_trimmed, substring_from_1_for_firstn, list_ascii_of_strip,
    list_ascii_of_lower.
  destruct (Users.meta_username NEW) as [u|]; reflexivity.
Qed.

Lemma unique_loop_profiles (d1 d2 : db) (base : string) :
  profiles d1 = profiles d2 ->
  forall fuel final counter,
    unique_loop fuel d1 base final counter = unique_loop fuel d2 base final counter.
Proof.
  intros Hp. induction fuel as [|fuel IH]; intros final counter; [reflexivity|].
  cbn [unique_loop]. unfold username_taken. rewrite Hp, IH. reflexivity.
Qed.

Lemma final_username_profiles (d1 d2 : db) (base : string) :
  profiles d1 = profiles d2 -> final_username d1 base = final_username d2 base.
Proof.
  intros Hp. unfold final_username.
  now rewrite (@unique_loop_profiles d1 d2 base Hp), Hp.
Qed.

Lemma sign_up_inv now NEW d d' :
  sign_up now NEW d = Ok d' ->
  exists final,
    final_username d (base_username NEW) = Ok final /\
    d' = mkdb (users d ++ [NEW])%list
           (profiles d ++
              [Profiles.mk (Users.id NEW) final
                 (Some (coalesce (nullif_empty (option_map trim (Users.meta_full_name NEW)))
                                 final))
                 (Some user) None now now])%list
           (items d) (claims d) (notifications d) (messages d).
Proof.
  unfold sign_up, handle_new_user. intros H. unguard H.
  rewrite (@final_username_profiles _ d) in H by reflexivity.
  destruct (final_username d (base_username NEW)) as [final|e] eqn:Hfinal; [|discriminate].
  unfold insert_profile_row in H. unguard H. inv H. exists final. split; reflexivity.
Qed.

Lemma final_username_free (d : db) (base : string) :
  username_taken d base = false -> final_username d base = Ok base.
Proof.
  intros Hfree. unfold final_username. cbn [unique_loop]. now rewrite Hfree.
Qed.

Lemma final_username_first_suffix (d : db) (base : string) :
  profiles d <> [] ->
  username_taken d base = true ->
  username_taken d (base ++ "1") = false ->
  final_username d base = Ok (base ++ "1")%string.
Proof.
  intros Hne Htaken Hfree. unfold final_username.
  destruct (List.length (profiles d)) as [|n] eqn:Hlen.
  { destruct (profiles d); [congruence | discriminate]. }
  cbn [unique_loop]. rewrite Htaken.
  change (1 =? int4_max) with false. change (text_of_int 1) with "1".
  cbv iota. now rewrite Hfree.
Qed.

(** A registration goes through when the id is new and the loop returns a
    name. *)
Lemma sign_up_succeeds now NEW d final :
  unused_id d (Users.id NEW) ->
  final_username d (base_username NEW) = Ok final ->
  username_taken d final = false ->
  sign_up now NEW d =
    Ok (mkdb (users d ++ [NEW])%list
          (profiles d ++
             [Profiles.mk (Users.id NEW) final
                (Some (coalesce (nullif_empty (option_map trim (Users.meta_full_name NEW)))
                                final))
                (Some user) None now now])%list
          (items d) (claims d) (notifications d) (messages d)).
Proof.
  intros [Hu Hp] Hfinal Hfree. unfold sign_up, handle_new_user.
  rewrite Hu. cbn [negb guard bind].
  rewrite (@final_username_profiles _ d) by reflexivity.
  rewrite Hfinal. cbn [bind]. unfold insert_profile_row.
  cbn [profiles Profiles.id Profiles.username]. rewrite Hp.
  unfold username_taken in *. cbn [profiles]. rewrite Hfree.
  unfold user_exists. cbn [users]. rewrite existsb_app. cbn [existsb].
  rewrite String.eqb_refl, orb_true_r. reflexivity.
Qed.

(** C2. The handle of a new profile is the candidate of the specification
    (the metadata username if given, else the email's local part;
    lowercased; characters outside [a-z0-9_] removed; first 20 characters)
    or, when that is taken, the candidate followed by the least of
    1, 2, 3, ... that makes it free; the display name is the given full name
    or else the handle.  Two registrations whose candidate is 'johnsmith'
    receive 'johnsmith' and 'johnsmith1'. *)
Theorem registration_derives_handle :
  (forall now NEW d d',
      sign_up now NEW d = Ok d' ->
      let base := spec_candidate (handle_source NEW) in
      exists p k,
        profiles d' = (profiles d ++ [p])%list /\
        Profiles.id p = Users.id NEW /\
        0 <= k /\
        Profiles.username p = (if k =? 0 then base else base ++ text_of_int k) /\
        (forall i, 1 <= i < k -> username_taken d (base ++ text_of_int i) = true) /\
        (0 < k -> username_taken d base = true) /\
        username_taken d (Profiles.username p) = false /\
        Profiles.full_name p =
          Some (match given_full_name NEW with
                | Some f => f
                | None => Profiles.username p
                end)) /\
  (forall now1 now2 NEW1 NEW2 d,
      spec_candidate (handle_source NEW1) = "johnsmith" ->
      spec_candidate (handle_source NEW2) = "johnsmith" ->
      username_taken d "johnsmith" = false ->
      username_taken d "johnsmith1" = false ->
      unused_id d (Users.id NEW1) ->
      unused_id d (Users.id NEW2) ->
      Users.id NEW1 <> Users.id NEW2 ->
      exists d1 d2 p1 p2,
        sign_up now1 NEW1 d = Ok d1 /\
        sign_up now2 NEW2 d1 = Ok d2 /\
        profiles d2 = (profiles d ++ [p1; p2])%list /\
        Profiles.username p1 = "johnsmith" /\
        Profiles.username p2 = "johnsmith1").
Proof.
  split.
  - intros now NEW d d' H base.
    apply sign_up_inv in H. destruct H as (final & Hfinal & ->).
    pose proof (final_username_spec d (base_username NEW)) as Hspec.
    rewrite Hfinal in Hspec. destruct Hspec as (k & Hk & Hf & Hfree & Hbelow).
    rewrite base_username_spec in Hf, Hbelow. fold base in Hf, Hbelow.
    eexists. exists k. cbn [profiles Profiles.id Profiles.username Profiles.full_name].
    split; [reflexivity|]. split; [reflexivity|]. split; [lia|].
    split; [exact Hf|]. split; [|split; [|split; [exact Hfree|]]].
    + intros i Hi. specialize (Hbelow i). unfold candidate in Hbelow.
      destruct (Z.eqb_spec i 0); [lia|]. apply Hbelow. lia.
    + intros Hpos. apply (Hbelow 0). lia.
    + rewrite coalesce_trimmed. unfold given_full_name.
      destruct (Users.meta_full_name NEW) as [f|]; [|reflexivity].
      now destruct (truthy (trim f)).
  - intros now1 now2 NEW1 NEW2 d H1 H2 Hfree Hfree1 Hid1 Hid2 Hneq.
    rewrite <- base_username_spec in H1, H2.
    assert (Hs1 := @sign_up_succeeds now1 NEW1 d "johnsmith" Hid1).
    rewrite H1 in Hs1. specialize (Hs1 (final_username_free d _ Hfree) Hfree).
    eexists. eexists. eexists. eexists.
    split; [exact Hs1|].
    split.
    + apply sign_up_succeeds with (final := "johnsmith1").
      * destruct Hid2 as [Hu Hp]. split.
        -- unfold user_exists in *. cbn [users]. rewrite existsb_app, Hu. cbn [existsb].
           destruct (String.eqb_spec (Users.id NEW1) (Users.id NEW2)); [contradiction|].
           reflexivity.
        -- cbn [profiles]. rewrite existsb_app, Hp. cbn [existsb Profiles.id].
           destruct (String.eqb_spec (Users.id NEW1) (Users.id NEW2)); [contradiction|].
           reflexivity.
      * rewrite H2. apply (@final_username_first_suffix _ "johnsmith").
        -- cbn [profiles]. now destruct (profiles d).
        -- unfold username_taken. cbn [profiles]. rewrite existsb_app.
           cbn [existsb Profiles.username]. rewrite orb_true_r. reflexivity.
        -- unfold username_taken in *. cbn [profiles]. rewrite existsb_app.
           change ("johnsmith" ++ "1")%string with "johnsmith1". rewrite Hfree1. reflexivity.
      * unfold username_taken in *. cbn [profiles]. rewrite existsb_app, Hfree1. reflexivity.
    + cbn [profiles]. rewrite <- app_assoc. split; [reflexivity|].
      split; reflexivity.
Qed.

(** C9 (as amended). On a profile table of fewer than 2^31 - 1 rows the loop
    of [handle_new_user] stops after finitely many iterations, whatever
    budget of iterations it is given beyond that, and what it returns is a
    handle no existing profile has. *)
Theorem suffix_loop_terminates_with_free_handle :
  forall d base,
    Z.of_nat (List.length (profiles d)) < int4_max ->
    exists final,
      final_username d base = Ok final /\
      username_taken d final = false /\
      ~ In final (map Profiles.username (profiles d)) /\
      exists fuel, forall extra,
          unique_loop (fuel + extra) d base base 1 = Some (Ok final).
Proof.
  intros d base Hsmall.
  pose proof (final_username_spec d base) as Hspec.
  destruct (final_username d base) as [final|e] eqn:Hfinal.
  - destruct Hspec as (j & Hj & Hf & Hfree & Hbelow).
    exists final. split; [reflexivity|]. split; [exact Hfree|]. split.
    + intros Hin. apply in_map_iff in Hin. destruct Hin as (p & Hp & Hin).
      unfold username_taken in Hfree.
      assert (existsb (fun q => String.eqb (Profiles.username q) final) (profiles d) = true)
        as Ht; [|congruence].
      apply existsb_exists. exists p. split; [exact Hin|]. now apply String.eqb_eq.
    + exists (S (List.length (profiles d))). intros extra.
      apply unique_loop_more_fuel.
      unfold final_username in Hfinal.
      destruct (unique_loop (S (List.length (profiles d))) d base base 1) as [r|] eqn:Hloop.
      * now subst r.
      * now apply unique_loop_budget in Hloop.
  - exfalso. destruct Hspec as (_ & Hall).
    assert (S (List.length (profiles d)) <= List.length (profiles d))%nat; [|lia].
    apply candidates_pigeonhole with (base := base). intros j Hj. apply Hall. lia.
Qed.

Lemma crowded_taken (base : string) (n : nat) (j : Z) :
  0 <= j <= Z.of_nat n -> username_taken (crowded base n) (candidate base j) = true.
Proof.
  intros Hj. unfold username_taken, crowded, set_profiles. cbn [profiles].
  apply existsb_exists. exists (profile_named (candidate base j)).
  split; [|apply String.eqb_refl].
  apply in_map. unfold candidate. destruct (Z.eqb_spec j 0) as [->|Hnz].
  - now left.
  - right. apply in_map_iff. exists (Z.to_nat j). split.
    + now rewrite Z2Nat.id by lia.
    + apply in_seq. lia.
Qed.

(** On a table that holds 'a' and 'a1' ... 'a2147483646' the counter of the
    loop passes the largest INTEGER: the registration fails. *)
Lemma crowded_registration_raises :
  "a" <> EmptyString /\
  final_username (crowded "a" (Z.to_nat 2147483646)) "a" = Err integer_out_of_range.
Proof.
  split; [discriminate|].
  pose proof (final_username_spec (crowded "a" (Z.to_nat 2147483646)) "a") as Hspec.
  destruct (final_username (crowded "a" (Z.to_nat 2147483646)) "a") as [final|e].
  - exfalso. destruct Hspec as (j & Hj & Hf & Hfree & _).
    rewrite Hf, crowded_taken in Hfree; [discriminate|].
    unfold int4_max in Hj. lia.
  - destruct Hspec as [-> _]. reflexivity.
Qed.

(** ** C5: who may read an item *)

(** The owner of a claimed item, not being an admin, cannot read it. *)
Lemma owner_cannot_read_own_claimed_item :
  In lost_umbrella (items sample_db) /\
  Some alice = Some (Items.user_id lost_umbrella) /\
  items_select sample_db (Some alice) lost_umbrella = false /\
  select_items (Some alice) (fun r => String.eqb (Items.user_id r) alice) sample_db
  = [blue_backpack].
Proof.
  split; [simpl; auto|]. split; [reflexivity|]. split; vm_compute; reflexivity.
Qed.

Lemma is_admin_iff (d : db) (c : caller) :
  is_admin d c = true <-> get_user_role d c = Some admin.
Proof.
  unfold is_admin. destruct (get_user_role d c) as [[|]|]; simpl; split; congruence.
Qed.

Lemma status_is_iff (r : Items.row) (s : item_status) :
  status_is r s = true <-> Items.status r = Some s.
Proof.
  unfold status_is. destruct (Items.status r) as [v|]; [|split; discriminate].
  destruct v, s; simpl; split; congruence.
Qed.

(** C5 (as amended). A caller may read an item row if and only if the row's
    status is active or the caller is an admin; being the owner gives no
    read access.  The rows a select returns are the rows of the table that
    match and that the caller may read. *)
Theorem item_readable_iff_active_or_admin :
  forall d c r,
    (items_select d c r = true <->
     Items.status r = Some active \/ get_user_role d c = Some admin) /\
    (forall where_,
        In r (select_items c where_ d) <->
        In r (items d) /\ where_ r = true /\
        (Items.status r = Some active \/ get_user_role d c = Some admin)).
Proof.
  intros d c r.
  assert (items_select d c r = true <->
          Items.status r = Some active \/ get_user_role d c = Some admin) as Hsel.
  { unfold items_select, anyone_can_view_active_items, admins_can_manage_all_items.
    rewrite orb_true_iff, status_is_iff, is_admin_iff. reflexivity. }
  split; [exact Hsel|].
  intros where_. unfold select_items. rewrite filter_In, andb_true_iff, Hsel. tauto.
Qed.

(** ** C7: storage policies *)

(** An authenticated account may upload an avatar under another account's
    folder. *)
Lemma avatar_upload_ignores_path_prefix :
  objects_insert (Some alice) (mkobj "profile-avatars" (bob ++ "/avatar.png")) = true /\
  hd_error (foldername (bob ++ "/avatar.png")) = Some bob /\
  bob <> alice.
Proof.
  split; [vm_compute; reflexivity|]. split; [vm_compute; reflexivity | discriminate].
Qed.

Lemma uid_is_first_folder_iff (u : uuid) (o : storage_object) :
  uid_is_first_folder (Some u) o = true <-> hd_error (foldername (name o)) = Some u.
Proof.
  unfold uid_is_first_folder. destruct (foldername (name o)) as [|folder rest]; simpl.
  - split; discriminate.
  - rewrite String.eqb_eq. split; [intros -> | intros H; inv H]; reflexivity.
Qed.

(** C7 (as amended). Objects of both buckets can be read by anyone.  In
    item-images an authenticated caller may insert, update or delete an
    object if and only if the first folder of its path is the caller's
    account id.  In profile-avatars the same holds for update and delete,
    while every authenticated caller may insert an object at any path. *)
Theorem storage_write_policies :
  forall (c : caller) (u : uuid) (path : string),
    let image := mkobj "item-images" path in
    let avatar := mkobj "profile-avatars" path in
    let own := hd_error (foldername path) = Some u in
    objects_select c image = true /\
    objects_select c avatar = true /\
    (objects_insert (Some u) image = true <-> own) /\
    (objects_update (Some u) image = true <-> own) /\
    (objects_delete (Some u) image = true <-> own) /\
    (objects_update (Some u) avatar = true <-> own) /\
    (objects_delete (Some u) avatar = true <-> own) /\
    objects_insert (Some u) avatar = true /\
    objects_insert None image = false /\
    objects_insert None avatar = false.
Proof.
  intros c u path image avatar own.
  pose proof (uid_is_first_folder_iff u image) as Hi.
  pose proof (uid_is_first_folder_iff u avatar) as Ha.
  unfold objects_select, objects_insert, objects_update, objects_delete,
    anyone_can_view_item_images, anyone_can_view_profile_avatars,
    users_can_upload_item_images, users_can_upload_profile_avatars,
    users_can_update_own_item_images, users_can_update_own_profile_avatars,
    users_can_delete_own_item_images, users_can_delete_own_profile_avatars.
  cbn [bucket_id image avatar authenticated uid_is_first_folder].
  change ("item-images" =? "item-images")%string with true.
  change ("profile-avatars" =? "profile-avatars")%string with true.
  change ("item-images" =? "profile-avatars")%string with false.
  change ("profile-avatars" =? "item-images")%string with false.
  cbn [andb orb]. rewrite !orb_false_r.
  change (name image) with path in Hi. change (name avatar) with path in Ha.
  repeat split; try tauto; try reflexivity.
Qed.

(** ** C3: one claim per item and claimant *)

Lemma key_eqb_eq (a b : uuid * uuid) : key_eqb a b = true <-> a = b.
Proof.
  destruct a as [a1 a2], b as [b1 b2]. unfold key_eqb. simpl.
  rewrite andb_true_iff, !String.eqb_eq. split; [intros [-> ->] | intros H; inv H]; auto.
Qed.

Lemma key_eqb_refl (a : uuid * uuid) : key_eqb a a = true.
Proof. now apply key_eqb_eq. Qed.

Lemma claim_key_present_In (k : uuid * uuid) (l : list Claims.row) :
  claim_key_present k l = true <-> In k (map claim_key l).
Proof.
  unfold claim_key_present. rewrite existsb_exists, in_map_iff.
  split; intros (r & H1 & H2).
  - exists r. split; [now apply key_eqb_eq | exact H1].
  - exists r. split; [exact H2 | now apply key_eqb_eq].
Qed.

Lemma claim_key_count_zero (k : uuid * uuid) (l : list Claims.row) :
  claim_key_count k l = 0%nat <-> ~ In k (map claim_key l).
Proof.
  unfold claim_key_count. induction l as [|a l IH]; simpl; [tauto|].
  destruct (key_eqb (claim_key a) k) eqn:E; simpl.
  - apply key_eqb_eq in E. split; [discriminate | intros H; exfalso; apply H; now left].
  - rewrite IH. split; [intros H [Ha|Hl] | intros H Hl]; auto.
    subst k. now rewrite key_eqb_refl in E.
Qed.

Lemma claim_key_count_pos (r : Claims.row) (l : list Claims.row) :
  In r l -> (1 <= claim_key_count (claim_key r) l)%nat.
Proof.
  intros Hin. destruct (claim_key_count (claim_key r) l) eqn:E; [|lia].
  apply claim_key_count_zero in E. exfalso. apply E. now apply in_map.
Qed.

(** The unique index, as a count: every key in the table occurs once. *)
Lemma NoDup_keys_count (l : list Claims.row) :
  NoDup (map claim_key l) <-> (forall r, In r l -> claim_key_count (claim_key r) l = 1%nat).
Proof.
  induction l as [|a l IH]; simpl.
  - split; [intros _ r [] | constructor].
  - rewrite NoDup_cons_iff, IH. split.
    + intros [Hnot Hall] r [<-|Hr]; unfold claim_key_count in *; simpl.
      * rewrite key_eqb_refl. simpl. f_equal. now apply claim_key_count_zero.
      * destruct (key_eqb (claim_key a) (claim_key r)) eqn:E; [|now apply Hall].
        apply key_eqb_eq in E. exfalso. apply Hnot. rewrite E. now apply in_map.
    + intros H. assert (Ha := H a (or_introl eq_refl)).
      unfold claim_key_count in Ha. simpl in Ha. rewrite key_eqb_refl in Ha. simpl in Ha.
      assert (~ In (claim_key a) (map claim_key l)) as Hnot.
      { apply claim_key_count_zero. unfold claim_key_count. lia. }
      split; [exact Hnot|]. intros r Hr. specialize (H r (or_intror Hr)).
      unfold claim_key_count in *. simpl in H.
      destruct (key_eqb (claim_key a) (claim_key r)) eqn:E; [|exact H].
      apply key_eqb_eq in E. exfalso. apply Hnot. rewrite E. now apply in_map.
Qed.

Lemma NoDup_keys_filter (f : Claims.row -> bool) (l : list Claims.row) :
  NoDup (map claim_key l) -> NoDup (map claim_key (filter f l)).
Proof.
  induction l as [|a l IH]; simpl; [auto|]. rewrite NoDup_cons_iff. intros [Hnot Hnd].
  destruct (f a); simpl; [|auto]. constructor; [|auto].
  intros Hin. apply Hnot. apply in_map_iff in Hin. destruct Hin as (r & <- & Hr).
  apply filter_In in Hr. apply in_map. tauto.
Qed.

(** Rows rewritten in place keep the index sound when each rewritten key
    occurs once in the new table. *)
Lemma NoDup_keys_rewrite (hit : Claims.row -> bool) (w : Claims.row -> Claims.row)
    (l : list Claims.row) :
  let table := map (fun r => if hit r then w r else r) l in
  NoDup (map claim_key l) ->
  (forall r, In r l -> hit r = true -> claim_key_count (claim_key (w r)) table = 1%nat) ->
  NoDup (map claim_key table).
Proof.
  intros table Hnd Hguard. apply NoDup_keys_count. intros r' Hr'.
  unfold table in Hr'. apply in_map_iff in Hr'. destruct Hr' as (r & <- & Hr).
  destruct (hit r) eqn:Hhit; [now apply Hguard|].
  fold table.
  destruct (existsb (fun x => hit x && key_eqb (claim_key (w x)) (claim_key r)) l) eqn:Hex.
  - apply existsb_exists in Hex. destruct Hex as (x & Hx & Hboth).
    apply andb_true_iff in Hboth. destruct Hboth as [Hhx Hkx]. apply key_eqb_eq in Hkx.
    rewrite <- Hkx. now apply Hguard.
  - assert (claim_key_count (claim_key r) table <= claim_key_count (claim_key r) l)%nat
      as Hle.
    { clear Hr Hnd Hguard Hhit. unfold table, claim_key_count.
      induction l as [|a l IH]; simpl; [lia|]. simpl in Hex.
      apply orb_false_iff in Hex. destruct Hex as [Ha Hl]. specialize (IH Hl).
      destruct (hit a) eqn:Hhita; simpl in Ha.
      - rewrite Ha. destruct (key_eqb (claim_key a) (claim_key r)); simpl; lia.
      - destruct (key_eqb (claim_key a) (claim_key r)); simpl; lia. }
    assert (claim_key_count (claim_key r) l = 1%nat) as H1
      by (now apply NoDup_keys_count).
    assert (In r table) as Hin.
    { unfold table. apply in_map_iff. exists r. now rewrite Hhit. }
    apply claim_key_count_pos in Hin. lia.
Qed.

Lemma update_claims_keeps_index (c : caller) (claim : uuid) (p : claims_patch) (d d' : db) :
  update_claims c claim p d = Ok d' ->
  NoDup (map claim_key (claims d)) -> NoDup (map claim_key (claims d')).
Proof.
  unfold update_claims. intros H Hnd.
  unfold bind, guard in H.
  destruct (forallb _ (claims d)); [|discriminate].
  destruct (touches_claim_key p) eqn:Htouch; cbn [negb orb] in H.
  - destruct (forallb _ (claims d)); [|discriminate].
    destruct (forallb _ (claims d)) eqn:Hunique; [|discriminate].
    inv H. cbn [claims set_claims]. unfold claims_updated.
    apply NoDup_keys_rewrite; [exact Hnd|]. intros r Hr Hhit.
    rewrite forallb_forall in Hunique. specialize (Hunique r Hr).
    rewrite Hhit in Hunique. cbn [negb orb] in Hunique. now apply Nat.eqb_eq in Hunique.
  - inv H. cbn [claims set_claims]. unfold claims_updated. rewrite map_map.
    replace (map (fun r => claim_key (if claims_update_hit d c claim r
                                      then apply_claims_patch p r else r)) (claims d))
      with (map claim_key (claims d)); [exact Hnd|].
    apply map_ext. intros r. destruct (claims_update_hit d c claim r); [|reflexivity].
    unfold touches_claim_key in Htouch. unfold claim_key, apply_claims_patch. simpl.
    destruct (set_item_id p), (set_claimant_id p); try discriminate. reflexivity.
Qed.

Lemma NoDup_snoc {A : Type} (l : list A) (x : A) :
  NoDup l -> ~ In x l -> NoDup (l ++ [x]).
Proof.
  intros Hnd Hx. apply (Permutation_NoDup (l := x :: l)).
  - apply Permutation_cons_append.
  - now constructor.
Qed.

Lemma insert_claim_inv (c : caller) (r : Claims.row) (d d' : db) :
  insert_claim c r d = Ok d' ->
  d' = set_claims d (claims d ++ [r])%list /\
  claim_key_present (claim_key r) (claims d) = false /\
  claims_insert d c r = true /\
  existsb (fun x => String.eqb (Claims.id x) (Claims.id r)) (claims d) = false.
Proof.
  unfold insert_claim. intros H. unguard H. inv H.
  repeat split; auto; now apply negb_true_iff.
Qed.

Lemma exec_keeps_claim_index (c : caller) (s : statement) (d d' : db) :
  exec c s d = Ok d' ->
  NoDup (map claim_key (claims d)) -> NoDup (map claim_key (claims d')).
Proof.
  destruct s; cbn [exec]; intros H Hnd.
  - apply sign_up_inv in H. destruct H as (final & _ & ->). exact Hnd.
  - inv H. cbn [delete_account claims]. now apply NoDup_keys_filter.
  - unfold update_profiles in H. unguard H. inv H. exact Hnd.
  - unfold insert_item in H. unguard H. inv H. exact Hnd.
  - unfold update_items in H. unguard H; inv H; exact Hnd.
  - unfold delete_items in H. inv H. cbn [claims]. now apply NoDup_keys_filter.
  - apply insert_claim_inv in H. destruct H as (-> & Hfresh & _).
    cbn [claims set_claims]. rewrite map_app. apply NoDup_snoc; [exact Hnd|].
    intros Hin. apply claim_key_present_In in Hin. congruence.
  - eapply update_claims_keeps_index; eauto.
  - unfold delete_claims in H. inv H. cbn [claims set_claims]. now apply NoDup_keys_filter.
  - unfold insert_message in H. unguard H.
    apply create_message_notification_appends in H. destruct H as (n & -> & _). exact Hnd.
  - unfold mark_messages_read in H. inv H. exact Hnd.
  - unfold insert_notification, insert_notification_row in H. unguard H. inv H. exact Hnd.
  - unfold mark_notifications_read in H. inv H. exact Hnd.
Qed.

Lemma reachable_claim_index (d : db) :
  reachable d -> NoDup (map claim_key (claims d)).
Proof.
  induction 1 as [|c s d d' _ IH Hexec]; [constructor|].
  eapply exec_keeps_claim_index; eauto.
Qed.

Lemma insert_claim_duplicate_rejected (c : caller) (r : Claims.row) (d : db) :
  claim_key_present (claim_key r) (claims d) = true ->
  exists e, insert_claim c r d = Err e.
Proof.
  intros Hdup. destruct (insert_claim c r d) as [d'|e] eqn:H; [|now exists e].
  apply insert_claim_inv in H. destruct H as (_ & Hfresh & _). congruence.
Qed.

(** With a sound index, the claimant's own claim on the item is the one
    row the client's check finds. *)
Lemma own_claim_is_single (d : db) (u itemId : uuid) (r : Claims.row) :
  NoDup (map claim_key (claims d)) ->
  In r (claims d) -> Claims.item_id r = itemId -> Claims.claimant_id r = u ->
  single (select_claims (Some u)
            (fun x => String.eqb (Claims.item_id x) itemId
                      && String.eqb (Claims.claimant_id x) u) d) = Some r.
Proof.
  intros Hnd Hin Hi Hu. unfold select_claims.
  assert (forall x, (String.eqb (Claims.item_id x) itemId
                     && String.eqb (Claims.claimant_id x) u
                     && claims_select d (Some u) x)%bool
                    = key_eqb (claim_key x) (itemId, u)) as Hsame.
  { intros x. unfold key_eqb, claim_key, claims_select, users_can_view_claims. simpl.
    destruct (String.eqb_spec (Claims.claimant_id x) u) as [->|Hne].
    - rewrite String.eqb_refl, orb_true_r. simpl. now rewrite !andb_true_r.
    - now rewrite !andb_false_r. }
  rewrite (filter_ext _ _ Hsame).
  assert (claim_key r = (itemId, u)) as Hk by (unfold claim_key; congruence).
  rewrite <- Hk. clear Hsame Hk Hi Hu.
  induction (claims d) as [|a l IH]; [contradiction|].
  simpl in Hnd. rewrite NoDup_cons_iff in Hnd. destruct Hnd as [Hnot Hnd].
  simpl. destruct Hin as [->|Hin].
  - rewrite key_eqb_refl.
    assert (filter (fun x => key_eqb (claim_key x) (claim_key r)) l = []) as ->; [|reflexivity].
    apply length_zero_iff_nil. now apply claim_key_count_zero.
  - destruct (key_eqb (claim_key a) (claim_key r)) eqn:E; [|now apply IH].
    apply key_eqb_eq in E. exfalso. apply Hnot. rewrite E. now apply in_map.
Qed.

(** C3. In every reachable state no two claim rows have the same item and
    claimant; an insert of a claim whose (item, claimant) pair is already in
    the table is rejected; and the client's [createClaim] checks first:
    when its check goes through it finds the claimant's existing claim and
    stops before any insert, and when the check fails, which the client
    ignores, the insert it goes on to is the rejected one, so that in
    either case the database stays as it was and no success is reported. *)
Theorem one_claim_per_item_and_claimant :
  forall d,
    reachable d ->
    NoDup (map claim_key (claims d)) /\
    (forall c r,
        claim_key_present (claim_key r) (claims d) = true ->
        exists e, insert_claim c r d = Err e) /\
    (forall u itemId prompted now claim_id notif_id f_check f_item f1 f2 r,
        In r (claims d) -> Claims.item_id r = itemId -> Claims.claimant_id r = u ->
        let run := createClaim (Some u) itemId prompted now claim_id notif_id
                     f_check f_item f1 f2 d in
        (f_check = false -> run = (d, ToastAlreadyClaimed)) /\
        (f_check = true ->
         forall message, prompted = Some message -> message <> EmptyString ->
                         run = (d, ToastError)) /\
        fst run = d /\ snd run <> ToastSuccess).
Proof.
  intros d Hreach. pose proof (reachable_claim_index Hreach) as Hnd.
  split; [exact Hnd|]. split.
  - intros c r. apply insert_claim_duplicate_rejected.
  - intros u itemId prompted now claim_id notif_id f_check f_item f1 f2 r Hin Hi Hu run.
    assert (Hinsert : forall message,
               exists e, call f1 (insert_claim (Some u)
                                    (Claims.mk claim_id itemId u message (Some pending)
                                       now now) d) = Err e).
    { intros message. destruct f1; cbn [call]; [now exists transport_error|].
      apply insert_claim_duplicate_rejected. apply claim_key_present_In.
      unfold claim_key at 1. cbn [Claims.item_id Claims.claimant_id].
      apply in_map_iff. exists r. split; [|exact Hin]. unfold claim_key. congruence. }
    unfold run, createClaim. destruct f_check.
    + cbn [data_of_single]. split; [discriminate|].
      destruct prompted as [message|].
      * destruct (truthy message) eqn:Ht; cbn [negb].
        -- destruct (Hinsert message) as (e & He). rewrite He. cbn [fst snd].
           split; [reflexivity|]. split; [reflexivity | discriminate].
        -- cbn [fst snd]. split; [|split; [reflexivity | discriminate]].
           intros _ m Hm Hne. inv Hm. destruct m; [now elim Hne | discriminate].
      * cbn [fst snd]. split; [|split; [reflexivity | discriminate]].
        intros _ m Hm. discriminate.
    + unfold data_of_single.
      rewrite (@own_claim_is_single d u itemId r Hnd Hin Hi Hu). cbn [fst snd].
      split; [reflexivity|]. split; [discriminate|]. split; [reflexivity | discriminate].
Qed.

(** ** C10: the claim notification follows a successful claim insert *)

Lemma insert_notification_inv (c : caller) (n : Notifications.row) (d d' : db) :
  insert_notification c n d = Ok d' ->
  d' = set_notifications d (notifications d ++ [n])%list.
Proof.
  unfold insert_notification, insert_notification_row. intros H. unguard H. now inv H.
Qed.

Lemma call_ok {A : Type} (fault : bool) (s : result A) (a : A) :
  call fault s = Ok a -> fault = false /\ s = Ok a.
Proof. destruct fault; simpl; [discriminate | auto]. Qed.

(** C10. When the insert into claims returns an error, [createClaim] leaves
    the database as it was: no claim row and no notification row is added.
    Conversely a run of [createClaim] that adds a notification has first
    inserted the claim, and the notification is the 'claim' notification
    for the item's owner. *)
Theorem failed_claim_insert_changes_nothing :
  forall u itemId message now claim_id notif_id f_check f_item f1 f2 d e,
    call f1 (insert_claim (Some u)
               (Claims.mk claim_id itemId u message (Some pending) now now) d) = Err e ->
    (fst (createClaim (Some u) itemId (Some message) now claim_id notif_id
            f_check f_item f1 f2 d) = d /\
     snd (createClaim (Some u) itemId (Some message) now claim_id notif_id
            f_check f_item f1 f2 d)
     <> ToastSuccess) /\
    (forall usr prompted g_check g_item g1 g2 d0,
        let d' := fst (createClaim usr itemId prompted now claim_id notif_id
                         g_check g_item g1 g2 d0) in
        notifications d' <> notifications d0 ->
        exists v text d1 n it,
          usr = Some v /\ prompted = Some text /\ g1 = false /\ g_item = false /\
          insert_claim usr (Claims.mk claim_id itemId v text (Some pending) now now) d0
          = Ok d1 /\
          claims d' =
            (claims d0 ++ [Claims.mk claim_id itemId v text (Some pending) now now])%list /\
          notifications d' = (notifications d0 ++ [n])%list /\
          In it (items d0) /\ Items.id it = itemId /\
          Notifications.user_id n = Items.user_id it /\
          Notifications.type n = "claim").
Proof.
  intros u itemId message now claim_id notif_id f_check f_item f1 f2 d e Herr. split.
  - unfold createClaim.
    destruct (data_of_single f_check (select_claims (Some u) _ d));
      [split; [reflexivity | discriminate]|].
    destruct (negb (truthy message)); [split; [reflexivity | discriminate]|].
    rewrite Herr. split; [reflexivity | discriminate].
  - intros usr prompted g_check g_item g1 g2 d0 d' Hchanged. unfold d', createClaim in *.
    destruct usr as [v|]; [|now contradiction Hchanged].
    destruct (data_of_single g_check (select_claims (Some v) _ d0));
      [now contradiction Hchanged|].
    destruct prompted as [text|]; [|now contradiction Hchanged].
    destruct (negb (truthy text)); [now contradiction Hchanged|].
    destruct (call g1 (insert_claim (Some v) _ d0)) as [d1|e1] eqn:Hclaim;
      [|now contradiction Hchanged].
    apply call_ok in Hclaim. destruct Hclaim as [-> Hclaim].
    pose proof (insert_claim_inv _ _ _ Hclaim) as (Hd1 & _).
    cbn [fst] in *.
    destruct (data_of_single g_item (select_items (Some v) _ d0)) as [it|] eqn:Hitem;
      [|subst d1; now contradiction Hchanged].
    unfold data_of_single in Hitem.
    destruct g_item; [discriminate Hitem|].
    destruct (truthy (Items.user_id it)); [|subst d1; now contradiction Hchanged].
    destruct (call g2 (insert_notification (Some v) _ d1)) as [d2|e2] eqn:Hnotif;
      [|subst d1; now contradiction Hchanged].
    apply call_ok in Hnotif. destruct Hnotif as [_ Hnotif].
    apply insert_notification_inv in Hnotif. subst d2 d1.
    assert (In it (items d0) /\ Items.id it = itemId) as [Hin Hid].
    { unfold single in Hitem.
      destruct (select_items (Some v) (fun r => String.eqb (Items.id r) itemId) d0)
        as [|x [|y rest]] eqn:Hsel; try discriminate.
      inv Hitem. assert (In it (select_items (Some v)
                                  (fun r => String.eqb (Items.id r) itemId) d0)) as Hi
        by (rewrite Hsel; now left).
      unfold select_items in Hi. apply filter_In in Hi. destruct Hi as [Hi Hb].
      apply andb_true_iff in Hb. destruct Hb as [Hb _]. apply String.eqb_eq in Hb. auto. }
    eexists v, text, _, _, it.
    split; [reflexivity|]. split; [reflexivity|]. split; [reflexivity|].
    split; [reflexivity|]. split; [exact Hclaim|].
    cbn [claims notifications set_claims set_notifications].
    split; [reflexivity|]. split; [reflexivity|]. repeat split; auto.
Qed.

(** ** C4: approving a claim *)

Lemma admin_claims_hit (d : db) (c : caller) (claim : uuid) (r : Claims.row) :
  is_admin d c = true -> claims_update_hit d c claim r = String.eqb (Claims.id r) claim.
Proof.
  intros Ha. unfold claims_update_hit, claims_select, claims_update,
    admins_can_manage_all_claims. rewrite Ha, !orb_true_r, !andb_true_r. reflexivity.
Qed.

Lemma admin_items_hit (d : db) (c : caller) (item : uuid) (r : Items.row) :
  is_admin d c = true -> items_update_hit d c item r = String.eqb (Items.id r) item.
Proof.
  intros Ha. unfold items_update_hit, items_select, items_update,
    admins_can_manage_all_items. rewrite Ha, !orb_true_r, !andb_true_r. reflexivity.
Qed.

Lemma admin_update_claim_status (d : db) (c : caller) (claim : uuid) (s : claim_status) :
  is_admin d c = true ->
  update_claims c claim (status_patch s) d =
  Ok (set_claims d
        (map (fun r => if String.eqb (Claims.id r) claim
                       then apply_claims_patch (status_patch s) r else r) (claims d))).
Proof.
  intros Ha. unfold update_claims, bind, guard.
  assert (forallb (fun r => negb (claims_update_hit d c claim r)
                            || (claims_update d c (apply_claims_patch (status_patch s) r)
                                && claims_select d c (apply_claims_patch (status_patch s) r)))
                  (claims d) = true) as ->.
  { apply forallb_forall. intros r _.
    unfold claims_select, claims_update, admins_can_manage_all_claims.
    rewrite Ha, !orb_true_r. reflexivity. }
  cbn [touches_claim_key status_patch set_item_id set_claimant_id negb orb].
  f_equal. f_equal. unfold claims_updated. apply map_ext. intros r.
  now rewrite admin_claims_hit.
Qed.

Lemma admin_update_item_status (d : db) (c : caller) (item : uuid) (s : item_status) :
  is_admin d c = true ->
  update_items c item (item_status_patch s) d =
  Ok (set_items d
        (map (fun r => if String.eqb (Items.id r) item
                       then apply_items_patch (item_status_patch s) r else r) (items d))).
Proof.
  intros Ha. unfold update_items, bind, guard.
  assert (forallb (fun r => negb (items_update_hit d c item r)
                            || (items_update d c (apply_items_patch (item_status_patch s) r)
                                && items_select d c (apply_items_patch (item_status_patch s) r)))
                  (items d) = true) as ->.
  { apply forallb_forall. intros r _.
    unfold items_select, items_update, admins_can_manage_all_items.
    rewrite Ha, !orb_true_r. reflexivity. }
  cbn [item_status_patch set_user_id].
  f_equal. f_equal. unfold items_updated. apply map_ext. intros r.
  now rewrite admin_items_hit.
Qed.

Lemma update_claims_items (c : caller) (claim : uuid) (p : claims_patch) (d d' : db) :
  update_claims c claim p d = Ok d' -> d' = set_claims d (claims_updated d c claim p).
Proof. unfold update_claims. intros H. unguard H; now inv H. Qed.

(** C4. When an admin sets a claim to approved and both writes go through,
    the claim is approved and its item is claimed; if the second write
    fails, the claim is approved and the items are as before.  Setting a
    claim to rejected or pending never touches the items table, whoever
    calls and whatever fails.  For a caller who is not an admin, the item's
    owner among them, the item write is never accepted: the row it would
    write is not readable to the caller, the error is only logged, and the
    items table stays as it was whatever status is set. *)
Theorem approval_marks_item_claimed :
  (forall c claims_state claimId f_item d claim cached,
      is_admin d c = true ->
      In claim (claims d) ->
      Claims.id claim = claimId ->
      find (fun x => String.eqb (Claims.id x) claimId) claims_state = Some cached ->
      Claims.item_id cached = Claims.item_id claim ->
      let d' := fst (updateClaimStatus c claims_state claimId approved false f_item d) in
      (forall r, In r (claims d') -> Claims.id r = claimId ->
                 Claims.status r = Some approved) /\
      (exists r, In r (claims d') /\ Claims.id r = claimId /\
                 Claims.item_id r = Claims.item_id claim) /\
      (if f_item
       then items d' = items d
       else
         items d' =
           map (fun it => if String.eqb (Items.id it) (Claims.item_id claim)
                          then apply_items_patch (item_status_patch claimed) it else it)
               (items d) /\
         (forall it, In it (items d') -> Items.id it = Claims.item_id claim ->
                     Items.status it = Some claimed) /\
         (forall it, Items.id it <> Claims.item_id claim ->
                     (In it (items d') <-> In it (items d))))) /\
  (forall c0 cs0 id0 s0 g1 g2 d0,
      s0 <> approved ->
      items (fst (updateClaimStatus c0 cs0 id0 s0 g1 g2 d0)) = items d0) /\
  (forall c0 cs0 id0 s0 g1 g2 d0,
      is_admin d0 c0 = false ->
      items (fst (updateClaimStatus c0 cs0 id0 s0 g1 g2 d0)) = items d0).
Proof.
  assert (Hnon : forall c0 cs0 id0 s0 g1 g2 d0,
             is_admin d0 c0 = false ->
             items (fst (updateClaimStatus c0 cs0 id0 s0 g1 g2 d0)) = items d0).
  { intros c0 cs0 id0 s0 g1 g2 d0 Hna. unfold updateClaimStatus.
    destruct (call g1 (update_claims c0 id0 (status_patch s0) d0)) as [d1|e] eqn:H1;
      [|reflexivity].
    apply call_ok in H1. destruct H1 as [_ H1]. apply update_claims_items in H1. subst d1.
    destruct s0; try reflexivity.
    destruct (find _ cs0) as [cl|]; [|reflexivity].
    set (d1 := set_claims d0 _).
    destruct (call g2 (update_items c0 (Claims.item_id cl) (item_status_patch claimed) d1))
      as [d2|e] eqn:H2; [|reflexivity].
    apply call_ok in H2. destruct H2 as [_ H2]. unfold update_items, bind, guard in H2.
    destruct (forallb _ (items d1)) eqn:Hrls; [|discriminate H2].
    cbn [item_status_patch set_user_id] in H2. inv H2.
    cbn [fst items set_items]. unfold items_updated.
    rewrite (map_ext_in _ (fun r => r)); [apply map_id|].
    intros r Hr. rewrite forallb_forall in Hrls. specialize (Hrls r Hr).
    destruct (items_update_hit d1 c0 (Claims.item_id cl) r); [|reflexivity].
    cbn [negb orb] in Hrls. apply andb_true_iff in Hrls. destruct Hrls as [_ Hsel].
    unfold items_select, admins_can_manage_all_items, anyone_can_view_active_items,
      status_is in Hsel.
    change (is_admin d1 c0) with (is_admin d0 c0) in Hsel. rewrite Hna in Hsel.
    cbn in Hsel. discriminate Hsel. }
  assert (Hother : forall c0 cs0 id0 s0 g1 g2 d0,
             s0 <> approved ->
             items (fst (updateClaimStatus c0 cs0 id0 s0 g1 g2 d0)) = items d0).
  { intros c0 cs0 id0 s0 g1 g2 d0 Hs. unfold updateClaimStatus.
    destruct (call g1 (update_claims c0 id0 (status_patch s0) d0)) as [d1|e] eqn:H1;
      [|reflexivity].
    apply call_ok in H1. destruct H1 as [_ H1]. apply update_claims_items in H1. subst d1.
    destruct s0; try congruence; reflexivity. }
  split; [|split; [exact Hother | exact Hnon]]. clear Hother Hnon.
  intros c claims_state claimId f_item d claim cached Hadmin Hin Hid Hcached Hitem d'.
  unfold d', updateClaimStatus. cbn [call].
  rewrite admin_update_claim_status by exact Hadmin. rewrite Hcached, Hitem.
  set (d1 := set_claims d _).
  assert (is_admin d1 c = true) as Hadmin1 by exact Hadmin.
  assert (Hclaims : forall dd, claims dd = claims d1 ->
            (forall r, In r (claims dd) -> Claims.id r = claimId ->
                       Claims.status r = Some approved) /\
            (exists r, In r (claims dd) /\ Claims.id r = claimId /\
                       Claims.item_id r = Claims.item_id claim)).
  { intros dd ->. unfold d1. cbn [claims set_claims]. split.
    - intros r Hr Hrid. apply in_map_iff in Hr. destruct Hr as (r0 & <- & _).
      destruct (String.eqb_spec (Claims.id r0) claimId) as [_|Hne]; [reflexivity|].
      contradiction.
    - exists (apply_claims_patch (status_patch approved) claim). split; [|split; auto].
      apply in_map_iff. exists claim. rewrite Hid, String.eqb_refl. auto. }
  destruct f_item; cbn [call fst].
  - destruct (Hclaims d1 eq_refl) as [Ha Hb].
    split; [exact Ha|]. split; [exact Hb|]. reflexivity.
  - rewrite admin_update_item_status by exact Hadmin1. cbn [fst].
    destruct (Hclaims (set_items d1 (map (fun r => if String.eqb (Items.id r)
                                                        (Claims.item_id claim)
                                           then apply_items_patch (item_status_patch claimed) r
                                           else r) (items d1))) eq_refl) as [Ha Hb].
    split; [exact Ha|]. split; [exact Hb|].
    cbn [items set_items d1 set_claims]. split; [reflexivity|]. split.
    + intros it Hit Hitid. apply in_map_iff in Hit. destruct Hit as (it0 & <- & _).
      destruct (String.eqb_spec (Items.id it0) (Claims.item_id claim)) as [_|Hne];
        [reflexivity | contradiction].
    + intros it Hne. rewrite in_map_iff. split.
      * intros (it0 & Heq & Hin0).
        destruct (String.eqb_spec (Items.id it0) (Claims.item_id claim)) as [He|_].
        -- subst it. contradiction.
        -- now subst it0.
      * intros Hin0. exists it. split; [|exact Hin0].
        destruct (String.eqb_spec (Items.id it) (Claims.item_id claim)); [contradiction|].
        reflexivity.
Qed.

(** ** C6: kind and status of an item *)

Lemma replay_reachable (h : list (caller * statement)) :
  forall d d', reachable d -> replay h d = Ok d' -> reachable d'.
Proof.
  induction h as [|[c s] h IH]; intros d d' Hd H; simpl in H.
  - now inv H.
  - destruct (exec c s d) as [d1|e] eqn:Hexec; [|discriminate].
    simpl in H. eapply IH; [|exact H]. eapply reachable_exec; eauto.
Qed.

Lemma sample_db_reachable : reachable sample_db.
Proof.
  apply (@replay_reachable sample_history empty_db); [constructor|].
  vm_compute. reflexivity.
Qed.

(** The policy "Users can update own items" lets the owner of an item
    change its kind. *)
Lemma owner_may_rewrite_kind :
  reachable sample_db /\
  In blue_backpack (items sample_db) /\
  Items.type blue_backpack = found /\
  users_can_update_own_items (Some alice) blue_backpack = true /\
  exists d',
    exec (Some alice) (UpdateItems backpack (rewrite_kind lost)) sample_db = Ok d' /\
    option_map Items.type (find_item d' backpack) = Some lost /\
    List.length (items d') = List.length (items sample_db).
Proof.
  split; [exact sample_db_reachable|]. split; [now left|]. split; [reflexivity|].
  split; [reflexivity|]. eexists. split; [vm_compute; reflexivity|].
  split; reflexivity.
Qed.

Lemma continues_refl (l : list Items.row) : continues l l.
Proof. intros x Hx. exists x. auto. Qed.

Lemma continues_filter (f : Items.row -> bool) (l : list Items.row) :
  continues l (filter f l).
Proof. intros x Hx. apply filter_In in Hx. exists x. tauto. Qed.

Lemma continues_patch (hit : Items.row -> bool) (p : items_patch) (l : list Items.row) :
  set_type p = None ->
  continues l (map (fun r => if hit r then apply_items_patch p r else r) l).
Proof.
  intros Hp x' Hx'. apply in_map_iff in Hx'. destruct Hx' as (x & <- & Hx).
  exists x. split; [exact Hx|]. destruct (hit x); [|auto].
  unfold apply_items_patch. simpl. rewrite Hp. auto.
Qed.

Lemma status_defined_some (r : Items.row) (s : item_status) :
  Items.status r = Some s -> status_defined r.
Proof. unfold status_defined. intros ->. destruct s; auto. Qed.

Lemma status_defined_patch (hit : Items.row -> bool) (p : items_patch) (l : list Items.row) :
  (set_status p = None \/ exists s, set_status p = Some (Some s)) ->
  Forall status_defined l ->
  Forall status_defined (map (fun r => if hit r then apply_items_patch p r else r) l).
Proof.
  intros Hp Hl. rewrite Forall_forall in *. intros x' Hx'.
  apply in_map_iff in Hx'. destruct Hx' as (x & <- & Hx). specialize (Hl x Hx).
  destruct (hit x); [|exact Hl]. destruct Hp as [Hp|[s Hp]].
  - unfold status_defined, apply_items_patch in *. simpl. rewrite Hp. exact Hl.
  - apply status_defined_some with (s := s). unfold apply_items_patch. simpl. now rewrite Hp.
Qed.

Lemma Forall_filter_keep {A : Type} (P : A -> Prop) (f : A -> bool) (l : list A) :
  Forall P l -> Forall P (filter f l).
Proof.
  rewrite !Forall_forall. intros H x Hx. apply filter_In in Hx. apply H. tauto.
Qed.

Lemma update_items_inv (c : caller) (item : uuid) (p : items_patch) (d d' : db) :
  update_items c item p d = Ok d' -> d' = set_items d (items_updated d c item p).
Proof. unfold update_items. intros H. unguard H; now inv H. Qed.

(** What one client operation does to the items table: rows are kept with
    their kind, rewritten without touching it, removed, or one new row is
    added under the id the operation mints. *)
Lemma run_op_items (o : client_op) (d : db) :
  Forall status_defined (items d) ->
  Forall status_defined (items (run_op o d)) /\
  forall x', In x' (items (run_op o d)) ->
             (exists x, In x (items d) /\ Items.id x = Items.id x'
                        /\ Items.type x = Items.type x')
             \/ mints o (Items.id x') = true.
Proof.
  intros Hst.
  assert (Hkeep : forall l1, Forall status_defined l1 -> continues (items d) l1 ->
            Forall status_defined l1 /\
            forall x', In x' l1 ->
                       (exists x, In x (items d) /\ Items.id x = Items.id x'
                                  /\ Items.type x = Items.type x')
                       \/ mints o (Items.id x') = true).
  { intros l1 H1 H2. split; [exact H1|]. intros x' Hx'. left. now apply H2. }
  assert (Hsame : Forall status_defined (items d) /\
            forall x', In x' (items d) ->
                       (exists x, In x (items d) /\ Items.id x = Items.id x'
                                  /\ Items.type x = Items.type x')
                       \/ mints o (Items.id x') = true)
    by (apply Hkeep; auto using continues_refl).
  destruct o; cbn [run_op].
  - (* reportItem *)
    unfold reportItem. destruct usr as [user_id|]; [|exact Hsame].
    destruct (call fault _) as [d1|e] eqn:Hcall; cbn [fst];
      [|exact Hsame].
    apply call_ok in Hcall. destruct Hcall as [_ Hins].
    unfold insert_item in Hins. unguard Hins. inv Hins. cbn [items set_items]. split.
    + apply Forall_app. split; [exact Hst|]. constructor; [|constructor].
      now apply status_defined_some with (s := active).
    + intros x' Hx'. apply in_app_or in Hx'. destruct Hx' as [Hx'|[<-|[]]].
      * left. exists x'. auto.
      * right. cbn [mints Items.id]. apply String.eqb_refl.
  - (* updateItemStatus *)
    unfold updateItemStatus.
    destruct (call fault _) as [d1|e] eqn:Hcall; cbn [fst];
      [|exact Hsame].
    apply call_ok in Hcall. destruct Hcall as [_ Hup]. apply update_items_inv in Hup.
    subst d1. cbn [items set_items]. unfold items_updated. apply Hkeep.
    + apply status_defined_patch; [right; now exists status | exact Hst].
    + now apply continues_patch.
  - (* editItem *)
    unfold editItem.
    destruct newTitle as [t|], newDescription as [de|], newLocation as [l|];
      try exact Hsame.
    destruct (negb (truthy t) || String.eqb t (Items.title item))%bool;
      [exact Hsame|].
    destruct (call fault _) as [d1|e] eqn:Hcall; cbn [fst];
      [|exact Hsame].
    apply call_ok in Hcall. destruct Hcall as [_ Hup]. apply update_items_inv in Hup.
    subst d1. cbn [items set_items]. unfold items_updated. apply Hkeep.
    + apply status_defined_patch; [now left | exact Hst].
    + now apply continues_patch.
  - (* deleteItem *)
    unfold deleteItem.
    destruct (call fault_claims _) as [d1|e] eqn:Hcall; cbn [fst];
      [|exact Hsame].
    apply call_ok in Hcall. destruct Hcall as [_ Hdel]. unfold delete_claims in Hdel.
    inv Hdel.
    destruct (call fault_item _) as [d2|e] eqn:Hcall2; cbn [fst];
      [|exact Hsame].
    apply call_ok in Hcall2. destruct Hcall2 as [_ Hdel]. unfold delete_items in Hdel.
    inv Hdel. cbn [items set_claims]. apply Hkeep.
    + now apply Forall_filter_keep.
    + apply continues_filter.
  - (* updateClaimStatus *)
    unfold updateClaimStatus.
    destruct (call fault_claim _) as [d1|e] eqn:Hcall; cbn [fst];
      [|exact Hsame].
    apply call_ok in Hcall. destruct Hcall as [_ Hup]. apply update_claims_items in Hup.
    subst d1.
    destruct status; try exact Hsame.
    destruct (find _ claims_state) as [claim|]; [|exact Hsame].
    destruct (call fault_item _) as [d2|e] eqn:Hcall2;
      [|exact Hsame].
    apply call_ok in Hcall2. destruct Hcall2 as [_ Hup]. apply update_items_inv in Hup.
    subst d2. cbn [items set_items set_claims]. unfold items_updated. apply Hkeep.
    + apply status_defined_patch; [right; now exists claimed | exact Hst].
    + now apply continues_patch.
  - (* createClaim *)
    unfold createClaim. destruct usr as [user_id|]; [|exact Hsame].
    destruct (data_of_single fault_check (select_claims _ _ d)); [exact Hsame|].
    destruct prompted as [message|]; [|exact Hsame].
    destruct (negb (truthy message)); [exact Hsame|].
    destruct (call fault_claim _) as [d1|e] eqn:Hcall; cbn [fst];
      [|exact Hsame].
    apply call_ok in Hcall. destruct Hcall as [_ Hins].
    apply insert_claim_inv in Hins. destruct Hins as (-> & _).
    destruct (data_of_single fault_item (select_items _ _ d)) as [it|];
      [|exact Hsame].
    destruct (truthy (Items.user_id it)); [|exact Hsame].
    destruct (call fault_notification _) as [d2|e] eqn:Hcall2;
      [|exact Hsame].
    apply call_ok in Hcall2. destruct Hcall2 as [_ Hins].
    apply insert_notification_inv in Hins. subst d2.
    exact Hsame.
Qed.

Lemma run_ops_items (ops : list client_op) :
  forall d,
    Forall status_defined (items d) ->
    Forall status_defined (items (run_ops ops d)) /\
    forall x', In x' (items (run_ops ops d)) ->
               (exists x, In x (items d) /\ Items.id x = Items.id x'
                          /\ Items.type x = Items.type x')
               \/ Exists (fun o => mints o (Items.id x') = true) ops.
Proof.
  induction ops as [|o ops IH]; intros d Hst.
  - split; [exact Hst|]. intros x' Hx'. left. exists x'. auto.
  - unfold run_ops. cbn [fold_left]. fold (run_ops ops (run_op o d)).
    destruct (@run_op_items o d Hst) as [Hst1 Hstep].
    destruct (IH _ Hst1) as [Hst' Hrest]. split; [exact Hst'|].
    intros x' Hx'. destruct (Hrest x' Hx') as [(x1 & Hx1 & Hid & Hty)|Hminted].
    + destruct (Hstep x1 Hx1) as [(x & Hx & Hid0 & Hty0)|Hm].
      * left. exists x. repeat split; congruence.
      * right. apply Exists_cons_hd. now rewrite <- Hid.
    + right. now apply Exists_cons_tl.
Qed.

Lemma NoDup_ids_same_row (l : list Items.row) (x y : Items.row) :
  NoDup (map Items.id l) -> In x l -> In y l -> Items.id x = Items.id y -> x = y.
Proof.
  induction l as [|a l IH]; [contradiction|]. simpl. rewrite NoDup_cons_iff.
  intros [Hnot Hnd] [->|Hx] [->|Hy] Hid; auto.
  - exfalso. apply Hnot. rewrite Hid. now apply in_map.
  - exfalso. apply Hnot. rewrite <- Hid. now apply in_map.
Qed.

(** C6 (as amended). Through the operations of the client (report, status
    update, edit, delete, claim approval, claim creation) an item row keeps
    the kind it was created with, and the status of every item is one of
    active, claimed, archived. *)
Theorem client_keeps_kind_and_status :
  forall ops d,
    NoDup (map Items.id (items d)) ->
    Forall status_defined (items d) ->
    Forall status_defined (items (run_ops ops d)) /\
    (forall it it',
        In it (items d) -> In it' (items (run_ops ops d)) ->
        Items.id it' = Items.id it ->
        Forall (fun o => mints o (Items.id it) = false) ops ->
        Items.type it' = Items.type it).
Proof.
  intros ops d Hnd Hst. destruct (@run_ops_items ops d Hst) as [Hst' Hrows].
  split; [exact Hst'|]. intros it it' Hit Hit' Hid Hfresh.
  destruct (Hrows it' Hit') as [(x & Hx & Hxid & Hxty)|Hminted].
  - assert (x = it) as -> by (eapply NoDup_ids_same_row; eauto; congruence).
    now symmetry.
  - exfalso. rewrite Exists_exists in Hminted. destruct Hminted as (o & Ho & Hm).
    rewrite Forall_forall in Hfresh. specialize (Hfresh o Ho). congruence.
Qed.

(** ** C8: conversations *)

(** *** The sort *)

Section ArraySort.
Variable A : Type.
Variable compare : A -> A -> Z.
Variable rank : A -> Z.
Hypothesis compare_rank : forall a b, compare a b <= 0 <-> rank a <= rank b.

Lemma sort_insert_perm (x : A) (l : list A) :
  Permutation (sort_insert compare x l) (x :: l).
Proof.
  induction l as [|y l IH]; simpl; [reflexivity|].
  destruct (compare x y <=? 0); [reflexivity|].
  rewrite IH. apply perm_swap.
Qed.

Lemma array_sort_perm (l : list A) : Permutation (array_sort compare l) l.
Proof.
  induction l as [|x l IH]; simpl; [reflexivity|].
  rewrite sort_insert_perm. now constructor.
Qed.

Lemma sort_insert_sorted (x : A) (l : list A) :
  StronglySorted (fun a b => rank a <= rank b) l ->
  StronglySorted (fun a b => rank a <= rank b) (sort_insert compare x l).
Proof.
  induction 1 as [|y l Hl IH Hy]; simpl.
  - repeat constructor.
  - destruct (Z.leb_spec (compare x y) 0) as [Hle|Hgt].
    + apply compare_rank in Hle. constructor; [now constructor|].
      constructor; [exact Hle|]. rewrite Forall_forall in *. intros z Hz.
      specialize (Hy z Hz). lia.
    + assert (rank y <= rank x) as Hyx.
      { destruct (Z.le_gt_cases (rank x) (rank y)) as [H|H]; [|lia].
        apply compare_rank in H. lia. }
      constructor; [exact IH|].
      eapply Permutation_Forall.
      * symmetry. apply sort_insert_perm.
      * constructor; assumption.
Qed.

Lemma array_sort_sorted (l : list A) :
  StronglySorted (fun a b => rank a <= rank b) (array_sort compare l).
Proof.
  induction l as [|x l IH]; simpl; [constructor|]. now apply sort_insert_sorted.
Qed.

(** The sort is stable: elements of equal rank keep the order [before]
    they came in. *)
Variable before : A -> A -> Prop.

Lemma sort_insert_stable (x : A) (l : list A) :
  Forall (before x) l ->
  StronglySorted (fun a b => rank a < rank b \/ (rank a = rank b /\ before a b)) l ->
  StronglySorted (fun a b => rank a < rank b \/ (rank a = rank b /\ before a b))
                 (sort_insert compare x l).
Proof.
  intros Hx Hs. induction Hs as [|y l Hl IH Hy]; simpl.
  - repeat constructor.
  - inv Hx. destruct (Z.leb_spec (compare x y) 0) as [Hle|Hgt].
    + apply compare_rank in Hle. constructor; [now constructor|].
      constructor.
      * destruct (Z.eq_dec (rank x) (rank y)); [right; auto | left; lia].
      * rewrite Forall_forall in *. intros z Hz.
        match goal with H : forall a, In a l -> before x a |- _ => specialize (H z Hz) end.
        specialize (Hy z Hz). cbn beta in Hy.
        destruct (Z.eq_dec (rank x) (rank z)); [right; auto | left; lia].
    + assert (rank y < rank x) as Hyx.
      { destruct (Z.le_gt_cases (rank x) (rank y)) as [H|H]; [|lia].
        apply compare_rank in H. lia. }
      constructor; [now apply IH|].
      eapply Permutation_Forall.
      * symmetry. apply sort_insert_perm.
      * constructor; [now left | exact Hy].
Qed.

Lemma array_sort_stable (l : list A) :
  StronglySorted before l ->
  StronglySorted (fun a b => rank a < rank b \/ (rank a = rank b /\ before a b))
                 (array_sort compare l).
Proof.
  induction 1 as [|x l Hl IH Hx]; simpl; [constructor|].
  apply sort_insert_stable; [|exact IH].
  eapply Permutation_Forall; [symmetry; apply array_sort_perm | exact Hx].
Qed.
End ArraySort.

Lemma StronglySorted_weaken {A : Type} (R R' : A -> A -> Prop) (l : list A) :
  (forall a b, R a b -> R' a b) -> StronglySorted R l -> StronglySorted R' l.
Proof.
  intros H. induction 1 as [|x l _ IH Hx]; constructor; [exact IH|].
  rewrite Forall_forall in *. auto.
Qed.

Lemma StronglySorted_map {A B : Type} (f : A -> B) (R : B -> B -> Prop) (l : list A) :
  StronglySorted R (map f l) <-> StronglySorted (fun a b => R (f a) (f b)) l.
Proof.
  induction l as [|x l IH]; simpl.
  - split; constructor.
  - split; intros H; inv H; constructor; try (now apply IH).
    + match goal with H : Forall _ (map f l) |- _ => rewrite Forall_map in H; exact H end.
    + now rewrite Forall_map.
Qed.

Lemma StronglySorted_snoc {A : Type} (R : A -> A -> Prop) (l : list A) (x : A) :
  StronglySorted R (l ++ [x]) <-> StronglySorted R l /\ Forall (fun a => R a x) l.
Proof.
  induction l as [|y l IH]; simpl.
  - split; [intros _; split; constructor | intros _; repeat constructor].
  - split.
    + intros H. inv H. match goal with H : StronglySorted R (l ++ [x]) |- _ =>
        apply IH in H; destruct H as [Hs Hf] end.
      match goal with H : Forall (R y) (l ++ [x]) |- _ =>
        apply Forall_app in H; destruct H as [Hl Hlast] end.
      inv Hlast. split; constructor; auto.
    + intros [Hs Hf]. inv Hs. inv Hf. constructor.
      * apply IH. split; assumption.
      * apply Forall_app. split; [assumption | now constructor].
Qed.

(** *** Lists *)

Lemma Permutation_filter_same {A : Type} (f : A -> bool) (l l' : list A) :
  Permutation l l' -> Permutation (filter f l) (filter f l').
Proof.
  induction 1 as [|x l l' _ IH|x y l|l l' l'' _ IH1 _ IH2]; simpl.
  - constructor.
  - destruct (f x); [now constructor | exact IH].
  - destruct (f x), (f y); try reflexivity. apply perm_swap.
  - now transitivity (filter f l').
Qed.

Lemma StronglySorted_filter_keep {A : Type} (R : A -> A -> Prop) (f : A -> bool)
    (l : list A) :
  StronglySorted R l -> StronglySorted R (filter f l).
Proof.
  induction 1 as [|x l _ IH Hx]; simpl; [constructor|].
  destruct (f x); [|exact IH]. constructor; [exact IH|]. now apply Forall_filter_keep.
Qed.

Lemma filter_filter_and {A : Type} (f g : A -> bool) (l : list A) :
  filter f (filter g l) = filter (fun x => g x && f x) l.
Proof.
  induction l as [|x l IH]; simpl; [reflexivity|].
  destruct (g x); simpl; [destruct (f x)|]; now rewrite IH.
Qed.

(** *** The key of a conversation *)

Lemma key_text_inj (a1 a2 b1 b2 : string) :
  String.length a1 = String.length a2 ->
  (a1 ++ "-" ++ b1)%string = (a2 ++ "-" ++ b2)%string -> a1 = a2 /\ b1 = b2.
Proof.
  revert a2. induction a1 as [|x a1 IH]; intros [|y a2] Hlen H; simpl in *;
    try discriminate.
  - inv H. auto.
  - inv H. destruct (IH a2) as [-> ->]; auto.
Qed.

Lemma conversationKey_eqb (usr : uuid) (m m0 : Messages.row) :
  String.length (Messages.item_id m) = String.length (Messages.item_id m0) ->
  String.eqb (conversationKey usr m) (conversationKey usr m0) =
  String.eqb (Messages.item_id m) (Messages.item_id m0)
  && String.eqb (otherUserId usr m) (otherUserId usr m0).
Proof.
  intros Hlen. unfold conversationKey.
  destruct (String.eqb_spec (Messages.item_id m ++ "-" ++ otherUserId usr m)
              (Messages.item_id m0 ++ "-" ++ otherUserId usr m0)) as [He|Hne].
  - apply key_text_inj in He; [|exact Hlen]. destruct He as [-> ->].
    now rewrite !String.eqb_refl.
  - destruct (String.eqb_spec (Messages.item_id m) (Messages.item_id m0)) as [Hi|];
      [|reflexivity].
    destruct (String.eqb_spec (otherUserId usr m) (otherUserId usr m0)) as [Ho|];
      [|reflexivity].
    exfalso. apply Hne. now rewrite Hi, Ho.
Qed.

(** *** The map of conversations *)

Lemma map_has_In (key : string) (m : conversation_map) :
  map_has key m = true <-> In key (map fst m).
Proof.
  unfold map_has. rewrite existsb_exists, in_map_iff. split.
  - intros ([k v] & Hin & He). apply String.eqb_eq in He. exists (k, v). auto.
  - intros ([k v] & He & Hin). exists (k, v). split; [exact Hin|].
    now apply String.eqb_eq.
Qed.

Lemma map_modify_keys (key : string) (f : Conversation.t -> Conversation.t)
    (m : conversation_map) :
  map fst (map_modify key f m) = map fst m.
Proof.
  induction m as [|[k v] m IH]; simpl; [reflexivity|].
  destruct (String.eqb k key); simpl; [reflexivity | now rewrite IH].
Qed.

Lemma map_modify_In (key : string) (f : Conversation.t -> Conversation.t)
    (m : conversation_map) (k : string) (c' : Conversation.t) :
  NoDup (map fst m) ->
  In (k, c') (map_modify key f m) ->
  (k <> key /\ In (k, c') m) \/ (k = key /\ exists c, In (key, c) m /\ c' = f c).
Proof.
  induction m as [|[k0 v0] m IH]; simpl; [contradiction|].
  rewrite NoDup_cons_iff. intros [Hnot Hnd].
  destruct (String.eqb_spec k0 key) as [->|Hne]; simpl.
  - intros [Heq|Hin].
    + inv Heq. right. split; [reflexivity|]. exists v0. auto.
    + left. split; [|auto]. intros ->. apply Hnot.
      change key with (fst (key, c')). now apply in_map.
  - intros [Heq|Hin].
    + inv Heq. left. auto.
    + destruct (IH Hnd Hin) as [[H1 H2]|[H1 (c & H2 & H3)]].
      * left. auto.
      * right. split; [exact H1|]. exists c. auto.
Qed.

Lemma map_modify_absent (key : string) (f : Conversation.t -> Conversation.t)
    (m : conversation_map) (v : Conversation.t) :
  map_has key m = false ->
  map_modify key f (m ++ [(key, v)])%list = (m ++ [(key, f v)])%list.
Proof.
  unfold map_has. induction m as [|[k0 v0] m IH]; simpl.
  - intros _. now rewrite String.eqb_refl.
  - intros H. apply orb_false_iff in H. destruct H as [Hk Hm].
    rewrite Hk. now rewrite IH.
Qed.

(** *** The grouping loop *)

Ltac conversation_fields :=
  cbn [Conversation.item_id Conversation.item_title Conversation.other_user_id
       Conversation.other_user_username Conversation.other_user_avatar
       Conversation.messages Conversation.last_message_date
       Conversation.unread_count new_conversation].

Lemma bucket_snoc (usr : uuid) (key : string) (es : list enriched) (e : enriched) :
  bucket usr key (es ++ [e]) =
  (bucket usr key es
   ++ (if String.eqb (conversationKey usr (row_of e)) key then [e] else []))%list.
Proof. unfold bucket. rewrite filter_app. reflexivity. Qed.

Lemma unread_in_snoc (usr : uuid) (es : list enriched) (e : enriched) :
  unread_in usr (es ++ [e]) =
  if unread_for usr (row_of e) then S (unread_in usr es) else unread_in usr es.
Proof.
  unfold unread_in. rewrite filter_app, length_app. simpl.
  destruct (unread_for usr (row_of e)); simpl; lia.
Qed.

Lemma grouped_push (usr : uuid) (key : string) (es : list enriched) (e : enriched)
    (c : Conversation.t) :
  conversationKey usr (row_of e) = key ->
  grouped usr key es = Some c ->
  grouped usr key (es ++ [e]) = Some (push_message usr e c).
Proof.
  intros Hk Hc. unfold grouped in *. rewrite bucket_snoc, Hk, String.eqb_refl.
  destruct (bucket usr key es) as [|e0 rest]; [discriminate|]. inv Hc.
  unfold push_message. conversation_fields.
  now rewrite <- app_comm_cons, <- unread_in_snoc.
Qed.

Lemma grouped_first (usr : uuid) (key : string) (es : list enriched) (e : enriched) :
  conversationKey usr (row_of e) = key ->
  bucket usr key es = [] ->
  grouped usr key (es ++ [e]) = Some (push_message usr e (new_conversation usr e)).
Proof.
  intros Hk Hb. unfold grouped. rewrite bucket_snoc, Hk, String.eqb_refl, Hb.
  unfold push_message. conversation_fields. cbn [app].
  unfold unread_in. cbn [filter]. now destruct (unread_for usr (row_of e)).
Qed.

Lemma grouped_other (usr : uuid) (key : string) (es : list enriched) (e : enriched) :
  conversationKey usr (row_of e) <> key ->
  grouped usr key (es ++ [e]) = grouped usr key es.
Proof.
  intros Hk. unfold grouped. rewrite bucket_snoc.
  destruct (String.eqb_spec (conversationKey usr (row_of e)) key); [contradiction|].
  now rewrite app_nil_r.
Qed.

Lemma bucket_nil_iff (usr : uuid) (key : string) (es : list enriched) :
  bucket usr key es = [] <-> forall e, In e es -> conversationKey usr (row_of e) <> key.
Proof.
  unfold bucket. induction es as [|a es IH]; simpl.
  - split; [intros _ e [] | reflexivity].
  - destruct (String.eqb_spec (conversationKey usr (row_of a)) key) as [He|Hne].
    + split; [discriminate | intros H; exfalso; now apply (H a (or_introl eq_refl))].
    + rewrite IH. split.
      * intros H e [<-|He]; auto.
      * intros H e He. apply H. now right.
Qed.

(** The loop computes the grouping: after the messages [es] the map holds,
    under each key that occurs in [es] and under no other, the conversation
    of that key. *)
Lemma grouping_loop (usr : uuid) (es : list enriched) :
  let m := fold_left (group_message usr) es [] in
  NoDup (map fst m) /\
  (forall k c, In (k, c) m -> grouped usr k es = Some c) /\
  (forall e, In e es -> In (conversationKey usr (row_of e)) (map fst m)).
Proof.
  induction es as [|e es IH] using rev_ind.
  - simpl. split; [constructor|]. split; intros; contradiction.
  - rewrite fold_left_app. cbn [fold_left].
    set (m := fold_left (group_message usr) es []) in *. cbv zeta in IH.
    destruct IH as (Hnd & Hconv & Hkeys).
    set (key := conversationKey usr (row_of e)).
    unfold group_message. fold key.
    destruct (map_has key m) eqn:Hhas.
    + (* the conversation exists *)
      cbv zeta. rewrite map_modify_keys. split; [exact Hnd|]. split.
      * intros k c' Hin. apply map_modify_In in Hin; [|exact Hnd].
        destruct Hin as [[Hne Hin]|[-> (c & Hin & ->)]].
        -- rewrite grouped_other; [now apply Hconv | unfold key in Hne; congruence].
        -- apply grouped_push; [reflexivity | now apply Hconv].
      * intros e' He'. apply in_app_or in He'. destruct He' as [He'|[<-|[]]].
        -- now apply Hkeys.
        -- now apply map_has_In.
    + (* a new conversation *)
      cbv zeta. rewrite map_modify_absent by exact Hhas.
      assert (~ In key (map fst m)) as Hnotin.
      { intros Hin. apply map_has_In in Hin. congruence. }
      split; [|split].
      * rewrite map_app. apply NoDup_snoc; assumption.
      * intros k c' Hin. apply in_app_or in Hin. destruct Hin as [Hin|[Heq|[]]].
        -- rewrite grouped_other; [now apply Hconv|].
           intros He. apply Hnotin. fold key in He. rewrite He.
           change k with (fst (k, c')). now apply in_map.
        -- inv Heq. apply grouped_first; [reflexivity|].
           apply bucket_nil_iff. intros e' He' Hk. apply Hnotin.
           fold key. rewrite <- Hk. now apply Hkeys.
      * intros e' He'. rewrite map_app. apply in_or_app.
        apply in_app_or in He'. destruct He' as [He'|[<-|[]]].
        -- left. now apply Hkeys.
        -- right. now left.
Qed.

Lemma grouped_inv (usr : uuid) (k : string) (es : list enriched) (c : Conversation.t) :
  grouped usr k es = Some c ->
  exists e0 rest,
    bucket usr k es = e0 :: rest /\
    conversationKey usr (row_of e0) = k /\
    In e0 es /\
    c = Conversation.mk
          (Messages.item_id (row_of e0))
          (or_default (option_map ref_title (joined_items e0)) "Unknown Item")
          (otherUserId usr (row_of e0))
          (or_default
             (option_map pref_username
                (if String.eqb (Messages.sender_id (row_of e0)) usr
                 then recipient_profile e0 else sender_profile e0))
             "Unknown User")
          (match (if String.eqb (Messages.sender_id (row_of e0)) usr
                  then recipient_profile e0 else sender_profile e0) with
           | Some p => pref_avatar_url p
           | None => None
           end)
          (e0 :: rest)
          (Messages.created_at (row_of e0))
          (unread_in usr (e0 :: rest)).
Proof.
  unfold grouped. destruct (bucket usr k es) as [|e0 rest] eqn:Hb; [discriminate|].
  intros H. inv H. exists e0, rest.
  assert (In e0 (bucket usr k es)) as Hin by (rewrite Hb; now left).
  unfold bucket in Hin. apply filter_In in Hin. destruct Hin as [Hin Hk].
  apply String.eqb_eq in Hk. repeat split; auto.
Qed.

(** The conversations of [fetchConversations] are the sorted conversations
    of the keys that occur. *)
Lemma fetchConversations_members (usr : uuid) (msgs : list Messages.row)
    (I : list item_ref) (P : list profile_ref) (c : Conversation.t) :
  In c (fetchConversations usr msgs I P) <->
  exists k c0, grouped usr k (map (enrich I P) msgs) = Some c0 /\ c = sort_messages c0.
Proof.
  unfold fetchConversations. rewrite map_map. cbn [snd].
  destruct (grouping_loop usr (map (enrich I P) msgs)) as (Hnd & Hconv & Hkeys).
  set (m := fold_left (group_message usr) (map (enrich I P) msgs) []) in *.
  split.
  - intros Hin. eapply Permutation_in in Hin; [|apply array_sort_perm].
    apply in_map_iff in Hin. destruct Hin as ([k c0] & <- & Hin).
    exists k, c0. split; [now apply Hconv | reflexivity].
  - intros (k & c0 & Hg & ->).
    eapply Permutation_in; [symmetry; apply array_sort_perm|].
    destruct (grouped_inv _ _ _ Hg) as (e0 & rest & _ & Hk & Hin & _).
    specialize (Hkeys e0 Hin). rewrite Hk in Hkeys.
    apply in_map_iff in Hkeys. destruct Hkeys as ([k' c1] & Hfst & Hin1).
    simpl in Hfst. subst k'.
    apply in_map_iff. exists (k, c1). split; [|exact Hin1].
    cbn [snd]. f_equal. pose proof (Hconv _ _ Hin1) as Hg1. congruence.
Qed.

Lemma fetchConversations_keys (usr : uuid) (msgs : list Messages.row)
    (I : list item_ref) (P : list profile_ref) :
  NoDup (map (fun c => (Conversation.item_id c, Conversation.other_user_id c))
             (fetchConversations usr msgs I P)).
Proof.
  apply (NoDup_map_inv (fun p : uuid * uuid => (fst p ++ "-" ++ snd p)%string)).
  rewrite map_map. cbn [fst snd].
  unfold fetchConversations. rewrite map_map. cbn [snd].
  destruct (grouping_loop usr (map (enrich I P) msgs)) as (Hnd & Hconv & _).
  set (m := fold_left (group_message usr) (map (enrich I P) msgs) []) in *.
  eapply Permutation_NoDup.
  - apply Permutation_map. symmetry. apply array_sort_perm.
  - rewrite map_map.
    replace (map (fun x => (Conversation.item_id (sort_messages (snd x)) ++ "-"
                            ++ Conversation.other_user_id (sort_messages (snd x)))%string) m)
      with (map fst m); [exact Hnd|].
    apply map_ext_in. intros [k c0] Hin. cbn [fst snd].
    destruct (grouped_inv _ _ _ (Hconv _ _ Hin)) as (e0 & rest & _ & Hk & _ & ->).
    cbn. exact (eq_sym Hk).
Qed.

(** *** The order of the conversations

    The map holds the conversations in the order in which their first
    message came, and the date of a conversation is the time of that
    message: for a response that is newest first the map is already in
    descending order of the dates, and the stable sort on the dates in
    milliseconds leaves it so. *)

Lemma map_modify_dates (key : string) (usr : uuid) (e : enriched) (m : conversation_map) :
  map (fun kc => Conversation.last_message_date (snd kc))
      (map_modify key (push_message usr e) m)
  = map (fun kc => Conversation.last_message_date (snd kc)) m.
Proof.
  induction m as [|[k v] m IH]; simpl; [reflexivity|].
  destruct (String.eqb k key); simpl; [reflexivity | now rewrite IH].
Qed.

Lemma group_message_dates (usr : uuid) (m : conversation_map) (e : enriched) :
  map (fun kc => Conversation.last_message_date (snd kc)) (group_message usr m e)
  = if map_has (conversationKey usr (row_of e)) m
    then map (fun kc => Conversation.last_message_date (snd kc)) m
    else (map (fun kc => Conversation.last_message_date (snd kc)) m
          ++ [Messages.created_at (row_of e)])%list.
Proof.
  unfold group_message. rewrite map_modify_dates.
  destruct (map_has (conversationKey usr (row_of e)) m); [reflexivity|].
  rewrite map_app. reflexivity.
Qed.

Lemma grouping_dates (usr : uuid) (es : list enriched) :
  StronglySorted (fun a b => Messages.created_at (row_of a) >= Messages.created_at (row_of b))
                 es ->
  let dates := map (fun kc => Conversation.last_message_date (snd kc))
                   (fold_left (group_message usr) es []) in
  StronglySorted (fun a b => a >= b) dates /\
  Forall (fun t => exists e, In e es /\ t = Messages.created_at (row_of e)) dates.
Proof.
  induction es as [|e es IH] using rev_ind; intros Hs.
  - simpl. split; constructor.
  - apply StronglySorted_snoc in Hs. destruct Hs as [Hs Hlast].
    specialize (IH Hs). cbv zeta in IH. destruct IH as [Hsorted Hfrom].
    cbv zeta. rewrite fold_left_app. cbn [fold_left]. rewrite group_message_dates.
    destruct (map_has _ _).
    + split; [exact Hsorted|]. rewrite Forall_forall in *. intros t Ht.
      destruct (Hfrom t Ht) as (e' & He' & ->). exists e'. split; [|reflexivity].
      apply in_or_app. now left.
    + split.
      * apply StronglySorted_snoc. split; [exact Hsorted|].
        rewrite Forall_forall in *. intros t Ht.
        destruct (Hfrom t Ht) as (e' & He' & ->). now apply Hlast.
      * apply Forall_app. split.
        -- rewrite Forall_forall in *. intros t Ht.
           destruct (Hfrom t Ht) as (e' & He' & ->). exists e'. split; [|reflexivity].
           apply in_or_app. now left.
        -- constructor; [|constructor]. exists e. split; [|reflexivity].
           apply in_or_app. right. now left.
Qed.

Lemma getTime_mono (a b : timestamptz) : a <= b -> getTime a <= getTime b.
Proof. intros H. unfold getTime. apply Z.div_le_mono; lia. Qed.

Lemma fetchConversations_order (usr : uuid) (msgs : list Messages.row)
    (I : list item_ref) (P : list profile_ref) :
  newest_first msgs ->
  StronglySorted
    (fun a b => Conversation.last_message_date a >= Conversation.last_message_date b)
    (fetchConversations usr msgs I P).
Proof.
  intros Hnew. unfold fetchConversations.
  assert (Hes : StronglySorted
                  (fun a b => Messages.created_at (row_of a) >= Messages.created_at (row_of b))
                  (map (enrich I P) msgs)).
  { apply StronglySorted_map. exact Hnew. }
  destruct (grouping_dates usr Hes) as [Hdates _].
  set (m := fold_left (group_message usr) (map (enrich I P) msgs) []) in *.
  assert (Hin : StronglySorted
                  (fun a b => Conversation.last_message_date a
                              >= Conversation.last_message_date b)
                  (map snd (map (fun e => (fst e, sort_messages (snd e))) m))).
  { rewrite map_map. cbn [snd]. apply StronglySorted_map.
    apply (StronglySorted_map (fun kc => Conversation.last_message_date (snd kc))
             (fun a b => a >= b)) in Hdates.
    exact Hdates. }
  eapply StronglySorted_weaken;
    [|apply (@array_sort_stable _
               (fun a b => getTime (Conversation.last_message_date b)
                           - getTime (Conversation.last_message_date a))
               (fun c => - getTime (Conversation.last_message_date c))
               (fun a b => ltac:(lia))
               (fun a b => Conversation.last_message_date a
                           >= Conversation.last_message_date b));
      exact Hin].
  intros a b [Hlt|[_ Hge]]; [|exact Hge]. cbn beta in Hlt.
  destruct (Z_le_gt_dec (Conversation.last_message_date a)
                        (Conversation.last_message_date b)) as [Hle|Hgt]; [|lia].
  apply getTime_mono in Hle. lia.
Qed.

Lemma bucket_rows (usr : uuid) (k : string) (msgs : list Messages.row)
    (I : list item_ref) (P : list profile_ref) :
  bucket usr k (map (enrich I P) msgs) =
  map (enrich I P) (filter (fun m => String.eqb (conversationKey usr m) k) msgs).
Proof.
  unfold bucket. induction msgs as [|m msgs IH]; simpl; [reflexivity|].
  destruct (String.eqb (conversationKey usr m) k); simpl; now rewrite IH.
Qed.

Lemma map_row_of_enrich (I : list item_ref) (P : list profile_ref) (l : list Messages.row) :
  map row_of (map (enrich I P) l) = l.
Proof. rewrite map_map. simpl. apply map_id. Qed.

Lemma sorted_head_is_latest (l : list Messages.row) (m0 : Messages.row)
    (rest : list Messages.row) (f : Messages.row -> bool) :
  newest_first l -> filter f l = m0 :: rest ->
  Forall (fun m => Messages.created_at m <= Messages.created_at m0) (m0 :: rest).
Proof.
  intros Hs Hf. pose proof (StronglySorted_filter_keep f Hs) as Hsf. rewrite Hf in Hsf.
  inv Hsf. constructor; [lia|]. rewrite Forall_forall in *. intros y Hy.
  match goal with H : forall x, In x rest -> _ |- _ => specialize (H y Hy) end. lia.
Qed.

Lemma response_rows (usr : uuid) (d : db) (msgs : list Messages.row) (m : Messages.row) :
  messages_response usr d msgs ->
  (In m msgs <-> In m (messages d) /\ involves usr m = true).
Proof.
  intros [Hperm _]. rewrite <- filter_In. split; apply Permutation_in; [|symmetry]; exact Hperm.
Qed.



(** * Instances on the sample data *)

Lemma claimed_db_reachable : reachable claimed_db.
Proof.
  apply (@reachable_exec (Some bob) (InsertClaim bobs_claim) sample_db);
    [exact sample_db_reachable | vm_compute; reflexivity].
Qed.

(** Alice, who owns the backpack and is no admin, approves Bob's claim: the
    claim is approved and success is reported, but the backpack stays
    active. *)
Lemma owner_approval_leaves_item_active :
  reachable claimed_db /\
  In bobs_claim (claims claimed_db) /\
  find_item claimed_db (Claims.item_id bobs_claim) = Some blue_backpack /\
  Items.user_id blue_backpack = alice /\
  snd (updateClaimStatus (Some alice) [bobs_claim] (Claims.id bobs_claim) approved
         false false claimed_db) = ToastSuccess /\
  map Claims.status
      (claims (fst (updateClaimStatus (Some alice) [bobs_claim] (Claims.id bobs_claim)
                      approved false false claimed_db)))
  = [Some approved] /\
  option_map Items.status
    (find_item (fst (updateClaimStatus (Some alice) [bobs_claim] (Claims.id bobs_claim)
                       approved false false claimed_db))
               (Claims.item_id bobs_claim))
  = Some (Some active).
Proof.
  split; [exact claimed_db_reachable|]. split; [now left|].
  repeat split; vm_compute; reflexivity.
Qed.

Lemma message_insert_creates_one_notification_witness :
  exists d',
    insert_message (Some bob) 200 "30000000-0000-4000-8000-000000000001"
      "40000000-0000-4000-8000-000000000001" bob alice backpack "Is it still there?"
      sample_db = Ok d' /\
    exists n it,
      messages d' =
        (messages sample_db
         ++ [Messages.mk "30000000-0000-4000-8000-000000000001" bob alice backpack
               "Is it still there?" false 200 200])%list /\
      notifications d' = (notifications sample_db ++ [n])%list /\
      Notifications.user_id n = alice /\
      Notifications.type n = "message" /\
      find_item sample_db backpack = Some it /\
      Notifications.message n = titled_message_body (Items.title it) /\
      includes (Items.title it) (Notifications.message n).
Proof.
  eexists. split; [vm_compute; reflexivity|].
  apply (proj1 message_insert_creates_one_notification (Some bob) 200
           "30000000-0000-4000-8000-000000000001" "40000000-0000-4000-8000-000000000001"
           bob alice backpack "Is it still there?" sample_db).
  vm_compute. reflexivity.
Defined.

Lemma registration_derives_handle_witness :
  exists d1 d2 p1 p2,
    sign_up 1 john_by_username empty_db = Ok d1 /\
    sign_up 2 john_by_email d1 = Ok d2 /\
    profiles d2 = (profiles empty_db ++ [p1; p2])%list /\
    Profiles.username p1 = "johnsmith" /\
    Profiles.username p2 = "johnsmith1".
Proof.
  apply (proj2 registration_derives_handle 1 2 john_by_username john_by_email empty_db).
  - vm_compute. reflexivity.
  - vm_compute. reflexivity.
  - reflexivity.
  - reflexivity.
  - split; reflexivity.
  - split; reflexivity.
  - vm_compute. discriminate.
Defined.

Lemma one_claim_per_item_and_claimant_witness :
  createClaim (Some bob) backpack (Some "Mine, again") 120
    "20000000-0000-4000-8000-000000000002" "40000000-0000-4000-8000-000000000002"
    false false false false claimed_db
  = (claimed_db, ToastAlreadyClaimed) /\
  createClaim (Some bob) backpack (Some "Mine, again") 120
    "20000000-0000-4000-8000-000000000002" "40000000-0000-4000-8000-000000000002"
    true false false false claimed_db
  = (claimed_db, ToastError).
Proof.
  assert (In bobs_claim (claims claimed_db)) as Hin by (simpl; left; reflexivity).
  split.
  - apply (proj1 (proj2 (proj2 (@one_claim_per_item_and_claimant claimed_db
                                  claimed_db_reachable))
                    bob backpack (Some "Mine, again") 120
                    "20000000-0000-4000-8000-000000000002"
                    "40000000-0000-4000-8000-000000000002"
                    false false false false bobs_claim Hin eq_refl eq_refl)).
    reflexivity.
  - apply (proj1 (proj2 (proj2 (proj2 (@one_claim_per_item_and_claimant claimed_db
                                         claimed_db_reachable))
                           bob backpack (Some "Mine, again") 120
                           "20000000-0000-4000-8000-000000000002"
                           "40000000-0000-4000-8000-000000000002"
                           true false false false bobs_claim Hin eq_refl eq_refl))
             eq_refl "Mine, again" eq_refl).
    discriminate.
Defined.

Lemma approval_marks_item_claimed_witness :
  Forall (fun it => Items.id it = backpack -> Items.status it = Some claimed)
         (items (fst (updateClaimStatus (Some carol) [bobs_claim] (Claims.id bobs_claim)
                        approved false false claimed_db))).
Proof.
  assert (H := proj1 approval_marks_item_claimed (Some carol) [bobs_claim]
                 (Claims.id bobs_claim) false claimed_db bobs_claim bobs_claim).
  assert (is_admin claimed_db (Some carol) = true) as Hadmin by (vm_compute; reflexivity).
  assert (In bobs_claim (claims claimed_db)) as Hin by (simpl; left; reflexivity).
  assert (find (fun x => String.eqb (Claims.id x) (Claims.id bobs_claim)) [bobs_claim]
          = Some bobs_claim) as Hcached by (vm_compute; reflexivity).
  specialize (H Hadmin Hin eq_refl Hcached eq_refl). cbv zeta in H.
  destruct H as (_ & _ & (_ & Hitems & _)). apply Forall_forall. exact Hitems.
Defined.

Lemma client_keeps_kind_and_status_witness :
  Forall status_defined (items (run_ops sample_ops sample_db)) /\
  (forall it',
      In it' (items (run_ops sample_ops sample_db)) ->
      Items.id it' = Items.id blue_backpack ->
      Items.type it' = found).
Proof.
  assert (NoDup (map Items.id (items sample_db))) as Hids
    by (simpl; repeat constructor; simpl; intuition discriminate).
  assert (Forall status_defined (items sample_db)) as Hdefined
    by (repeat constructor; unfold status_defined; simpl; auto).
  destruct (@client_keeps_kind_and_status sample_ops sample_db Hids Hdefined)
    as [Hstatus Hkind].
  split; [exact Hstatus|]. intros it' Hin Hid.
  apply (Hkind blue_backpack it'); [simpl; auto | exact Hin | exact Hid |].
  repeat constructor.
Defined.


Lemma suffix_loop_terminates_with_free_handle_witness :
  exists final,
    final_username sample_db "alice" = Ok final /\
    username_taken sample_db final = false /\
    ~ In final (map Profiles.username (profiles sample_db)) /\
    exists fuel, forall extra,
        unique_loop (fuel + extra) sample_db "alice" "alice" 1 = Some (Ok final).
Proof.
  apply (@suffix_loop_terminates_with_free_handle sample_db "alice").
  vm_compute. reflexivity.
Defined.

Lemma failed_claim_insert_changes_nothing_witness :
  fst (createClaim (Some carol) backpack (Some "Mine") 120
         "20000000-0000-4000-8000-000000000002" "40000000-0000-4000-8000-000000000002"
         false false true false sample_db) = sample_db /\
  snd (createClaim (Some carol) backpack (Some "Mine") 120
         "20000000-0000-4000-8000-000000000002" "40000000-0000-4000-8000-000000000002"
         false false true false sample_db) <> ToastSuccess.
Proof.
  apply (@failed_claim_insert_changes_nothing carol backpack "Mine" 120
           "20000000-0000-4000-8000-000000000002" "40000000-0000-4000-8000-000000000002"
           false false true false sample_db transport_error).
  reflexivity.
Defined.

(** * Further properties of the modelled code *)

(** ** Registration: shape of the handle, and when it succeeds *)

Lemma uint_text_digits (u : Decimal.uint) :
  digits_text (NilEmpty.string_of_uint u).
Proof.
  unfold digits_text.
  induction u; simpl; try constructor; try reflexivity; assumption.
Qed.

Lemma text_of_int_digits (z : Z) : 0 <= z -> digits_text (text_of_int z).
Proof.
  intros Hz. unfold text_of_int. destruct z as [|p|p]; [| |lia].
  - repeat constructor.
  - simpl. unfold NilZero.string_of_uint.
    destruct (Pos.to_uint p) eqn:Hp; try (rewrite <- Hp; apply uint_text_digits).
    repeat constructor.
Qed.

Lemma digit_is_handle_char (ch : ascii) : digit_char ch = true -> handle_char ch = true.
Proof.
  unfold digit_char, handle_char. intros H. rewrite H. now rewrite orb_true_r.
Qed.

Lemma list_ascii_of_append (a b : string) :
  list_ascii_of_string (a ++ b) = (list_ascii_of_string a ++ list_ascii_of_string b)%list.
Proof. induction a as [|x a IH]; simpl; [reflexivity | now rewrite IH]. Qed.

Lemma string_length_list (a : string) :
  String.length a = List.length (list_ascii_of_string a).
Proof. induction a as [|x a IH]; simpl; [reflexivity | now rewrite IH]. Qed.

Lemma In_firstn {A : Type} (n : nat) (l : list A) (x : A) : In x (firstn n l) -> In x l.
Proof.
  revert l. induction n as [|n IH]; intros [|a l]; simpl; try contradiction.
  intros [->|H]; auto.
Qed.

Lemma spec_candidate_shape (source : string) :
  handle_text (spec_candidate source) /\ (String.length (spec_candidate source) <= 20)%nat.
Proof.
  unfold handle_text, spec_candidate.
  rewrite string_length_list, list_ascii_of_string_of_list_ascii. split.
  - apply Forall_forall. intros ch Hch. apply In_firstn, filter_In in Hch. tauto.
  - apply firstn_le_length.
Qed.

(** X1. The handle given at registration is a base of at most 20 characters
    followed by a possibly empty run of decimal digits, and every one of
    its characters is in [a-z0-9_]. *)
Theorem registered_handle_shape :
  forall now NEW d d',
    sign_up now NEW d = Ok d' ->
    exists p base suffix,
      profiles d' = (profiles d ++ [p])%list /\
      Profiles.username p = (base ++ suffix)%string /\
      base = base_username NEW /\
      (String.length base <= 20)%nat /\
      handle_text base /\
      digits_text suffix /\
      handle_text (Profiles.username p).
Proof.
  intros now NEW d d' H. apply sign_up_inv in H. destruct H as (final & Hfinal & ->).
  pose proof (final_username_spec d (base_username NEW)) as Hspec.
  rewrite Hfinal in Hspec. destruct Hspec as (k & Hk & Hf & _).
  destruct (spec_candidate_shape (handle_source NEW)) as [Hchars Hlen].
  rewrite <- base_username_spec in Hchars, Hlen.
  assert (Hsuffix : exists suffix, final = (base_username NEW ++ suffix)%string
                                   /\ digits_text suffix).
  { unfold candidate in Hf. destruct (k =? 0).
    - exists EmptyString. split; [now rewrite string_app_nil_r | constructor].
    - exists (text_of_int k). split; [exact Hf | apply text_of_int_digits; lia]. }
  destruct Hsuffix as (suffix & Hfs & Hdigits).
  eexists. exists (base_username NEW), suffix.
  cbn [profiles Profiles.username].
  split; [reflexivity|]. split; [exact Hfs|]. split; [reflexivity|].
  split; [exact Hlen|]. split; [exact Hchars|]. split; [exact Hdigits|].
  cbn [Profiles.username]. unfold handle_text in *.
  rewrite Hfs, list_ascii_of_append. apply Forall_app. split.
  - exact Hchars.
  - unfold digits_text in Hdigits. rewrite Forall_forall in *. intros ch Hch.
    apply digit_is_handle_char. now apply Hdigits.
Qed.

(** X2. A registration under an account id not yet in use goes through
    whenever the profile table has fewer than 2^31 - 1 rows, whatever the
    email and the metadata are. *)
Theorem registration_succeeds :
  forall now NEW d,
    unused_id d (Users.id NEW) ->
    Z.of_nat (List.length (profiles d)) < int4_max ->
    exists d', sign_up now NEW d = Ok d' /\
               users d' = (users d ++ [NEW])%list /\
               List.length (profiles d') = S (List.length (profiles d)).
Proof.
  intros now NEW d Hid Hsmall.
  pose proof (final_username_spec d (base_username NEW)) as Hspec.
  destruct (final_username d (base_username NEW)) as [final|e] eqn:Hfinal.
  - destruct Hspec as (j & _ & _ & Hfree & _).
    eexists. split; [apply (sign_up_succeeds now NEW Hid Hfinal Hfree)|].
    cbn [users profiles]. split; [reflexivity|]. rewrite length_app. simpl. lia.
  - exfalso. destruct Hspec as (_ & Hall).
    assert (S (List.length (profiles d)) <= List.length (profiles d))%nat; [|lia].
    apply candidates_pigeonhole with (base := base_username NEW).
    intros j Hj. apply Hall. lia.
Qed.

(** ** Keys and references in reachable states *)

Section UniqueIndex.
Variables (A K : Type) (key : A -> K) (same : K -> K -> bool).
Hypothesis same_eq : forall a b, same a b = true <-> a = b.

Lemma same_refl (k : K) : same k k = true.
Proof. now apply same_eq. Qed.

Lemma key_count_zero (k : K) (l : list A) :
  key_count key same k l = 0%nat <-> ~ In k (map key l).
Proof.
  unfold key_count. induction l as [|a l IH]; simpl; [tauto|].
  destruct (same (key a) k) eqn:E; simpl.
  - apply same_eq in E. split; [discriminate | intros H; exfalso; apply H; now left].
  - rewrite IH. split; [intros H [Ha|Hl] | intros H Hl]; auto.
    subst k. now rewrite same_refl in E.
Qed.

Lemma key_count_pos (r : A) (l : list A) : In r l -> (1 <= key_count key same (key r) l)%nat.
Proof.
  intros Hin. destruct (key_count key same (key r) l) eqn:E; [|lia].
  apply key_count_zero in E. exfalso. apply E. now apply in_map.
Qed.

Lemma NoDup_key_count (l : list A) :
  NoDup (map key l) <-> (forall r, In r l -> key_count key same (key r) l = 1%nat).
Proof.
  induction l as [|a l IH]; simpl.
  - split; [intros _ r [] | constructor].
  - rewrite NoDup_cons_iff, IH. split.
    + intros [Hnot Hall] r [<-|Hr]; unfold key_count in *; simpl.
      * rewrite same_refl. simpl. f_equal. now apply key_count_zero.
      * destruct (same (key a) (key r)) eqn:E; [|now apply Hall].
        apply same_eq in E. exfalso. apply Hnot. rewrite E. now apply in_map.
    + intros H. assert (Ha := H a (or_introl eq_refl)).
      unfold key_count in Ha. simpl in Ha. rewrite same_refl in Ha. simpl in Ha.
      assert (~ In (key a) (map key l)) as Hnot.
      { apply key_count_zero. unfold key_count. lia. }
      split; [exact Hnot|]. intros r Hr. specialize (H r (or_intror Hr)).
      unfold key_count in *. simpl in H.
      destruct (same (key a) (key r)) eqn:E; [|exact H].
      apply same_eq in E. exfalso. apply Hnot. rewrite E. now apply in_map.
Qed.

(** Rows rewritten in place keep a unique index sound when every rewritten
    key occurs once in the new table. *)
Lemma NoDup_key_rewrite (hit : A -> bool) (w : A -> A) (l : list A) :
  NoDup (map key l) ->
  (forall r, In r l -> hit r = true ->
             key_count key same (key (w r)) (map (fun x => if hit x then w x else x) l) = 1%nat) ->
  NoDup (map key (map (fun x => if hit x then w x else x) l)).
Proof.
  intros Hnd Hguard. set (table := map (fun x => if hit x then w x else x) l) in *.
  apply NoDup_key_count. intros r' Hr'.
  unfold table in Hr'. apply in_map_iff in Hr'. destruct Hr' as (r & <- & Hr).
  destruct (hit r) eqn:Hhit; [now apply Hguard|].
  destruct (existsb (fun x => hit x && same (key (w x)) (key r)) l) eqn:Hex.
  - apply existsb_exists in Hex. destruct Hex as (x & Hx & Hboth).
    apply andb_true_iff in Hboth. destruct Hboth as [Hhx Hkx]. apply same_eq in Hkx.
    rewrite <- Hkx. now apply Hguard.
  - assert (key_count key same (key r) table <= key_count key same (key r) l)%nat as Hle.
    { clear Hr Hnd Hguard Hhit. unfold table, key_count.
      induction l as [|a l IH]; simpl; [lia|]. simpl in Hex.
      apply orb_false_iff in Hex. destruct Hex as [Ha Hl]. specialize (IH Hl).
      destruct (hit a) eqn:Hhita; simpl in Ha.
      - rewrite Ha. destruct (same (key a) (key r)); simpl; lia.
      - destruct (same (key a) (key r)); simpl; lia. }
    assert (key_count key same (key r) l = 1%nat) as H1 by (now apply NoDup_key_count).
    assert (In r table) as Hin.
    { unfold table. apply in_map_iff. exists r. now rewrite Hhit. }
    apply key_count_pos in Hin. lia.
Qed.
End UniqueIndex.

Lemma existsb_key_In {A : Type} (f : A -> string) (k : string) (l : list A) :
  existsb (fun r => String.eqb (f r) k) l = true <-> In k (map f l).
Proof.
  rewrite existsb_exists, in_map_iff. split; intros (r & H1 & H2).
  - exists r. split; [now apply String.eqb_eq | exact H1].
  - exists r. split; [exact H2 | now apply String.eqb_eq].
Qed.

Lemma existsb_key_fresh {A : Type} (f : A -> string) (k : string) (l : list A) :
  existsb (fun r => String.eqb (f r) k) l = false -> ~ In k (map f l).
Proof. intros H Hin. apply existsb_key_In in Hin. congruence. Qed.

Lemma NoDup_map_filter {A B : Type} (f : A -> B) (g : A -> bool) (l : list A) :
  NoDup (map f l) -> NoDup (map f (filter g l)).
Proof.
  induction l as [|a l IH]; simpl; [auto|]. rewrite NoDup_cons_iff. intros [Hnot Hnd].
  destruct (g a); simpl; [|auto]. constructor; [|auto].
  intros Hin. apply Hnot. apply in_map_iff in Hin. destruct Hin as (r & <- & Hr).
  apply filter_In in Hr. apply in_map. tauto.
Qed.

Lemma NoDup_map_snoc {A : Type} (f : A -> string) (l : list A) (x : A) :
  NoDup (map f l) ->
  existsb (fun r => String.eqb (f r) (f x)) l = false ->
  NoDup (map f (l ++ [x])).
Proof.
  intros Hnd Hfresh. rewrite map_app. apply NoDup_snoc; [exact Hnd|].
  now apply existsb_key_fresh.
Qed.

Lemma map_key_patched {A B : Type} (f : A -> B) (hit : A -> bool) (w : A -> A) (l : list A) :
  (forall r, f (w r) = f r) ->
  map f (map (fun r => if hit r then w r else r) l) = map f l.
Proof.
  intros Hw. rewrite map_map. apply map_ext. intros r. now destruct (hit r).
Qed.

(** *** What a successful statement has checked *)

Lemma sign_up_guards now NEW d d' :
  sign_up now NEW d = Ok d' -> unused_id d (Users.id NEW).
Proof.
  unfold sign_up, handle_new_user. intros H. unguard H.
  destruct (final_username _ (base_username NEW)) as [final|e]; [|discriminate].
  cbn [bind] in H. unfold insert_profile_row in H. unguard H.
  split; now apply negb_true_iff.
Qed.

Lemma insert_item_inv c returning r d d' :
  insert_item c returning r d = Ok d' ->
  d' = set_items d (items d ++ [r])%list /\
  existsb (fun i => String.eqb (Items.id i) (Items.id r)) (items d) = false /\
  user_exists d (Items.user_id r) = true.
Proof.
  unfold insert_item. intros H. unguard H. inv H.
  repeat split; auto; now apply negb_true_iff.
Qed.

Lemma insert_notification_row_inv r d d' :
  insert_notification_row r d = Ok d' ->
  d' = set_notifications d (notifications d ++ [r])%list /\
  existsb (fun n => String.eqb (Notifications.id n) (Notifications.id r)) (notifications d)
  = false /\
  user_exists d (Notifications.user_id r) = true.
Proof.
  unfold insert_notification_row. intros H. unguard H. inv H.
  repeat split; auto; now apply negb_true_iff.
Qed.

Lemma find_item_exists (d : db) (i : uuid) :
  (match find_item d i with Some _ => true | None => false end) = item_exists d i.
Proof.
  unfold find_item, item_exists. induction (items d) as [|a l IH]; simpl; [reflexivity|].
  destruct (String.eqb (Items.id a) i); simpl; [reflexivity | exact IH].
Qed.

Lemma insert_claim_references c r d d' :
  insert_claim c r d = Ok d' ->
  item_exists d (Claims.item_id r) = true /\ user_exists d (Claims.claimant_id r) = true.
Proof.
  unfold insert_claim. rewrite find_item_exists. intros H. unguard H. auto.
Qed.

Lemma insert_message_inv c now new_id notif_id sender recipient item body d d' :
  insert_message c now new_id notif_id sender recipient item body d = Ok d' ->
  exists n,
    d' = set_notifications
           (set_messages d
              (messages d ++ [Messages.mk new_id sender recipient item body false now now])%list)
           (notifications d ++ [n])%list /\
    Notifications.id n = notif_id /\
    Notifications.user_id n = recipient /\
    c = Some sender /\
    existsb (fun m => String.eqb (Messages.id m) new_id) (messages d) = false /\
    existsb (fun x => String.eqb (Notifications.id x) notif_id) (notifications d) = false /\
    user_exists d sender = true /\ user_exists d recipient = true /\
    item_exists d item = true.
Proof.
  unfold insert_message. rewrite find_item_exists. intros H. unguard H.
  unfold create_message_notification in H.
  apply insert_notification_row_inv in H. destruct H as (-> & Hfresh & _).
  eexists. split; [reflexivity|]. cbn [Notifications.id Notifications.user_id] in *.
  match goal with Hs : (user_exists d sender && user_exists d recipient)%bool = true |- _ =>
    apply andb_true_iff in Hs; destruct Hs end.
  match goal with Hc : uid_is c sender = true |- _ =>
    unfold uid_is in Hc; destruct c as [v|]; [apply String.eqb_eq in Hc; subst v | discriminate]
  end.
  repeat split; auto. now apply negb_true_iff.
Qed.

Lemma update_items_owner c item p d d' u :
  update_items c item p d = Ok d' ->
  set_user_id p = Some u ->
  forall r, In r (items d) -> items_update_hit d c item r = true -> user_exists d u = true.
Proof.
  unfold update_items. intros H Hp r Hr Hhit. rewrite Hp in H. unguard H.
  match goal with Hg : (negb _ || user_exists d u)%bool = true |- _ =>
    apply orb_true_iff in Hg; destruct Hg as [Hg|Hg]; [|exact Hg];
    apply negb_true_iff in Hg end.
  assert (existsb (items_update_hit d c item) (items d) = true) as Hex
    by (apply existsb_exists; eauto).
  congruence.
Qed.

Lemma update_claims_references c claim p d d' :
  update_claims c claim p d = Ok d' ->
  touches_claim_key p = true ->
  forall r, In r (claims d) -> claims_update_hit d c claim r = true ->
            item_exists d (Claims.item_id (apply_claims_patch p r)) = true /\
            user_exists d (Claims.claimant_id (apply_claims_patch p r)) = true.
Proof.
  unfold update_claims. intros H Ht r Hr Hhit. rewrite Ht in H.
  unfold bind, guard in H. cbn [negb orb] in H.
  destruct (forallb _ (claims d)); [|discriminate].
  destruct (forallb _ (claims d)) eqn:Hfk; [|discriminate].
  rewrite forallb_forall in Hfk. specialize (Hfk r Hr). rewrite Hhit in Hfk.
  cbn [negb orb] in Hfk. rewrite find_item_exists in Hfk.
  now apply andb_true_iff in Hfk.
Qed.

Lemma update_profiles_inv c profile p d d' :
  update_profiles c profile p d = Ok d' ->
  exists hit : Profiles.row -> bool,
    d' = set_profiles d
           (map (fun r => if hit r then apply_profiles_patch p r else r) (profiles d)) /\
    (forall r, hit r = true -> Profiles.id r = profile /\ c = Some profile) /\
    (forall u, set_username p = Some u ->
               forall r, In r (profiles d) -> hit r = true ->
                         key_count Profiles.username String.eqb u
                           (map (fun r => if hit r then apply_profiles_patch p r else r)
                                (profiles d)) = 1%nat).
Proof.
  unfold update_profiles. intros H.
  exists (fun r => String.eqb (Profiles.id r) profile && uid_is c (Profiles.id r)).
  unfold bind, guard in H.
  destruct (match set_username p with Some _ => _ | None => true end) eqn:Hguard;
    [|discriminate].
  inv H. split; [reflexivity|]. split.
  - intros r Hr. apply andb_true_iff in Hr. destruct Hr as [Hid Hc].
    apply String.eqb_eq in Hid. split; [exact Hid|].
    unfold uid_is in Hc. destruct c as [v|]; [|discriminate].
    apply String.eqb_eq in Hc. congruence.
  - intros u Hu r Hr Hhit. rewrite Hu in Hguard. rewrite forallb_forall in Hguard.
    specialize (Hguard r Hr). cbv beta in Hhit. rewrite Hhit in Hguard.
    cbn [negb orb] in Hguard. apply Nat.eqb_eq in Hguard. exact Hguard.
Qed.

Ltac tables :=
  cbn [users profiles items claims notifications messages
       set_profiles set_items set_claims set_notifications set_messages delete_account].

Lemma exec_keeps_primary_keys (c : caller) (s : statement) (d d' : db) :
  exec c s d = Ok d' -> primary_keys d -> primary_keys d'.
Proof.
  unfold primary_keys. intros H (Hu & Hp & Hi & Hc & Hn & Hm).
  destruct s; cbn [exec] in H.
  - pose proof (sign_up_guards _ _ _ H) as [Hfresh Hpfresh].
    apply sign_up_inv in H. destruct H as (final & _ & ->). tables.
    repeat split; try assumption.
    + apply NoDup_map_snoc; assumption.
    + apply NoDup_map_snoc; assumption.
  - inv H. tables. repeat split; now apply NoDup_map_filter.
  - apply update_profiles_inv in H. destruct H as (hit & -> & _). tables.
    repeat split; try assumption. now rewrite map_key_patched.
  - apply insert_item_inv in H. destruct H as (-> & Hfresh & _). tables.
    repeat split; try assumption. now apply NoDup_map_snoc.
  - apply update_items_inv in H. subst d'. tables. unfold items_updated.
    repeat split; try assumption. now rewrite map_key_patched.
  - unfold delete_items in H. inv H. tables.
    repeat split; try assumption; now apply NoDup_map_filter.
  - apply insert_claim_inv in H. destruct H as (-> & _ & _ & Hfresh). tables.
    repeat split; try assumption. now apply NoDup_map_snoc.
  - apply update_claims_items in H. subst d'. tables. unfold claims_updated.
    repeat split; try assumption. now rewrite map_key_patched.
  - unfold delete_claims in H. inv H. tables.
    repeat split; try assumption. now apply NoDup_map_filter.
  - apply insert_message_inv in H.
    destruct H as (n & -> & Hnid & _ & _ & Hmfresh & Hnfresh & _). tables.
    repeat split; try assumption.
    + apply NoDup_map_snoc; [assumption|]. now rewrite Hnid.
    + now apply NoDup_map_snoc.
  - unfold mark_messages_read in H. inv H. tables.
    repeat split; try assumption. now rewrite map_key_patched.
  - unfold insert_notification in H. unguard H.
    apply insert_notification_row_inv in H. destruct H as (-> & Hfresh & _). tables.
    repeat split; try assumption. now apply NoDup_map_snoc.
  - unfold mark_notifications_read in H. inv H. tables.
    repeat split; try assumption. now rewrite map_key_patched.
Qed.

(** X3. In every reachable state the primary keys hold: no two accounts,
    profiles, items, claims, notifications or messages share an id. *)
Theorem reachable_primary_keys :
  forall d, reachable d -> primary_keys d.
Proof.
  induction 1 as [|c s d d' _ IH Hexec].
  - unfold primary_keys. simpl. repeat split; constructor.
  - eapply exec_keeps_primary_keys; eauto.
Qed.

Lemma map_filter_key {A : Type} (f : A -> string) (u : string) (l : list A) :
  map f (filter (fun r => negb (String.eqb (f r) u)) l) =
  filter (fun k => negb (String.eqb k u)) (map f l).
Proof.
  induction l as [|a l IH]; simpl; [reflexivity|].
  destruct (String.eqb (f a) u); simpl; now rewrite IH.
Qed.

Lemma exec_keeps_profiles (c : caller) (s : statement) (d d' : db) :
  exec c s d = Ok d' ->
  map Profiles.id (profiles d) = map Users.id (users d)
  /\ NoDup (map Profiles.username (profiles d)) ->
  map Profiles.id (profiles d') = map Users.id (users d')
  /\ NoDup (map Profiles.username (profiles d')).
Proof.
  intros H [Hids Hnames]. destruct s; cbn [exec] in H.
  - pose proof (sign_up_inv _ _ _ H) as (final & Hfinal & ->). tables.
    pose proof (final_username_spec d (base_username NEW)) as Hspec.
    rewrite Hfinal in Hspec. destruct Hspec as (j & _ & _ & Hfree & _).
    split.
    + rewrite !map_app, Hids. reflexivity.
    + apply NoDup_map_snoc; assumption.
  - inv H. tables. split.
    + rewrite !map_filter_key. f_equal. exact Hids.
    + now apply NoDup_map_filter.
  - apply update_profiles_inv in H. destruct H as (hit & -> & _ & Hunique). tables.
    split; [now rewrite map_key_patched|].
    destruct (set_username p) as [u|] eqn:Hu.
    + apply (NoDup_key_rewrite Profiles.username String.eqb String.eqb_eq);
        [exact Hnames|].
      intros r Hr Hhit.
      replace (Profiles.username (apply_profiles_patch p r)) with u
        by (unfold apply_profiles_patch; simpl; now rewrite Hu).
      now apply (Hunique u eq_refl r).
    + rewrite map_key_patched; [exact Hnames|].
      intros r. unfold apply_profiles_patch. simpl. now rewrite Hu.
  - apply insert_item_inv in H. destruct H as (-> & _). now split.
  - apply update_items_inv in H. subst d'. now split.
  - unfold delete_items in H. inv H. now split.
  - apply insert_claim_inv in H. destruct H as (-> & _). now split.
  - apply update_claims_items in H. subst d'. now split.
  - unfold delete_claims in H. inv H. now split.
  - apply insert_message_inv in H. destruct H as (n & -> & _). now split.
  - unfold mark_messages_read in H. inv H. now split.
  - unfold insert_notification in H. unguard H.
    apply insert_notification_row_inv in H. destruct H as (-> & _). now split.
  - unfold mark_notifications_read in H. inv H. now split.
Qed.

(** X4. In every reachable state each account has exactly one profile row
    (the profile ids are the account ids, in the same order) and no two
    profiles have the same handle. *)
Theorem reachable_one_profile_per_account :
  forall d,
    reachable d ->
    map Profiles.id (profiles d) = map Users.id (users d) /\
    NoDup (map Profiles.username (profiles d)).
Proof.
  induction 1 as [|c s d d' _ IH Hexec].
  - simpl. split; [reflexivity | constructor].
  - eapply exec_keeps_profiles; eauto.
Qed.

(** *** References *)

Lemma exists_after_delete {A : Type} (f : A -> string) (g : A -> bool) (k : string)
    (l : list A) :
  existsb (fun r => String.eqb (f r) k) l = true ->
  (forall r, In r l -> f r = k -> g r = true) ->
  existsb (fun r => String.eqb (f r) k) (filter g l) = true.
Proof.
  intros Hex Hg. apply existsb_exists in Hex. destruct Hex as (r & Hr & Hk).
  apply existsb_exists. exists r. split; [|exact Hk].
  apply filter_In. split; [exact Hr|]. apply Hg; [exact Hr|]. now apply String.eqb_eq.
Qed.

Lemma exists_after_patch {A : Type} (f : A -> string) (hit : A -> bool) (w : A -> A)
    (k : string) (l : list A) :
  (forall r, f (w r) = f r) ->
  existsb (fun r => String.eqb (f r) k) (map (fun r => if hit r then w r else r) l)
  = existsb (fun r => String.eqb (f r) k) l.
Proof.
  intros Hw. induction l as [|a l IH]; simpl; [reflexivity|]. rewrite IH.
  destruct (hit a); [now rewrite Hw | reflexivity].
Qed.

Lemma exists_after_insert {A : Type} (g : A -> bool) (l : list A) (x : A) :
  existsb g l = true -> existsb g (l ++ [x]) = true.
Proof. intros H. now rewrite existsb_app, H. Qed.

Ltac ri_open H :=
  unfold referential_integrity in H;
  destruct H as (Hp & Hi & Hc & Hn & Hm);
  rewrite Forall_forall in Hp, Hi, Hc, Hn, Hm.

Ltac ri_goal :=
  unfold referential_integrity; rewrite !Forall_forall;
  unfold user_exists, item_exists in *; tables.

Lemma exec_keeps_references (c : caller) (s : statement) (d d' : db) :
  exec c s d = Ok d' -> referential_integrity d -> referential_integrity d'.
Proof.
  intros H Hri. ri_open Hri. destruct s; cbn [exec] in H.
  - (* sign up *)
    apply sign_up_inv in H. destruct H as (final & _ & ->). ri_goal.
    repeat split.
    + intros p Hin. apply in_app_or in Hin. destruct Hin as [Hin|[<-|[]]].
      * apply exists_after_insert. now apply Hp.
      * cbn [Profiles.id]. rewrite existsb_app. simpl.
        now rewrite String.eqb_refl, orb_true_r.
    + intros i Hin. apply exists_after_insert. now apply Hi.
    + now apply Hc.
    + apply exists_after_insert. now apply Hc.
    + intros n Hin. apply exists_after_insert. now apply Hn.
    + apply exists_after_insert. now apply Hm.
    + apply exists_after_insert. now apply Hm.
    + now apply Hm.
  - (* account removal *)
    inv H. ri_goal.
    assert (Huser : forall v, String.eqb v u = false ->
              existsb (fun r => String.eqb (Users.id r) v) (users d) = true ->
              existsb (fun r => String.eqb (Users.id r) v)
                (filter (fun r => negb (String.eqb (Users.id r) u)) (users d)) = true).
    { intros v Hv Hex. apply exists_after_delete; [exact Hex|].
      intros r _ ->. now rewrite Hv. }
    assert (Hitem : forall i,
              existsb (fun r => String.eqb (Items.id r) i && String.eqb (Items.user_id r) u)
                      (items d) = false ->
              existsb (fun r => String.eqb (Items.id r) i) (items d) = true ->
              existsb (fun r => String.eqb (Items.id r) i)
                (filter (fun r => negb (String.eqb (Items.user_id r) u)) (items d)) = true).
    { intros i Hgone Hex. apply exists_after_delete; [exact Hex|].
      intros r Hr Hid. apply negb_true_iff.
      destruct (String.eqb (Items.user_id r) u) eqn:Ho; [|reflexivity].
      assert (existsb (fun r => String.eqb (Items.id r) i && String.eqb (Items.user_id r) u)
                      (items d) = true) as Hex2; [|congruence].
      apply existsb_exists. exists r. split; [exact Hr|].
      rewrite Ho, andb_true_r. now apply String.eqb_eq. }
    repeat split.
    + intros p Hin. apply filter_In in Hin. destruct Hin as [Hin Hne].
      apply negb_true_iff in Hne. apply Huser; [exact Hne | now apply Hp].
    + intros i Hin. apply filter_In in Hin. destruct Hin as [Hin Hne].
      apply negb_true_iff in Hne. apply Huser; [exact Hne | now apply Hi].
    + apply filter_In in H. destruct H as [Hin Hne].
      apply negb_true_iff, orb_false_iff in Hne. destruct Hne as [_ Hgone].
      apply Hitem; [exact Hgone | now apply Hc].
    + apply filter_In in H. destruct H as [Hin Hne].
      apply negb_true_iff, orb_false_iff in Hne. destruct Hne as [Hne _].
      apply Huser; [exact Hne | now apply Hc].
    + intros n Hin. apply filter_In in Hin. destruct Hin as [Hin Hne].
      apply negb_true_iff in Hne. apply Huser; [exact Hne | now apply Hn].
    + apply filter_In in H. destruct H as [Hin Hne].
      apply negb_true_iff, orb_false_iff in Hne. destruct Hne as [Hne _].
      apply orb_false_iff in Hne. destruct Hne as [Hne _].
      apply Huser; [exact Hne | now apply Hm].
    + apply filter_In in H. destruct H as [Hin Hne].
      apply negb_true_iff, orb_false_iff in Hne. destruct Hne as [Hne _].
      apply orb_false_iff in Hne. destruct Hne as [_ Hne].
      apply Huser; [exact Hne | now apply Hm].
    + apply filter_In in H. destruct H as [Hin Hne].
      apply negb_true_iff, orb_false_iff in Hne. destruct Hne as [_ Hgone].
      apply Hitem; [exact Hgone | now apply Hm].
  - (* profile update *)
    apply update_profiles_inv in H. destruct H as (hit & -> & _). ri_goal.
    repeat split; try (intros; now (apply Hi || apply Hc || apply Hn || apply Hm)).
    intros p' Hin. apply in_map_iff in Hin. destruct Hin as (p0 & <- & Hin).
    destruct (hit p0); [|now apply Hp]. cbn [apply_profiles_patch Profiles.id].
    now apply Hp.
  - (* item insert *)
    apply insert_item_inv in H. destruct H as (-> & _ & Howner). ri_goal.
    repeat split; try (intros; now (apply Hp || apply Hc || apply Hn || apply Hm)).
    + intros i Hin. apply in_app_or in Hin. destruct Hin as [Hin|[<-|[]]];
        [now apply Hi | exact Howner].
    + apply exists_after_insert. now apply Hc.
    + apply exists_after_insert. now apply Hm.
  - (* item update *)
    pose proof (fun u => @update_items_owner c item p d d' u H) as Howner.
    apply update_items_inv in H. subst d'. ri_goal. unfold items_updated.
    assert (Hid : forall r, Items.id (apply_items_patch p r) = Items.id r) by reflexivity.
    repeat split; try (intros; now (apply Hp || apply Hc || apply Hn || apply Hm)).
    + intros i' Hin. apply in_map_iff in Hin. destruct Hin as (i0 & <- & Hin).
      destruct (items_update_hit d c item i0) eqn:Hhit; [|now apply Hi].
      cbn [apply_items_patch Items.user_id]. unfold or_keep.
      destruct (set_user_id p) as [u|] eqn:Hu; [|now apply Hi].
      now apply (Howner u eq_refl i0).
    + rewrite (exists_after_patch Items.id _ _ _ _ Hid). now apply Hc.
    + rewrite (exists_after_patch Items.id _ _ _ _ Hid). now apply Hm.
  - (* item delete *)
    unfold delete_items in H. inv H. ri_goal.
    set (hit := fun r : Items.row => (where_ r && items_select d c r && items_delete d c r)%bool).
    assert (Hitem : forall i,
              existsb (fun r => hit r && String.eqb (Items.id r) i) (items d) = false ->
              existsb (fun r => String.eqb (Items.id r) i) (items d) = true ->
              existsb (fun r => String.eqb (Items.id r) i)
                (filter (fun r => negb (hit r)) (items d)) = true).
    { intros i Hgone Hex. apply exists_after_delete; [exact Hex|].
      intros r Hr Hid. apply negb_true_iff.
      destruct (hit r) eqn:Hh; [|reflexivity].
      assert (existsb (fun r => hit r && String.eqb (Items.id r) i) (items d) = true)
        as Hex2; [|congruence].
      apply existsb_exists. exists r. split; [exact Hr|].
      rewrite Hh. now apply String.eqb_eq. }
    repeat split; try (intros; now (apply Hp || apply Hn)).
    + intros i Hin. apply filter_In in Hin. now apply Hi.
    + apply filter_In in H. destruct H as [Hin Hne]. apply negb_true_iff in Hne.
      apply Hitem; [exact Hne | now apply Hc].
    + apply filter_In in H. now apply Hc.
    + apply filter_In in H. destruct H as [Hin _]. now apply Hm.
    + apply filter_In in H. destruct H as [Hin _]. now apply Hm.
    + apply filter_In in H. destruct H as [Hin Hne]. apply negb_true_iff in Hne.
      apply Hitem; [exact Hne | now apply Hm].
  - (* claim insert *)
    pose proof (insert_claim_references _ _ _ H) as [Hitem Huser].
    apply insert_claim_inv in H. destruct H as (-> & _). ri_goal.
    repeat split; try (intros; now (apply Hp || apply Hi || apply Hn || apply Hm)).
    + apply in_app_or in H. destruct H as [Hin|[<-|[]]]; [now apply Hc | exact Hitem].
    + apply in_app_or in H. destruct H as [Hin|[<-|[]]]; [now apply Hc | exact Huser].
  - (* claim update *)
    pose proof (update_claims_references _ _ _ _ H) as Href.
    apply update_claims_items in H. subst d'. ri_goal. unfold claims_updated.
    assert (Hrow : forall r', In r' (map (fun r => if claims_update_hit d c claim r
                                            then apply_claims_patch p r else r) (claims d)) ->
              existsb (fun r => String.eqb (Items.id r) (Claims.item_id r')) (items d) = true
              /\ existsb (fun r => String.eqb (Users.id r) (Claims.claimant_id r')) (users d)
                 = true).
    { intros r' Hin. apply in_map_iff in Hin. destruct Hin as (r0 & <- & Hin).
      destruct (claims_update_hit d c claim r0) eqn:Hhit; [|now apply Hc].
      destruct (touches_claim_key p) eqn:Ht; [now apply (Href eq_refl r0)|].
      unfold touches_claim_key in Ht. cbn [apply_claims_patch Claims.item_id Claims.claimant_id].
      destruct (set_item_id p), (set_claimant_id p); try discriminate. now apply Hc. }
    repeat split; try (intros; now (apply Hp || apply Hi || apply Hn || apply Hm));
      now apply Hrow.
  - (* claim delete *)
    unfold delete_claims in H. inv H. ri_goal.
    repeat split; try (intros; now (apply Hp || apply Hi || apply Hn || apply Hm));
      apply filter_In in H; now apply Hc.
  - (* message insert *)
    apply insert_message_inv in H.
    destruct H as (n & -> & _ & Hnu & _ & _ & _ & Hs & Hr & Hit). ri_goal.
    repeat split; try (intros; now (apply Hp || apply Hi || apply Hc)).
    + intros n' Hin. apply in_app_or in Hin. destruct Hin as [Hin|[<-|[]]];
        [now apply Hn | now rewrite Hnu].
    + apply in_app_or in H. destruct H as [Hin|[<-|[]]]; [now apply Hm | exact Hs].
    + apply in_app_or in H. destruct H as [Hin|[<-|[]]]; [now apply Hm | exact Hr].
    + apply in_app_or in H. destruct H as [Hin|[<-|[]]]; [now apply Hm | exact Hit].
  - (* messages marked read *)
    unfold mark_messages_read in H. inv H. ri_goal.
    repeat split; try (intros; now (apply Hp || apply Hi || apply Hc || apply Hn));
      apply in_map_iff in H; destruct H as (m0 & <- & Hin);
      match goal with |- context [if ?b then _ else _] => destruct b end;
      cbn [Messages.sender_id Messages.recipient_id Messages.item_id];
      now apply Hm.
  - (* notification insert *)
    unfold insert_notification in H. unguard H.
    apply insert_notification_row_inv in H. destruct H as (-> & _ & Huser). ri_goal.
    repeat split; try (intros; now (apply Hp || apply Hi || apply Hc || apply Hm)).
    intros n' Hin. apply in_app_or in Hin. destruct Hin as [Hin|[<-|[]]];
      [now apply Hn | exact Huser].
  - (* notifications marked read *)
    unfold mark_notifications_read in H. inv H. ri_goal.
    repeat split; try (intros; now (apply Hp || apply Hi || apply Hc || apply Hm)).
    intros n' Hin. apply in_map_iff in Hin. destruct Hin as (n0 & <- & Hin).
    match goal with |- context [if ?b then _ else _] => destruct b end;
      cbn [Notifications.user_id]; now apply Hn.
Qed.

(** X5. In every reachable state every reference resolves: each profile,
    item, claim, notification and message points to an existing account,
    and each claim and message to an existing item; removals cascade. *)
Theorem reachable_referential_integrity :
  forall d, reachable d -> referential_integrity d.
Proof.
  induction 1 as [|c s d d' _ IH Hexec].
  - unfold referential_integrity. simpl. repeat split; constructor.
  - eapply exec_keeps_references; eauto.
Qed.

(** ** The admin's [deleteUser] *)

Lemma filter_none {A : Type} (l : list A) : filter (fun _ => true) l = l.
Proof. induction l as [|a l IH]; simpl; [reflexivity | now rewrite IH]. Qed.

Lemma existsb_ext {A : Type} (f g : A -> bool) (l : list A) :
  (forall a, f a = g a) -> existsb f l = existsb g l.
Proof. intros H. induction l as [|a l IH]; simpl; [reflexivity | now rewrite H, IH]. Qed.

Lemma delete_messages_nothing c where_ d : delete_messages c where_ d = Ok d.
Proof.
  unfold delete_messages, messages_delete. f_equal.
  rewrite (filter_ext _ (fun _ => true)).
  - rewrite filter_none. now destruct d.
  - intros r. now rewrite andb_false_r.
Qed.

Lemma delete_notifications_nothing c where_ d : delete_notifications c where_ d = Ok d.
Proof.
  unfold delete_notifications, notifications_delete. f_equal.
  rewrite (filter_ext _ (fun _ => true)).
  - rewrite filter_none. now destruct d.
  - intros r. now rewrite andb_false_r.
Qed.

Lemma delete_profiles_nothing c where_ d : delete_profiles c where_ d = Ok d.
Proof.
  unfold delete_profiles, profiles_delete. f_equal.
  rewrite (filter_ext _ (fun _ => true)).
  - rewrite filter_none. now destruct d.
  - intros r. now rewrite andb_false_r.
Qed.

Lemma admin_delete_claims d c where_ :
  is_admin d c = true ->
  delete_claims c where_ d = Ok (set_claims d (filter (fun r => negb (where_ r)) (claims d))).
Proof.
  intros Ha. unfold delete_claims. f_equal. f_equal. apply filter_ext. intros r.
  unfold claims_select, claims_delete, admins_can_manage_all_claims.
  now rewrite Ha, orb_true_r, !andb_true_r.
Qed.

Lemma admin_delete_items d c where_ :
  is_admin d c = true ->
  delete_items c where_ d =
  Ok (mkdb (users d) (profiles d)
        (filter (fun r => negb (where_ r)) (items d))
        (filter (fun r => negb (existsb (fun i => where_ i
                                                  && String.eqb (Items.id i) (Claims.item_id r))
                                        (items d))) (claims d))
        (notifications d)
        (filter (fun r => negb (existsb (fun i => where_ i
                                                  && String.eqb (Items.id i) (Messages.item_id r))
                                        (items d))) (messages d))).
Proof.
  intros Ha. unfold delete_items.
  assert (Hhit : forall r, (where_ r && items_select d c r && items_delete d c r)%bool
                           = where_ r).
  { intros r. unfold items_select, items_delete, admins_can_manage_all_items.
    now rewrite Ha, orb_true_r, !andb_true_r. }
  f_equal. f_equal.
  - apply filter_ext. intros r. now rewrite Hhit.
  - apply filter_ext. intros r. f_equal. apply existsb_ext. intros i. now rewrite Hhit.
  - apply filter_ext. intros r. f_equal. apply existsb_ext. intros i. now rewrite Hhit.
Qed.

Lemma not_admin_delete_claims d c where_ :
  is_admin d c = false -> delete_claims c where_ d = Ok d.
Proof.
  intros Ha. unfold delete_claims, claims_delete, admins_can_manage_all_claims.
  rewrite Ha. f_equal. rewrite (filter_ext _ (fun _ => true)).
  - rewrite filter_none. now destruct d.
  - intros r. now rewrite andb_false_r.
Qed.

Lemma not_admin_delete_items d c where_ :
  is_admin d c = false -> delete_items c where_ d = Ok d.
Proof.
  intros Ha. unfold delete_items, items_delete, admins_can_manage_all_items.
  rewrite Ha.
  assert (Hno : forall i, existsb (fun r => (where_ r && items_select d c r && false
                                             && String.eqb (Items.id r) i)%bool) (items d)
                          = false).
  { intros i. induction (items d) as [|a l IH]; simpl; [reflexivity|].
    now rewrite andb_false_r, IH. }
  f_equal. destruct d as [us ps its cls ns ms]. cbn [users profiles items claims
    notifications messages] in *. f_equal.
  - rewrite (filter_ext _ (fun _ => true)); [apply filter_none|].
    intros r. now rewrite andb_false_r.
  - rewrite (filter_ext _ (fun _ => true)); [apply filter_none|].
    intros r. now rewrite Hno.
  - rewrite (filter_ext _ (fun _ => true)); [apply filter_none|].
    intros r. now rewrite Hno.
Qed.

(** X6. [deleteUser] never removes an account, a profile row or a
    notification, whoever calls it and whatever fails.  Run by an admin
    without failures it removes the user's items, the claims the user made
    and the claims and messages about the user's items, and nothing else,
    and reports success; run by anyone else it changes nothing and still
    reports success. *)
Theorem deleteUser_effect :
  forall c userId d,
    (forall confirmed f1 f2 f3 f4 f5,
        let d' := fst (deleteUser c confirmed userId f1 f2 f3 f4 f5 d) in
        users d' = users d /\ profiles d' = profiles d
        /\ notifications d' = notifications d) /\
    (is_admin d c = true ->
     deleteUser c true userId false false false false false d =
     (mkdb (users d) (profiles d)
        (filter (fun i => negb (String.eqb (Items.user_id i) userId)) (items d))
        (filter (fun r => negb (existsb (fun i => String.eqb (Items.user_id i) userId
                                                  && String.eqb (Items.id i) (Claims.item_id r))
                                        (items d)))
                (filter (fun r => negb (String.eqb (Claims.claimant_id r) userId)) (claims d)))
        (notifications d)
        (filter (fun m => negb (existsb (fun i => String.eqb (Items.user_id i) userId
                                                  && String.eqb (Items.id i) (Messages.item_id m))
                                        (items d)))
                (messages d)),
      ToastSuccess)) /\
    (is_admin d c = false ->
     deleteUser c true userId false false false false false d = (d, ToastSuccess)).
Proof.
  intros c userId d. split; [|split].
  - intros confirmed f1 f2 f3 f4 f5 d'. unfold d', deleteUser.
    destruct confirmed; cbn [negb]; [|auto].
    set (d1 := match call f1 _ with Ok x => x | Err _ => d end).
    assert (H1 : users d1 = users d /\ profiles d1 = profiles d
                 /\ notifications d1 = notifications d).
    { unfold d1. destruct f1; cbn [call]; auto. }
    destruct H1 as (Hu1 & Hp1 & Hn1).
    destruct (call f2 (delete_items c _ d1)) as [d2|e] eqn:H2; cbn [fst]; [|auto].
    apply call_ok in H2. destruct H2 as [_ H2]. unfold delete_items in H2. inv H2.
    rewrite delete_messages_nothing.
    match goal with |- context [call f3 (Ok ?x)] => set (d2 := x) end.
    assert (Hd3 : match call f3 (Ok d2) with Ok x => x | Err _ => d2 end = d2)
      by (destruct f3; reflexivity).
    rewrite Hd3, delete_notifications_nothing.
    assert (Hd4 : match call f4 (Ok d2) with Ok x => x | Err _ => d2 end = d2)
      by (destruct f4; reflexivity).
    rewrite Hd4, delete_profiles_nothing.
    destruct f5; cbn [call fst]; unfold d2; tables; auto.
  - intros Ha. unfold deleteUser. cbn [negb call].
    rewrite (admin_delete_claims d c _ Ha).
    match goal with |- context [delete_items c ?w ?x] =>
      rewrite (admin_delete_items x c w Ha) end.
    rewrite delete_messages_nothing, delete_notifications_nothing, delete_profiles_nothing.
    tables. reflexivity.
  - intros Ha. unfold deleteUser. cbn [negb call].
    rewrite (not_admin_delete_claims d c _ Ha), (not_admin_delete_items d c _ Ha).
    now rewrite delete_messages_nothing, delete_notifications_nothing,
      delete_profiles_nothing.
Qed.

(** ** Profiles: what "Users can update own profile" lets through *)

Lemma find_profile_patched (hit : Profiles.row -> bool) p u l :
  find (fun r => String.eqb (Profiles.id r) u)
       (map (fun r => if hit r then apply_profiles_patch p r else r) l)
  = option_map (fun r => if hit r then apply_profiles_patch p r else r)
               (find (fun r => String.eqb (Profiles.id r) u) l).
Proof.
  induction l as [|a l IH]; simpl; [reflexivity|].
  replace (Profiles.id (if hit a then apply_profiles_patch p a else a))
    with (Profiles.id a) by (now destruct (hit a)).
  destruct (String.eqb (Profiles.id a) u); [reflexivity | exact IH].
Qed.

(** X7. The only UPDATE policy on profiles compares the row's id with the
    caller and names no column: an account that has a profile can write
    [role = 'admin'] into its own row, the update is accepted, and from
    then on [get_user_role] makes it an admin, so that every items policy
    lets it through. *)
Theorem own_role_is_writable :
  forall d u p,
    find_profile d u = Some p ->
    exists d',
      update_profiles (Some u) u (mk_profiles_patch None None (Some (Some admin)) None) d
      = Ok d' /\
      get_user_role d' (Some u) = Some admin /\
      is_admin d' (Some u) = true /\
      (forall r, items_select d' (Some u) r = true
                 /\ items_update d' (Some u) r = true
                 /\ items_delete d' (Some u) r = true).
Proof.
  intros d u p Hp. eexists. split; [reflexivity|].
  assert (Hrole : get_user_role
                    (set_profiles d
                       (map (fun r => if String.eqb (Profiles.id r) u
                                         && uid_is (Some u) (Profiles.id r)
                                      then apply_profiles_patch
                                             (mk_profiles_patch None None (Some (Some admin)) None) r
                                      else r) (profiles d))) (Some u) = Some admin).
  { unfold get_user_role, find_profile. tables.
    rewrite find_profile_patched. unfold find_profile in Hp. rewrite Hp. simpl.
    apply find_some in Hp. destruct Hp as [_ Hid]. apply String.eqb_eq in Hid.
    unfold uid_is. rewrite Hid, String.eqb_refl. reflexivity. }
  split; [exact Hrole|].
  assert (Ha : is_admin
                 (set_profiles d
                    (map (fun r => if String.eqb (Profiles.id r) u
                                      && uid_is (Some u) (Profiles.id r)
                                   then apply_profiles_patch
                                          (mk_profiles_patch None None (Some (Some admin)) None) r
                                   else r) (profiles d))) (Some u) = true)
    by (now apply is_admin_iff).
  split; [exact Ha|].
  intros r. unfold items_select, items_update, items_delete, admins_can_manage_all_items.
  rewrite Ha. now rewrite !orb_true_r.
Qed.

Lemma filter_length_In {A : Type} (f : A -> bool) (l : list A) (a : A) :
  In a l -> f a = true -> (1 <= List.length (filter f l))%nat.
Proof.
  induction l as [|b l IH]; simpl; [contradiction|].
  intros [->|Hin] Hf.
  - rewrite Hf. simpl. lia.
  - destruct (f b); simpl; [specialize (IH Hin Hf); lia | now apply IH].
Qed.

(** X8. [handleSave] writes at most the caller's own profile row: the ids
    and roles of all profiles and every row of another account stay as they
    are, and so does every other table.  When another account's profile
    already carries the requested username the save fails and nothing is
    written. *)
Theorem handleSave_effect :
  forall usr username fullName avatarUrl d,
    (forall fault,
        let d' := fst (handleSave usr username fullName avatarUrl fault d) in
        map Profiles.id (profiles d') = map Profiles.id (profiles d) /\
        map Profiles.role (profiles d') = map Profiles.role (profiles d) /\
        filter (fun r => negb (uid_is usr (Profiles.id r))) (profiles d')
        = filter (fun r => negb (uid_is usr (Profiles.id r))) (profiles d) /\
        users d' = users d /\ items d' = items d /\ claims d' = claims d /\
        notifications d' = notifications d /\ messages d' = messages d) /\
    (forall fault p q,
        In p (profiles d) -> usr = Some (Profiles.id p) ->
        In q (profiles d) -> Profiles.id q <> Profiles.id p ->
        Profiles.username q = username ->
        handleSave usr username fullName avatarUrl fault d = (d, ToastError)).
Proof.
  intros usr username fullName avatarUrl d. split.
  - intros fault d'. unfold d', handleSave.
    destruct usr as [user_id|]; cbn [fst]; [|repeat split].
    destruct (call fault _) as [d1|e] eqn:H; cbn [fst]; [|repeat split].
    apply call_ok in H. destruct H as [_ H].
    apply update_profiles_inv in H. destruct H as (hit & -> & Hhit & _). tables.
    repeat split.
    + now rewrite map_key_patched.
    + rewrite map_key_patched; [reflexivity|].
      intros r. reflexivity.
    + induction (profiles d) as [|a l IH]; simpl; [reflexivity|].
      destruct (hit a) eqn:Ha.
      * destruct (Hhit a Ha) as [Hid _].
        cbn [apply_profiles_patch Profiles.id]. unfold uid_is.
        rewrite Hid, String.eqb_refl. simpl. exact IH.
      * destruct (negb (String.eqb user_id (Profiles.id a))); [f_equal; exact IH | exact IH].
  - intros fault p q Hp -> Hq Hne Hname. unfold handleSave.
    destruct fault; cbn [call]; [reflexivity|].
    unfold update_profiles. cbn [set_username].
    set (hit := fun r : Profiles.row =>
                  (String.eqb (Profiles.id r) (Profiles.id p)
                   && uid_is (Some (Profiles.id p)) (Profiles.id r))%bool).
    set (table := map (fun r => if hit r
                                then apply_profiles_patch
                                       (mk_profiles_patch (Some username) (Some (Some fullName))
                                          None (Some (Some avatarUrl))) r
                                else r) (profiles d)).
    assert (Hcount : (2 <= List.length
                             (filter (fun x => String.eqb (Profiles.username x) username) table))%nat).
    { unfold table. destruct (in_split _ _ Hp) as (l1 & l2 & Hl). rewrite Hl in *.
      rewrite map_app, filter_app, length_app. cbn [map filter].
      assert (Hhp : hit p = true)
        by (unfold hit, uid_is; now rewrite String.eqb_refl).
      rewrite Hhp. cbn [apply_profiles_patch or_keep set_username Profiles.username].
      rewrite String.eqb_refl. cbn [List.length].
      assert (Hhq : hit q = false).
      { unfold hit. apply andb_false_iff. left. now apply String.eqb_neq. }
      assert (Hq1 : forall l, In q l ->
                 (1 <= List.length
                         (filter (fun x => String.eqb (Profiles.username x) username)
                            (map (fun r => if hit r then apply_profiles_patch
                                     (mk_profiles_patch (Some username) (Some (Some fullName))
                                        None (Some (Some avatarUrl))) r else r) l)))%nat).
      { intros l Hin. apply filter_length_In with (a := q).
        - apply in_map_iff. exists q. now rewrite Hhq.
        - now apply String.eqb_eq. }
      apply in_app_or in Hq. destruct Hq as [Hq|[Hq|Hq]].
      - specialize (Hq1 l1 Hq). lia.
      - now subst q.
      - specialize (Hq1 l2 Hq). lia. }
    assert (Hguard : forallb (fun r => negb (hit r)
                                       || Nat.eqb (List.length
                                                     (filter (fun x => String.eqb (Profiles.username x) username)
                                                             table)) 1)
                             (profiles d) = false).
    { apply not_true_is_false. intros Hall. rewrite forallb_forall in Hall.
      specialize (Hall p Hp).
      assert (Hhp : hit p = true)
        by (unfold hit, uid_is; now rewrite String.eqb_refl).
      rewrite Hhp in Hall. simpl in Hall. apply Nat.eqb_eq in Hall. lia. }
    unfold table, hit in Hguard. rewrite Hguard. reflexivity.
Qed.

(** ** The notifications page *)

Lemma filter_map_commute {A : Type} (keep : A -> bool) (f : A -> A) (l : list A) :
  (forall a, keep (f a) = keep a) ->
  filter keep (map f l) = map f (filter keep l).
Proof.
  intros H. induction l as [|a l IH]; simpl; [reflexivity|].
  rewrite H. destruct (keep a); simpl; now rewrite IH.
Qed.

Lemma map_ext_filter {A B : Type} (keep : A -> bool) (f g : A -> B) (l : list A) :
  (forall a, keep a = true -> f a = g a) ->
  map f (filter keep l) = map g (filter keep l).
Proof.
  intros H. apply map_ext_in. intros a Ha. apply filter_In in Ha. now apply H.
Qed.

Lemma map_id_filter {A : Type} (keep : A -> bool) (f : A -> A) (l : list A) :
  (forall a, keep a = true -> f a = a) ->
  map f (filter keep l) = filter keep l.
Proof.
  intros H. rewrite <- (map_id (filter keep l)) at 2.
  apply map_ext_in. intros a Ha. apply filter_In in Ha. now apply H.
Qed.

Lemma with_read_true_read (r : Notifications.row) :
  Notifications.read r = true -> with_read_true r = r.
Proof. destruct r. unfold with_read_true. simpl. now intros ->. Qed.


(** X10. [markAsRead], when the request goes through, sets the read flag
    of the notification with the given id only if it belongs to the caller:
    rows of other accounts and rows with another id are untouched, nothing
    but the flag is written, and a page that showed the caller's rows shows
    them again afterwards.  When the request fails nothing changes. *)
Theorem markAsRead_effect :
  forall c notificationId d prev,
    (let (d', view) := markAsRead c notificationId false (d, prev) in
     (prev = own_notifications c d -> view = own_notifications c d') /\
     filter (fun r => negb (uid_is c (Notifications.user_id r)
                            && String.eqb (Notifications.id r) notificationId))
            (notifications d')
     = filter (fun r => negb (uid_is c (Notifications.user_id r)
                              && String.eqb (Notifications.id r) notificationId))
              (notifications d) /\
     Forall (fun r => Notifications.read r = true)
            (filter (fun r => uid_is c (Notifications.user_id r)
                              && String.eqb (Notifications.id r) notificationId)
                    (notifications d')) /\
     map with_read_true (notifications d') = map with_read_true (notifications d) /\
     users d' = users d /\ profiles d' = profiles d /\ items d' = items d /\
     claims d' = claims d /\ messages d' = messages d) /\
    markAsRead c notificationId true (d, prev) = (d, prev).
Proof.
  intros c notificationId d prev. split; [|reflexivity].
  unfold markAsRead, mark_notifications_read. cbn [call]. tables.
  set (mark := fun r : Notifications.row =>
                 if (String.eqb (Notifications.id r) notificationId
                     && notifications_select c r
                     && notifications_update c r)%bool
                 then Notifications.mk (Notifications.id r) (Notifications.user_id r)
                        (Notifications.type r) (Notifications.title r)
                        (Notifications.message r) true (Notifications.created_at r)
                 else r).
  assert (Hkey : forall r, Notifications.user_id (mark r) = Notifications.user_id r
                           /\ Notifications.id (mark r) = Notifications.id r).
  { intros r. unfold mark. now destruct (_ && _ && _)%bool. }
  split; [|split; [|split; [|split]]].
  - intros ->. unfold own_notifications, notifications_select. tables.
    rewrite filter_map_commute by (intros a; now rewrite (proj1 (Hkey a))).
    apply map_ext_filter. intros a Ha. apply andb_true_iff in Ha. destruct Ha as [Ha _].
    unfold mark, notifications_select, notifications_update. rewrite Ha.
    now rewrite !andb_true_r.
  - rewrite filter_map_commute
      by (intros a; now rewrite (proj1 (Hkey a)), (proj2 (Hkey a))).
    apply map_id_filter. intros a Ha. apply negb_true_iff in Ha.
    unfold mark, notifications_select, notifications_update.
    apply andb_false_iff in Ha. destruct Ha as [Ha|Ha]; rewrite Ha.
    + now rewrite !andb_false_r.
    + reflexivity.
  - rewrite filter_map_commute
      by (intros a; now rewrite (proj1 (Hkey a)), (proj2 (Hkey a))).
    apply Forall_forall. intros r Hr. apply in_map_iff in Hr.
    destruct Hr as (x & <- & Hx). apply filter_In in Hx. destruct Hx as [_ Hx].
    apply andb_true_iff in Hx. destruct Hx as [Hu Hi].
    unfold mark, notifications_select, notifications_update. now rewrite Hu, Hi.
  - rewrite map_map. apply map_ext. intros r. unfold mark.
    destruct (_ && _ && _)%bool; reflexivity.
  - repeat split.
Qed.

(** ** The messages page *)

Lemma NoDup_map_same_key {A K : Type} (key : A -> K) (l : list A) (a b : A) :
  NoDup (map key l) -> In a l -> In b l -> key a = key b -> a = b.
Proof.
  induction l as [|x l IH]; simpl; [contradiction|].
  rewrite NoDup_cons_iff. intros [Hnot Hnd] [->|Ha] [->|Hb] Hk; auto.
  - exfalso. apply Hnot. rewrite Hk. now apply in_map.
  - exfalso. apply Hnot. rewrite <- Hk. now apply in_map.
Qed.

(** The rows of a conversation of the list are the rows of the response
    that have the key of one of them. *)
Lemma conversation_rows (usr : uuid) (msgs : list Messages.row)
    (I : list item_ref) (P : list profile_ref) (c : Conversation.t) :
  In c (fetchConversations usr msgs I P) ->
  exists m0,
    In m0 msgs /\
    Conversation.item_id c = Messages.item_id m0 /\
    Conversation.other_user_id c = otherUserId usr m0 /\
    Permutation (Conversation.messages c)
      (map (enrich I P)
           (filter (fun m => String.eqb (conversationKey usr m) (conversationKey usr m0))
                   msgs)).
Proof.
  intros Hc. apply fetchConversations_members in Hc.
  destruct Hc as (k & c0 & Hg & ->).
  destruct (grouped_inv _ _ _ Hg) as (e0 & rest & Hb & Hk & He0 & ->).
  apply in_map_iff in He0. destruct He0 as (m0 & <- & Hm0).
  exists m0. unfold sort_messages. conversation_fields. cbn [row_of enrich] in *.
  repeat split; try assumption.
  rewrite Hk, <- bucket_rows, Hb. apply array_sort_perm.
Qed.

(** X11. [markConversationAsRead] on a conversation of the fetched list,
    when the request goes through: the read flag is set on exactly the
    messages of that item and other party that are addressed to the caller
    and unread, no other message and no other table changes, and afterwards
    the conversation has no unread message.  When the request fails nothing
    changes. *)
Theorem markConversationAsRead_effect :
  forall usr d messagesData itemsData profilesData conversation,
    messages_response usr d messagesData ->
    Forall (fun m => uuid_text (Messages.item_id m)) (messages d) ->
    NoDup (map Messages.id (messages d)) ->
    In conversation (fetchConversations usr messagesData itemsData profilesData) ->
    let mine := in_conversation usr (Conversation.item_id conversation)
                  (Conversation.other_user_id conversation) in
    let d' := markConversationAsRead usr conversation false d in
    messages d' =
      map (fun m => if mine m && unread_for usr m then message_with_read_true m else m)
          (messages d) /\
    (forall m, In m (messages d') -> mine m = true -> unread_for usr m = false) /\
    users d' = users d /\ profiles d' = profiles d /\ items d' = items d /\
    claims d' = claims d /\ notifications d' = notifications d /\
    markConversationAsRead usr conversation true d = d.
Proof.
  intros usr d msgs I P c Hresp Huuid Hnd Hc mine d'.
  destruct (conversation_rows _ _ _ _ _ Hc) as (m0 & Hm0 & Hitem & Hother & Hperm).
  set (ids := unreadMessageIds usr c).
  assert (Hd0 : In m0 (messages d)) by (now apply (response_rows m0 Hresp)).
  assert (Hkey : forall m, In m (messages d) ->
             String.eqb (conversationKey usr m) (conversationKey usr m0)
             = (String.eqb (Messages.item_id m) (Conversation.item_id c)
                && String.eqb (otherUserId usr m) (Conversation.other_user_id c))%bool).
  { intros m Hm. rewrite Hitem, Hother. apply conversationKey_eqb.
    rewrite Forall_forall in Huuid. unfold uuid_text in Huuid.
    now rewrite (Huuid m Hm), (Huuid m0 Hd0). }
  assert (Hrows : forall m, In (enrich I P m) (Conversation.messages c) <->
             In m msgs /\
             String.eqb (conversationKey usr m) (conversationKey usr m0) = true).
  { intros m. split.
    - intros Hin. eapply Permutation_in in Hin; [|exact Hperm].
      apply in_map_iff in Hin. destruct Hin as (x & Hx & Hin).
      apply (f_equal row_of) in Hx. cbn [row_of enrich] in Hx. subst x.
      now apply filter_In in Hin.
    - intros Hin. eapply Permutation_in; [symmetry; exact Hperm|]. apply in_map.
      now apply filter_In. }
  assert (Hids : forall m, In m (messages d) ->
             (In (Messages.id m) ids <-> (mine m && unread_for usr m)%bool = true)).
  { intros m Hm. unfold ids, unreadMessageIds, mine, in_conversation.
    rewrite in_map_iff. split.
    - intros (e & Hid & He). apply filter_In in He. destruct He as [He Hun].
      assert (Hex : exists x, e = enrich I P x).
      { eapply Permutation_in in He; [|exact Hperm]. apply in_map_iff in He.
        destruct He as (x & <- & _). now exists x. }
      destruct Hex as (x & ->). cbn [row_of enrich] in *.
      apply Hrows in He. destruct He as [Hx Hk].
      assert (Hxd : In x (messages d) /\ involves usr x = true)
        by (now apply (response_rows x Hresp)).
      assert (x = m) by (apply (@NoDup_map_same_key _ _ Messages.id (messages d) x m Hnd); tauto).
      subst x. rewrite (Hkey m Hm) in Hk. destruct Hxd as [_ ->].
      cbn [andb]. now rewrite Hk, Hun.
    - intros Hcond. apply andb_true_iff in Hcond. destruct Hcond as [Hmine Hun].
      apply andb_true_iff in Hmine. destruct Hmine as [Hmine Ho].
      apply andb_true_iff in Hmine. destruct Hmine as [Hinv Hi].
      exists (enrich I P m). split; [reflexivity|]. apply filter_In. split; [|exact Hun].
      apply Hrows. split.
      + apply (response_rows m Hresp). auto.
      + rewrite (Hkey m Hm). now rewrite Hi, Ho. }
  assert (Hhit : forall m, In m (messages d) ->
             (existsb (String.eqb (Messages.id m)) ids && messages_select (Some usr) m
              && uid_is (Some usr) (Messages.recipient_id m))%bool
             = (mine m && unread_for usr m)%bool).
  { intros m Hm. destruct (mine m && unread_for usr m)%bool eqn:Hcond.
    - pose proof (proj2 (Hids m Hm) Hcond) as Hin.
      apply andb_true_iff in Hcond. destruct Hcond as [_ Hun].
      unfold unread_for in Hun. apply andb_true_iff in Hun. destruct Hun as [Hrec _].
      unfold messages_select, uid_is. rewrite (String.eqb_sym usr (Messages.recipient_id m)), Hrec, orb_true_r.
      rewrite !andb_true_r. apply existsb_exists. exists (Messages.id m).
      split; [exact Hin | apply String.eqb_refl].
    - apply not_true_is_false. intros Hall. apply andb_true_iff in Hall.
      destruct Hall as [Hall _]. apply andb_true_iff in Hall. destruct Hall as [Hex _].
      apply existsb_exists in Hex. destruct Hex as (i & Hi & He).
      apply String.eqb_eq in He. subst i. apply (Hids m Hm) in Hi. congruence. }
  assert (Hmsgs : messages d' =
            map (fun m => if mine m && unread_for usr m then message_with_read_true m else m)
                (messages d)).
  { unfold d', markConversationAsRead.
    destruct (unreadMessageIds usr c) as [|i ids'] eqn:Hidl.
    - rewrite <- (map_id (messages d)) at 1. apply map_ext_in. intros m Hm.
      destruct (mine m && unread_for usr m)%bool eqn:Hcond; [|reflexivity].
      apply (Hids m Hm) in Hcond. unfold ids in Hcond.
      try rewrite Hidl in Hcond. contradiction.
    - cbn [call]. unfold mark_messages_read. tables.
      apply map_ext_in. intros m Hm. rewrite <- (Hhit m Hm). unfold ids.
      try rewrite Hidl. reflexivity. }
  split; [exact Hmsgs|]. split.
  - intros m Hm Hmine. rewrite Hmsgs in Hm. apply in_map_iff in Hm.
    destruct Hm as (x & <- & _). revert Hmine.
    destruct (mine x && unread_for usr x)%bool eqn:Hcond.
    + intros _. unfold unread_for, message_with_read_true. cbn [Messages.read].
      now rewrite andb_false_r.
    + intros Hmine. rewrite Hmine in Hcond. exact Hcond.
  - unfold d', markConversationAsRead.
    destruct (unreadMessageIds usr c); cbn [call]; unfold mark_messages_read; tables;
      repeat split.
Qed.

(** ** Totals over the conversations *)

Lemma list_sum_perm (l l' : list nat) : Permutation l l' -> list_sum l = list_sum l'.
Proof.
  induction 1 as [|x l l' _ IH|x y l|l l' l'' _ IH1 _ IH2]; simpl; lia.
Qed.

Lemma map_total_app (w : Conversation.t -> nat) (m m' : conversation_map) :
  map_total w (m ++ m')%list = (map_total w m + map_total w m')%nat.
Proof. unfold map_total. now rewrite map_app, list_sum_app. Qed.

Lemma map_total_modify (w : Conversation.t -> nat) (key : string)
    (f : Conversation.t -> Conversation.t) (delta : nat) (m : conversation_map) :
  (forall v, w (f v) = (w v + delta)%nat) ->
  map_has key m = true ->
  map_total w (map_modify key f m) = (map_total w m + delta)%nat.
Proof.
  intros Hf. unfold map_total, map_has.
  induction m as [|[k v] m IH]; simpl; [discriminate|].
  destruct (String.eqb k key); simpl.
  - intros _. rewrite Hf. lia.
  - intros H. rewrite (IH H). lia.
Qed.

Lemma map_total_group (usr : uuid) (w : Conversation.t -> nat) (one : enriched -> nat)
    (m : conversation_map) (e : enriched) :
  (forall x, w (new_conversation usr x) = 0%nat) ->
  (forall x v, w (push_message usr x v) = (w v + one x)%nat) ->
  map_total w (group_message usr m e) = (map_total w m + one e)%nat.
Proof.
  intros Hnew Hpush. unfold group_message.
  destruct (map_has (conversationKey usr (row_of e)) m) eqn:Hhas.
  - now apply map_total_modify.
  - rewrite (map_modify_absent _ _ _ _ Hhas), !map_total_app.
    unfold map_total. simpl. rewrite Hpush, Hnew. lia.
Qed.

Lemma map_total_loop (usr : uuid) (w : Conversation.t -> nat) (one : enriched -> nat)
    (es : list enriched) (m : conversation_map) :
  (forall x, w (new_conversation usr x) = 0%nat) ->
  (forall x v, w (push_message usr x v) = (w v + one x)%nat) ->
  map_total w (fold_left (group_message usr) es m)
  = (map_total w m + list_sum (map one es))%nat.
Proof.
  intros Hnew Hpush. revert m. induction es as [|e es IH]; intros m; simpl; [lia|].
  rewrite IH, (map_total_group usr w one m e Hnew Hpush). lia.
Qed.

Lemma list_sum_indicator {A : Type} (f : A -> bool) (l : list A) :
  list_sum (map (fun a => if f a then 1%nat else 0%nat) l) = List.length (filter f l).
Proof.
  induction l as [|a l IH]; simpl; [reflexivity|].
  destruct (f a); simpl; now rewrite IH.
Qed.

Lemma list_sum_ones {A : Type} (l : list A) :
  list_sum (map (fun _ => 1%nat) l) = List.length l.
Proof. induction l as [|a l IH]; simpl; [reflexivity | now rewrite IH]. Qed.

(** X12. Whatever the three responses hold, [fetchConversations] loses
    and duplicates no message: the conversations together hold as many
    messages as the response, and their unread counts add up to the number
    of messages of the response that are addressed to the caller and
    unread. *)
Theorem fetchConversations_totals :
  forall usr messagesData itemsData profilesData,
    let convs := fetchConversations usr messagesData itemsData profilesData in
    list_sum (map (fun c => List.length (Conversation.messages c)) convs)
    = List.length messagesData /\
    list_sum (map Conversation.unread_count convs)
    = List.length (filter (unread_for usr) messagesData).
Proof.
  intros usr msgs I P convs. unfold convs, fetchConversations.
  set (m := fold_left (group_message usr) (map (enrich I P) msgs) []).
  assert (Hsum : forall w : Conversation.t -> nat,
             (forall c, w (sort_messages c) = w c) ->
             list_sum (map w (array_sort
                                (fun a b => getTime (Conversation.last_message_date b)
                                            - getTime (Conversation.last_message_date a))
                                (map snd (map (fun e => (fst e, sort_messages (snd e))) m))))
             = map_total w m).
  { intros w Hw. erewrite list_sum_perm; [|apply Permutation_map, array_sort_perm].
    unfold map_total. rewrite !map_map. cbn [snd]. f_equal. apply map_ext.
    intros e. apply Hw. }
  split.
  - rewrite (Hsum (fun c => List.length (Conversation.messages c))).
    + unfold m.
      rewrite (map_total_loop usr (fun c => List.length (Conversation.messages c))
                 (fun _ => 1%nat)).
      * unfold map_total. simpl. now rewrite list_sum_ones, length_map.
      * reflexivity.
      * intros x v. unfold push_message. conversation_fields.
        rewrite length_app. reflexivity.
    + intros c. unfold sort_messages. conversation_fields.
      apply Permutation_length, array_sort_perm.
  - rewrite (Hsum Conversation.unread_count).
    + unfold m.
      rewrite (map_total_loop usr Conversation.unread_count
                 (fun e => if unread_for usr (row_of e) then 1%nat else 0%nat)).
      * unfold map_total. simpl. rewrite map_map. cbn [row_of enrich].
        apply list_sum_indicator.
      * reflexivity.
      * intros x v. unfold push_message. conversation_fields.
        destruct (unread_for usr (row_of x)); lia.
    + reflexivity.
Qed.

(** ** Sending messages *)

Lemma blank_app (a b : string) : blank (a ++ b) = (blank a && blank b)%bool.
Proof. unfold blank. now rewrite list_ascii_of_append, forallb_app. Qed.

Lemma snoc_not_empty (t : string) (ch : ascii) :
  (t ++ String ch EmptyString)%string <> EmptyString.
Proof. destruct t; discriminate. Qed.

Lemma trim_end_spec (s : string) :
  exists post,
    s = (trim_end s ++ post)%string /\ blank post = true /\
    (forall t ch, trim_end s = (t ++ String ch EmptyString)%string -> js_space ch = false).
Proof.
  induction s as [|a s IH]; simpl.
  - exists EmptyString. repeat split. intros t ch H. symmetry in H.
    now apply snoc_not_empty in H.
  - destruct IH as (post & Hs & Hpost & Hlast).
    destruct (trim_end s) as [|b u] eqn:Hu.
    + simpl in Hs. subst post. destruct (js_space a) eqn:Ha.
      * exists (String a s). repeat split.
        -- unfold blank in *. simpl. now rewrite Ha.
        -- intros t ch H. symmetry in H. now apply snoc_not_empty in H.
      * exists s. repeat split; [exact Hpost|].
        intros [|x t] ch H; simpl in H; inv H; [exact Ha|].
        match goal with H : EmptyString = _ |- _ =>
          symmetry in H; now apply snoc_not_empty in H end.
    + exists post. split; [simpl; now rewrite Hs at 1|]. split; [exact Hpost|].
      intros [|x t] ch H; simpl in H; inv H.
      now apply (Hlast t ch).
Qed.

Lemma trim_start_spec (s : string) :
  exists pre,
    s = (pre ++ trim_start s)%string /\ blank pre = true /\
    (forall ch t, trim_start s = String ch t -> js_space ch = false).
Proof.
  induction s as [|a s IH]; simpl.
  - exists EmptyString. repeat split. discriminate.
  - destruct (js_space a) eqn:Ha.
    + destruct IH as (pre & Hs & Hpre & Hhead). exists (String a pre).
      split; [simpl; now rewrite Hs at 1|]. split; [|exact Hhead].
      unfold blank in *. simpl. now rewrite Ha.
    + exists EmptyString. repeat split. intros ch t H. now inv H.
Qed.

Lemma js_trim_spec (s : string) : trimmed_of s (js_trim s).
Proof.
  unfold js_trim.
  destruct (trim_end_spec s) as (post & Hs & Hpost & Hlast).
  destruct (trim_start_spec (trim_end s)) as (pre & Hm & Hpre & Hhead).
  exists pre, post. split; [|split; [exact Hpre|split; [exact Hpost|split; [exact Hhead|]]]].
  - rewrite <- string_app_assoc, <- Hm. exact Hs.
  - intros t ch H. apply (Hlast (pre ++ t)%string ch).
    rewrite Hm at 1. rewrite H. now rewrite string_app_assoc.
Qed.

Lemma js_trim_blank (s : string) : truthy (js_trim s) = negb (blank s).
Proof.
  destruct (js_trim_spec s) as (pre & post & Hs & Hpre & Hpost & Hhead & _).
  rewrite Hs at 2. rewrite !blank_app, Hpre, Hpost, andb_true_r. cbn [andb].
  destruct (js_trim s) as [|ch t]; [reflexivity|].
  unfold blank. simpl. now rewrite (Hhead ch t eq_refl).
Qed.

Lemma insert_message_other_tables c now new_id notif_id sender recipient item body d d' :
  insert_message c now new_id notif_id sender recipient item body d = Ok d' ->
  users d' = users d /\ profiles d' = profiles d /\ items d' = items d /\
  claims d' = claims d.
Proof.
  intros H. apply insert_message_inv in H. destruct H as (n & -> & _). tables.
  repeat split.
Qed.

(** X13. [handleSendMessage]: a message of white space only is refused
    before any request.  A run that reports success has stored exactly one
    message, from the caller to the account the dialog was given as owner
    ([ownerUserId]) about the item, whose text is the typed text without
    the white space at its ends and is not empty, together with one
    notification for that account; every other run leaves the database as
    it was.  Nothing compares that account with the owner of the item: for
    a signed-in caller and a message that is not blank the run succeeds
    exactly when the request goes through, the sender, the recipient and
    the item exist and the two new ids are fresh. *)
Theorem handleSendMessage_effect :
  forall usr ownerUserId itemId message now new_id notif_id fault d,
    let run := handleSendMessage usr ownerUserId itemId message now new_id notif_id fault d in
    (blank message = true -> run = (d, ToastError)) /\
    (snd run = ToastSuccess ->
     exists u n body,
       usr = Some u /\ trimmed_of message body /\ body <> EmptyString /\
       messages (fst run) =
         (messages d ++ [Messages.mk new_id u ownerUserId itemId body false now now])%list /\
       notifications (fst run) = (notifications d ++ [n])%list /\
       Notifications.user_id n = ownerUserId /\ Notifications.read n = false /\
       users (fst run) = users d /\ profiles (fst run) = profiles d /\
       items (fst run) = items d /\ claims (fst run) = claims d) /\
    (snd run <> ToastSuccess -> fst run = d) /\
    (forall u, usr = Some u -> blank message = false ->
       (snd run = ToastSuccess <->
        fault = false /\
        user_exists d u = true /\ user_exists d ownerUserId = true /\
        item_exists d itemId = true /\
        existsb (fun m => String.eqb (Messages.id m) new_id) (messages d) = false /\
        existsb (fun x => String.eqb (Notifications.id x) notif_id) (notifications d)
        = false)).
Proof.
  intros usr owner item message now new_id notif_id fault d run.
  assert (Hwhen : forall u, usr = Some u -> blank message = false ->
            (snd run = ToastSuccess <->
             fault = false /\
             user_exists d u = true /\ user_exists d owner = true /\
             item_exists d item = true /\
             existsb (fun m => String.eqb (Messages.id m) new_id) (messages d) = false /\
             existsb (fun x => String.eqb (Notifications.id x) notif_id) (notifications d)
             = false)).
  { intros u -> Hblank. unfold run, handleSendMessage.
    rewrite js_trim_blank, Hblank. cbn [negb]. split.
    - destruct (call fault _) as [d1|e] eqn:H; cbn [snd]; [|discriminate].
      intros _. apply call_ok in H. destruct H as [-> H].
      apply insert_message_inv in H.
      destruct H as (n & _ & _ & _ & _ & Hm & Hn & Hs & Hr & Hi). auto 10.
    - intros (-> & Hs & Hr & Hi & Hm & Hn). cbn [call].
      unfold insert_message, bind, guard. rewrite find_item_exists.
      unfold uid_is. rewrite String.eqb_refl, Hm, Hs, Hr, Hi. cbn [negb andb].
      unfold create_message_notification, insert_notification_row, bind, guard.
      cbn [Notifications.id Notifications.user_id Messages.recipient_id].
      change (notifications (set_messages d _)) with (notifications d).
      rewrite Hn. cbn [negb].
      change (user_exists (set_messages d _) owner) with (user_exists d owner).
      rewrite Hr. reflexivity. }
  split; [|split; [|split; [|exact Hwhen]]]; clear Hwhen;
    unfold run, handleSendMessage; rewrite js_trim_blank, negb_involutive.
  - destruct (blank message); [reflexivity | discriminate].
  - destruct (blank message) eqn:Hblank; cbn [fst snd]; [discriminate|].
    destruct usr as [u|]; cbn [fst snd]; [|discriminate].
    destruct (call fault _) as [d1|e] eqn:H; cbn [fst snd]; [|discriminate].
    intros _. apply call_ok in H. destruct H as [_ H].
    pose proof (insert_message_other_tables _ _ _ _ _ _ _ _ _ H) as (Hu & Hp & Hi & Hc).
    unfold insert_message in H. unguard H.
    unfold create_message_notification in H.
    apply insert_notification_row_inv in H. destruct H as (Hd1 & _).
    eexists u, _, (js_trim message). split; [reflexivity|].
    split; [apply js_trim_spec|]. split.
    { intros He. pose proof (js_trim_blank message) as Hb. rewrite He, Hblank in Hb.
      discriminate. }
    subst d1. tables. repeat split; assumption.
  - destruct (blank message); cbn [fst snd]; [reflexivity|].
    destruct usr as [u|]; cbn [fst snd]; [|reflexivity].
    destruct (call fault _) as [d1|e]; cbn [fst snd]; [|reflexivity].
    intros Hne. now elim Hne.
Qed.

(** X14. [handleReply]: without a selected conversation, or with a reply of
    white space only, nothing is sent.  A run that reports success has
    stored exactly one message from the caller to the other party of the
    selected conversation about its item, so that the message belongs to
    that conversation, with the trimmed, non-empty text, and one
    notification for the other party; every other run leaves the database
    as it was. *)
Theorem handleReply_effect :
  forall usr selectedConversation replyMessage now new_id notif_id fault d,
    let run := handleReply usr selectedConversation replyMessage now new_id notif_id fault d in
    (selectedConversation = None \/ blank replyMessage = true -> run = (d, ToastError)) /\
    (snd run = ToastSuccess ->
     exists u conversation n body,
       usr = Some u /\ selectedConversation = Some conversation /\
       trimmed_of replyMessage body /\ body <> EmptyString /\
       let NEW := Messages.mk new_id u (Conversation.other_user_id conversation)
                    (Conversation.item_id conversation) body false now now in
       messages (fst run) = (messages d ++ [NEW])%list /\
       in_conversation u (Conversation.item_id conversation)
         (Conversation.other_user_id conversation) NEW = true /\
       notifications (fst run) = (notifications d ++ [n])%list /\
       Notifications.user_id n = Conversation.other_user_id conversation /\
       users (fst run) = users d /\ profiles (fst run) = profiles d /\
       items (fst run) = items d /\ claims (fst run) = claims d) /\
    (snd run <> ToastSuccess -> fst run = d).
Proof.
  intros usr sel reply now new_id notif_id fault d run. unfold run, handleReply.
  destruct sel as [conversation|]; cbn [fst snd];
    [|split; [reflexivity | split; [discriminate | reflexivity]]].
  rewrite js_trim_blank, negb_involutive.
  destruct (blank reply) eqn:Hblank; cbn [fst snd].
  - split; [reflexivity|]. split; [discriminate | reflexivity].
  - split; [intros [H|H]; discriminate|].
    destruct usr as [u|]; cbn [fst snd]; [|split; [discriminate | reflexivity]].
    destruct (call fault _) as [d1|e] eqn:H; cbn [fst snd];
      [|split; [discriminate | reflexivity]].
    split; [|intros Hne; now elim Hne].
    intros _. apply call_ok in H. destruct H as [_ H].
    pose proof (insert_message_other_tables _ _ _ _ _ _ _ _ _ H) as (Hu & Hp & Hi & Hc).
    unfold insert_message in H. unguard H.
    unfold create_message_notification in H.
    apply insert_notification_row_inv in H. destruct H as (Hd1 & _).
    eexists u, conversation, _, (js_trim reply). split; [reflexivity|].
    split; [reflexivity|]. split; [apply js_trim_spec|]. split.
    { intros He. pose proof (js_trim_blank reply) as Hb. rewrite He, Hblank in Hb.
      discriminate. }
    cbv zeta. subst d1. tables. repeat split; try assumption.
    unfold in_conversation, involves, otherUserId.
    cbn [Messages.sender_id Messages.recipient_id Messages.item_id].
    now rewrite !String.eqb_refl.
Qed.

(** ** The admin page *)

Lemma or_default_truthy (a : option string) (fallback : string) :
  truthy fallback = true -> truthy (or_default a fallback) = true.
Proof.
  intros H. unfold or_default. destruct a as [v|]; [|exact H].
  destruct (truthy v) eqn:Hv; [exact Hv | exact H].
Qed.

(** X15. [createAdminClaim]: a run that reports success has appended one
    pending claim of the caller on the item, whose message is the prompt's
    answer, or 'Admin claim verification' when the prompt was dismissed or
    left empty, and never empty; unlike [createClaim] it creates no
    notification.  When the caller already has a claim on the item the run
    fails; every run that does not report success leaves the database as it
    was. *)
Theorem createAdminClaim_effect :
  forall usr itemId prompted now claim_id fault d,
    let run := createAdminClaim usr itemId prompted now claim_id fault d in
    (snd run = ToastSuccess ->
     exists u message,
       usr = Some u /\
       claims (fst run) =
         (claims d ++ [Claims.mk claim_id itemId u message (Some pending) now now])%list /\
       message <> EmptyString /\
       (forall v, prompted = Some v -> v <> EmptyString -> message = v) /\
       (prompted = None \/ prompted = Some EmptyString ->
        message = "Admin claim verification") /\
       notifications (fst run) = notifications d /\ users (fst run) = users d /\
       profiles (fst run) = profiles d /\ items (fst run) = items d /\
       messages (fst run) = messages d) /\
    (snd run <> ToastSuccess -> fst run = d) /\
    (forall u, usr = Some u -> claim_key_present (itemId, u) (claims d) = true ->
               run = (d, ToastError)).
Proof.
  intros usr itemId prompted now claim_id fault d run. unfold run, createAdminClaim.
  destruct usr as [u|]; cbn [fst snd].
  2:{ split; [discriminate|]. split; [reflexivity | discriminate]. }
  destruct (call fault _) as [d1|e] eqn:H; cbn [fst snd].
  - apply call_ok in H. destruct H as [_ H]. apply insert_claim_inv in H.
    destruct H as (-> & Hkey & _). tables. split; [|split].
    + intros _. exists u, (or_default prompted "Admin claim verification").
      split; [reflexivity|]. split; [reflexivity|]. split.
      { intros He.
        pose proof (@or_default_truthy prompted "Admin claim verification" eq_refl) as Ht.
        now rewrite He in Ht. }
      split.
      { intros v -> Hv. unfold or_default. destruct v; [now elim Hv | reflexivity]. }
      split; [|repeat split].
      intros [->| ->]; reflexivity.
    + intros Hne. now elim Hne.
    + intros u' Hu Hpresent. inv Hu. unfold claim_key in Hkey.
      cbn [Claims.item_id Claims.claimant_id] in Hkey. congruence.
  - split; [discriminate|]. split; [reflexivity|]. intros _ _ _. reflexivity.
Qed.

(** X16. [deleteItem], run by an admin without failures, removes the item
    with the given id, the claims on it and the messages about it, and
    nothing else; afterwards no claim or message names the id.  Run by
    anyone else it changes nothing, and reports success all the same.  No
    run changes accounts, profiles or notifications. *)
Theorem deleteItem_effect :
  forall c itemId d,
    (is_admin d c = true ->
     let run := deleteItem c itemId false false d in
     snd run = ToastSuccess /\
     items (fst run) = filter (fun i => negb (String.eqb (Items.id i) itemId)) (items d) /\
     claims (fst run)
     = filter (fun r => negb (String.eqb (Claims.item_id r) itemId)) (claims d) /\
     (referential_integrity d ->
      messages (fst run)
      = filter (fun m => negb (String.eqb (Messages.item_id m) itemId)) (messages d)) /\
     item_exists (fst run) itemId = false) /\
    (is_admin d c = false -> deleteItem c itemId false false d = (d, ToastSuccess)) /\
    (forall f1 f2,
        let d' := fst (deleteItem c itemId f1 f2 d) in
        users d' = users d /\ profiles d' = profiles d /\
        notifications d' = notifications d).
Proof.
  intros c itemId d. split; [|split].
  - intros Ha run. unfold run, deleteItem. cbn [call].
    rewrite (admin_delete_claims d c _ Ha).
    match goal with |- context [delete_items c ?w ?x] =>
      rewrite (admin_delete_items x c w Ha) end.
    cbn [fst snd]. tables.
    assert (Hgone : forall i,
               existsb (fun r => String.eqb (Items.id r) itemId && String.eqb (Items.id r) i)
                       (items d)
               = (item_exists d itemId && String.eqb itemId i)%bool).
    { intros i. unfold item_exists. induction (items d) as [|a l IH]; simpl; [reflexivity|].
      rewrite IH. destruct (String.eqb_spec (Items.id a) itemId) as [->|Hne]; simpl.
      - destruct (String.eqb itemId i); simpl; [reflexivity|].
        now rewrite andb_false_r.
      - reflexivity. }
    split; [reflexivity|]. split; [reflexivity|]. split; [|split].
    + rewrite filter_filter_and. apply filter_ext. intros r. rewrite Hgone.
      destruct (String.eqb_spec (Claims.item_id r) itemId) as [->|Hne]; simpl;
        [reflexivity|].
      assert (String.eqb itemId (Claims.item_id r) = false) as ->
          by (apply String.eqb_neq; congruence).
      now rewrite andb_false_r.
    + intros (_ & _ & _ & _ & Hm). rewrite Forall_forall in Hm.
      apply filter_ext_in. intros m Hin. rewrite Hgone.
      destruct (Hm m Hin) as (_ & _ & Hex).
      destruct (String.eqb_spec (Messages.item_id m) itemId) as [He|Hne].
      * rewrite <- He, Hex, String.eqb_refl. reflexivity.
      * assert (String.eqb itemId (Messages.item_id m) = false) as ->
            by (apply String.eqb_neq; congruence).
        now rewrite andb_false_r.
    + unfold item_exists. tables. clear Hgone.
      induction (items d) as [|a l IH]; simpl; [reflexivity|].
      destruct (String.eqb (Items.id a) itemId) eqn:He; simpl; [exact IH|].
      now rewrite He.
  - intros Ha. unfold deleteItem. cbn [call].
    now rewrite (not_admin_delete_claims d c _ Ha), (not_admin_delete_items d c _ Ha).
  - intros f1 f2 d'. unfold d', deleteItem.
    destruct (call f1 _) as [d1|e1] eqn:H1; cbn [fst]; [|repeat split].
    apply call_ok in H1. destruct H1 as [_ H1]. unfold delete_claims in H1. inv H1.
    destruct (call f2 _) as [d2|e2] eqn:H2; cbn [fst]; [|tables; repeat split].
    apply call_ok in H2. destruct H2 as [_ H2]. unfold delete_items in H2. inv H2.
    tables. repeat split.
Qed.

(** ** The report form *)

Lemma trim_end_clean (x : string) :
  (forall t ch, x = (t ++ String ch EmptyString)%string -> js_space ch = false) ->
  trim_end x = x.
Proof.
  induction x as [|a x IH]; intros Hlast; simpl; [reflexivity|].
  rewrite IH.
  - destruct x as [|b x]; [|reflexivity].
    now rewrite (Hlast EmptyString a eq_refl).
  - intros t ch Hx. apply (Hlast (String a t) ch). simpl. now rewrite Hx.
Qed.

Lemma trim_start_clean (x : string) :
  (forall ch t, x = String ch t -> js_space ch = false) -> trim_start x = x.
Proof.
  destruct x as [|a x]; intros Hhead; simpl; [reflexivity|].
  now rewrite (Hhead a x eq_refl).
Qed.

Lemma js_trim_fixed (s body : string) : trimmed_of s body -> js_trim body = body.
Proof.
  intros (pre & post & _ & _ & _ & Hhead & Hlast). unfold js_trim.
  rewrite (@trim_end_clean body Hlast). now apply trim_start_clean.
Qed.

Lemma js_trim_idem (s : string) : js_trim (js_trim s) = js_trim s.
Proof. apply (@js_trim_fixed s (js_trim s) (js_trim_spec s)). Qed.

Lemma truthy_not_empty (s : string) : truthy s = true <-> s <> EmptyString.
Proof. destruct s; simpl; split; congruence. Qed.

Lemma existsb_eqb_In (x : string) (l : list string) :
  existsb (String.eqb x) l = true <-> In x l.
Proof.
  rewrite existsb_exists. split.
  - intros (y & Hy & He). apply String.eqb_eq in He. now subst y.
  - intros Hx. exists x. split; [exact Hx | apply String.eqb_refl].
Qed.

Lemma tag_step_invariant (f : tag_form) (e : tag_event) :
  NoDup (form_tags f) /\
  Forall (fun tag => tag <> EmptyString /\ js_trim tag = tag) (form_tags f) ->
  NoDup (form_tags (tag_step f e)) /\
  Forall (fun tag => tag <> EmptyString /\ js_trim tag = tag) (form_tags (tag_step f e)).
Proof.
  intros [Hnd Hall]. destruct e as [text| |t]; simpl.
  - auto.
  - unfold addTag.
    destruct (truthy (js_trim (currentTag f))) eqn:Ht; simpl; [|auto].
    destruct (existsb (String.eqb (js_trim (currentTag f))) (form_tags f)) eqn:Hin;
      simpl; [auto|].
    split.
    + apply NoDup_snoc; [exact Hnd|]. intros H. apply existsb_eqb_In in H. congruence.
    + apply Forall_app. split; [exact Hall|]. constructor; [|constructor].
      split; [now apply truthy_not_empty | apply js_trim_idem].
  - split; [now apply NoDup_filter | now apply Forall_filter_keep].
Qed.

Lemma tag_steps_invariant (events : list tag_event) (f0 : tag_form) :
  NoDup (form_tags f0) /\
  Forall (fun tag => tag <> EmptyString /\ js_trim tag = tag) (form_tags f0) ->
  NoDup (form_tags (fold_left tag_step events f0)) /\
  Forall (fun tag => tag <> EmptyString /\ js_trim tag = tag)
         (form_tags (fold_left tag_step events f0)).
Proof.
  revert f0. induction events as [|e events IH]; intros f0 H0; simpl; [exact H0|].
  apply IH. now apply tag_step_invariant.
Qed.

(** X17. Whatever is typed, added and removed in the tag field of the
    report form, the tag list never holds a tag twice, an empty tag or a
    tag with white space at its ends; removing a tag takes it out of the
    list, and removing a tag that was just added gives the list back. *)
Theorem tags_stay_distinct_and_trimmed :
  forall events,
    let f := fold_left tag_step events (mk_tag_form [] EmptyString) in
    (NoDup (form_tags f) /\
     Forall (fun tag => tag <> EmptyString /\ js_trim tag = tag) (form_tags f)) /\
    (forall t, ~ In t (form_tags (removeTag t f))) /\
    (forall text,
        let g := mk_tag_form (form_tags f) text in
        js_trim text <> EmptyString -> ~ In (js_trim text) (form_tags f) ->
        form_tags (addTag g) = (form_tags f ++ [js_trim text])%list /\
        form_tags (removeTag (js_trim text) (addTag g)) = form_tags f).
Proof.
  intros events f.
  assert (Hinv : NoDup (form_tags f) /\
                 Forall (fun tag => tag <> EmptyString /\ js_trim tag = tag) (form_tags f)).
  { unfold f. apply tag_steps_invariant. simpl. split; constructor. }
  split; [exact Hinv|]. split.
  - intros t Hin. simpl in Hin. apply filter_In in Hin. destruct Hin as [_ Hin].
    now rewrite String.eqb_refl in Hin.
  - intros text g Hne Hfresh. unfold addTag, g. cbn [currentTag form_tags].
    apply truthy_not_empty in Hne. rewrite Hne.
    assert (Hex : existsb (String.eqb (js_trim text)) (form_tags f) = false).
    { apply not_true_is_false. intros H. now apply existsb_eqb_In in H. }
    rewrite Hex. cbn [andb negb form_tags]. split; [reflexivity|].
    unfold removeTag. cbn [form_tags]. rewrite filter_app. simpl.
    rewrite String.eqb_refl. simpl. rewrite app_nil_r.
    rewrite (filter_ext_in _ (fun _ => true)); [apply filter_none|].
    intros a Ha. apply negb_true_iff. apply String.eqb_neq. intros ->. contradiction.
Qed.

(** ** Upload paths and the storage policies *)

Lemma split_on_not_nil (sep : ascii) (s : string) : split_on sep s <> [].
Proof.
  induction s as [|a s IH]; simpl; [discriminate|].
  destruct (Ascii.eqb a sep); [discriminate|].
  destruct (split_on sep s); [contradiction | discriminate].
Qed.

(** The first piece of a split is the text before the first separator. *)
Lemma split_on_head (sep : ascii) (s : string) :
  exists p t,
    split_on sep s = p :: t /\
    ((s = p /\ t = []) \/ (exists s', s = (p ++ String sep s')%string /\ t <> [])).
Proof.
  induction s as [|a s IH]; simpl.
  - exists EmptyString, []. split; [reflexivity|]. now left.
  - destruct (Ascii.eqb_spec a sep) as [->|Hne].
    + exists EmptyString, (split_on sep s). split; [reflexivity|]. right.
      exists s. split; [reflexivity | apply split_on_not_nil].
    + destruct IH as (p & t & -> & H). exists (String a p), t. split; [reflexivity|].
      destruct H as [[-> ->]|(s' & -> & Ht)]; [now left|].
      right. exists s'. now split.
Qed.

Lemma split_on_prefix (u rest : string) :
  no_slash u = true ->
  split_on "/" (u ++ String "/" rest) = u :: split_on "/" rest.
Proof.
  unfold no_slash. induction u as [|a u IH]; simpl; intros H; [reflexivity|].
  apply andb_true_iff in H. destruct H as [Ha Hu]. apply negb_true_iff in Ha.
  rewrite Ha, (IH Hu). reflexivity.
Qed.

(** X18. The path [uploadImage] builds for an item image,
    ['{user id}/{time}.{extension}'], is accepted by the item-images
    policies for the uploader and for nobody else: its first folder is the
    uploader's id, whatever the file is called. *)
Theorem item_image_name_passes_policy :
  forall usr now file_name,
    no_slash usr = true ->
    let o := mkobj "item-images" (item_image_name usr now file_name) in
    (forall c, objects_insert c o = uid_is c usr) /\
    (forall c, objects_update c o = uid_is c usr) /\
    (forall c, objects_delete c o = uid_is c usr) /\
    objects_insert (Some usr) o = true.
Proof.
  intros usr now file_name Hu o.
  assert (Hfirst : forall c, uid_is_first_folder c o = uid_is c usr).
  { intros c. unfold uid_is_first_folder, o, item_image_name, foldername. cbn [name].
    change (usr ++ "/" ++ text_of_int now ++ "." ++ fileExt file_name)%string
      with (usr ++ String "/" (text_of_int now ++ "." ++ fileExt file_name))%string.
    rewrite (@split_on_prefix usr _ Hu).
    pose proof (@split_on_not_nil "/" (text_of_int now ++ "." ++ fileExt file_name)) as Hn.
    destruct (split_on "/" (text_of_int now ++ "." ++ fileExt file_name)) as [|p t];
      [contradiction|].
    cbn [removelast]. destruct c as [v|]; reflexivity. }
  assert (Hins : forall c, objects_insert c o = uid_is c usr).
  { intros c. unfold objects_insert, users_can_upload_item_images,
      users_can_upload_profile_avatars. rewrite Hfirst. unfold o. cbn [bucket_id].
    simpl. destruct c as [v|]; simpl; [|reflexivity]. now rewrite orb_false_r. }
  split; [exact Hins|]. split; [|split].
  - intros c. unfold objects_update, users_can_update_own_item_images,
      users_can_update_own_profile_avatars. rewrite Hfirst. unfold o. cbn [bucket_id].
    simpl. now rewrite orb_false_r.
  - intros c. unfold objects_delete, users_can_delete_own_item_images,
      users_can_delete_own_profile_avatars. rewrite Hfirst. unfold o. cbn [bucket_id].
    simpl. now rewrite orb_false_r.
  - rewrite Hins. unfold uid_is. apply String.eqb_refl.
Qed.

(** X19. The path the avatar upload builds, ['{user id}-{time}.{extension}'],
    has no folder that equals the uploader's id: the upload is accepted,
    as it is for every signed-in user, but the uploader can neither update
    nor delete the object afterwards, whatever the id, time and file
    name. *)
Theorem avatar_name_fails_owner_policies :
  forall usr now file_name,
    let o := mkobj "profile-avatars" (avatar_name usr now file_name) in
    objects_insert (Some usr) o = true /\
    objects_update (Some usr) o = false /\
    objects_delete (Some usr) o = false.
Proof.
  intros usr now file_name o.
  assert (Hfirst : uid_is_first_folder (Some usr) o = false).
  { unfold uid_is_first_folder, o, foldername. cbn [name].
    destruct (split_on_head "/" (avatar_name usr now file_name)) as (p & t & Hs & H).
    rewrite Hs. destruct H as [[_ ->]|(s' & Hname & Ht)]; [reflexivity|].
    destruct t as [|q t]; [contradiction|]. cbn [removelast].
    apply String.eqb_neq. intros ->. unfold avatar_name in Hname.
    apply string_app_inv_head in Hname. discriminate. }
  unfold objects_insert, objects_update, objects_delete, users_can_upload_item_images,
    users_can_upload_profile_avatars, users_can_update_own_item_images,
    users_can_update_own_profile_avatars, users_can_delete_own_item_images,
    users_can_delete_own_profile_avatars.
  rewrite Hfirst. unfold o. cbn [bucket_id]. simpl. auto.
Qed.

(** ** The claims table of the admin page *)

Lemma reachable_invariants (d : db) :
  reachable d ->
  primary_keys d /\ referential_integrity d /\
  map Profiles.id (profiles d) = map Users.id (users d) /\
  NoDup (map Profiles.username (profiles d)).
Proof.
  induction 1 as [|c s d d' _ (Hpk & Hri & Hprof) Hexec].
  - unfold primary_keys, referential_integrity. simpl.
    repeat split; constructor.
  - split; [eapply exec_keeps_primary_keys; eauto|].
    split; [eapply exec_keeps_references; eauto|].
    eapply exec_keeps_profiles; eauto.
Qed.

Lemma Set_add_In (x y : string) (s : list string) :
  In y (Set_add x s) <-> In y s \/ y = x.
Proof.
  unfold Set_add. destruct (existsb (String.eqb x) s) eqn:He.
  - apply existsb_eqb_In in He. split; [auto | intros [H| ->]; auto].
  - rewrite in_app_iff. simpl. intuition.
Qed.

Lemma Set_fold_spec (xs s : list string) :
  NoDup s ->
  NoDup (fold_left (fun s x => Set_add x s) xs s) /\
  (forall y, In y (fold_left (fun s x => Set_add x s) xs s) <-> In y s \/ In y xs).
Proof.
  revert s. induction xs as [|x xs IH]; intros s Hnd; simpl.
  - split; [exact Hnd | intros y; tauto].
  - assert (Hnd' : NoDup (Set_add x s)).
    { unfold Set_add. destruct (existsb (String.eqb x) s) eqn:He; [exact Hnd|].
      apply NoDup_snoc; [exact Hnd|]. intros H. apply existsb_eqb_In in H. congruence. }
    destruct (IH _ Hnd') as [H1 H2]. split; [exact H1|].
    intros y. rewrite H2, Set_add_In. intuition.
Qed.

Lemma new_Set_In (xs : list string) (y : string) : In y (new_Set xs) <-> In y xs.
Proof.
  unfold new_Set. destruct (Set_fold_spec xs (NoDup_nil string)) as [_ H].
  rewrite H. simpl. tauto.
Qed.

Lemma new_Set_NoDup (xs : list string) : NoDup (new_Set xs).
Proof. unfold new_Set. apply Set_fold_spec. constructor. Qed.

Lemma in_list_In (ids : list uuid) (x : uuid) : in_list ids x = true <-> In x ids.
Proof. unfold in_list. apply existsb_eqb_In. Qed.

Lemma Map_get_set {V : Type} (k k' : string) (v : V) (m : list (string * V)) :
  Map_get k (Map_set k' v m) = if String.eqb k' k then Some v else Map_get k m.
Proof.
  unfold Map_set, Map_get, Map_has.
  destruct (existsb (fun e => String.eqb (fst e) k') m) eqn:Hhas.
  - induction m as [|[k0 w] m IH]; simpl in *; [discriminate|].
    destruct (String.eqb_spec k0 k') as [->|Hne]; simpl.
    + destruct (String.eqb k' k); reflexivity.
    + destruct (String.eqb_spec k0 k) as [->|Hk]; simpl.
      * assert (String.eqb k' k = false) as -> by (apply String.eqb_neq; congruence).
        reflexivity.
      * now apply IH.
  - induction m as [|[k0 w] m IH]; simpl in *.
    + destruct (String.eqb k' k); reflexivity.
    + apply orb_false_iff in Hhas. destruct Hhas as [Hk0 Hm].
      destruct (String.eqb_spec k0 k) as [->|Hk]; simpl.
      * rewrite String.eqb_sym in Hk0. now rewrite Hk0.
      * now apply IH.
Qed.

(** A [Map] filled from rows with distinct keys gives each row's value
    back under its key. *)
Lemma Map_build_get {A V : Type} (key : A -> string) (val : A -> V) (l : list A) (x : A) :
  NoDup (map key l) -> In x l ->
  Map_get (key x) (fold_left (fun m a => Map_set (key a) (val a) m) l []) = Some (val x).
Proof.
  induction l as [|y l IH] using rev_ind; intros Hnd Hin; [contradiction|].
  rewrite fold_left_app. cbn [fold_left]. rewrite Map_get_set.
  destruct (String.eqb_spec (key y) (key x)) as [He|Hne].
  - f_equal. f_equal.
    apply (@NoDup_map_same_key _ _ key (l ++ [y])%list y x Hnd); [|exact Hin|exact He].
    apply in_or_app. right. now left.
  - apply IH.
    + rewrite map_app in Hnd. now apply NoDup_app_remove_r in Hnd.
    + apply in_app_or in Hin. destruct Hin as [Hin|[->|[]]]; [exact Hin | congruence].
Qed.

Lemma find_key_In {A : Type} (key : A -> string) (k : string) (l : list A) :
  In k (map key l) -> exists r, find (fun r => String.eqb (key r) k) l = Some r.
Proof.
  intros Hin. destruct (find (fun r => String.eqb (key r) k) l) as [r|] eqn:Hf.
  - now exists r.
  - exfalso. apply in_map_iff in Hin. destruct Hin as (r & Hr & Hin).
    pose proof (find_none _ _ Hf r Hin) as Hn. cbn beta in Hn.
    rewrite Hr, String.eqb_refl in Hn. discriminate.
Qed.


(** ** Counts *)

Lemma filter_length_le {A : Type} (f : A -> bool) (l : list A) :
  (List.length (filter f l) <= List.length l)%nat.
Proof. induction l as [|a l IH]; simpl; [lia|]. destruct (f a); simpl; lia. Qed.

(** X21. [fetchUserStats], when both requests go through: the number of
    claims made is the number of claims of the table whose claimant is the
    user; the number of items submitted counts, for a user who is not an
    admin, only the user's items that are still active, so it can be less
    than the number of items the user reported.  A failed request gives
    the count 0. *)
Theorem fetchUserStats_counts :
  forall usr d,
    let stats := fetchUserStats usr false false d in
    snd stats
    = List.length (filter (fun r => String.eqb (Claims.claimant_id r) usr) (claims d)) /\
    (is_admin d (Some usr) = false ->
     fst stats
     = List.length (filter (fun r => String.eqb (Items.user_id r) usr && status_is r active)
                           (items d))) /\
    (is_admin d (Some usr) = true ->
     fst stats
     = List.length (filter (fun r => String.eqb (Items.user_id r) usr) (items d))) /\
    (fst stats
     <= List.length (filter (fun r => String.eqb (Items.user_id r) usr) (items d)))%nat /\
    fetchUserStats usr true true d = (0%nat, 0%nat).
Proof.
  intros usr d stats. unfold stats, fetchUserStats. cbn [call fst snd].
  unfold select_items, select_claims. split; [|split; [|split; [|split]]].
  - f_equal. apply filter_ext. intros r.
    destruct (String.eqb (Claims.claimant_id r) usr) eqn:He; [|reflexivity].
    unfold claims_select, users_can_view_claims, uid_is. apply String.eqb_eq in He.
    rewrite He, String.eqb_refl. now rewrite !orb_true_r.
  - intros Ha. f_equal. apply filter_ext. intros r.
    unfold items_select, admins_can_manage_all_items, anyone_can_view_active_items.
    now rewrite Ha, orb_false_r.
  - intros Ha. f_equal. apply filter_ext. intros r.
    unfold items_select, admins_can_manage_all_items.
    now rewrite Ha, orb_true_r, andb_true_r.
  - rewrite <- filter_filter_and. apply filter_length_le.
  - reflexivity.
Qed.

(** X22. The item counts of the admin page: the active, claimed and
    archived counts add up to the total less the items whose status is
    NULL, which the status column allows; so they add up to the total
    exactly when every listed item has a status. *)
Theorem itemStats_partition :
  forall validItems,
    let s := itemStats validItems in
    (activeItems s + claimedItems s + archivedItems s
     + List.length (filter (fun item => match Items.status item with
                                        | None => true
                                        | Some _ => false
                                        end) validItems))%nat
    = totalItems s /\
    ((activeItems s + claimedItems s + archivedItems s)%nat = totalItems s <->
     Forall (fun item => Items.status item <> None) validItems).
Proof.
  intros validItems s. unfold s, itemStats. clear s.
  cbn [totalItems activeItems claimedItems archivedItems].
  assert (Hsum : (List.length (filter (fun item => status_is item active) validItems)
                  + List.length (filter (fun item => status_is item claimed) validItems)
                  + List.length (filter (fun item => status_is item archived) validItems)
                  + List.length (filter (fun item => match Items.status item with
                                                     | None => true
                                                     | Some _ => false
                                                     end) validItems))%nat
                 = List.length validItems).
  { induction validItems as [|a l IH]; [reflexivity|]. cbn [filter].
    assert (Hhead : forall st, status_is a st
                               = match Items.status a with
                                 | Some v => item_status_eqb v st
                                 | None => false
                                 end) by reflexivity.
    rewrite !Hhead. destruct (Items.status a) as [[| |]|]; cbn [item_status_eqb List.length];
      lia. }
  split; [exact Hsum|].
  assert (Hnull : List.length (filter (fun item => match Items.status item with
                                                   | None => true
                                                   | Some _ => false
                                                   end) validItems) = 0%nat
                  <-> Forall (fun item => Items.status item <> None) validItems).
  { clear Hsum. induction validItems as [|a l IH]; simpl.
    - split; [constructor | reflexivity].
    - destruct (Items.status a) as [st|] eqn:Hst; simpl.
      + rewrite IH. split.
        * intros H. constructor; [now rewrite Hst | exact H].
        * intros H. now inv H.
      + split; [discriminate|]. intros H. inv H. congruence. }
  rewrite <- Hnull. lia.
Qed.

(** ** Reporting an item *)


(** ** The items page *)

Lemma js_includes_empty (s : string) : js_includes s EmptyString = true.
Proof. destruct s; reflexivity. Qed.

Lemma count_one_key (k : string) (ks : list string) :
  NoDup ks -> In k ks ->
  list_sum (map (fun c => if String.eqb k c then 1%nat else 0%nat) ks) = 1%nat.
Proof.
  induction ks as [|a ks IH]; simpl; [contradiction|].
  rewrite NoDup_cons_iff. intros [Hnot Hnd] [->|Hin].
  - rewrite String.eqb_refl. f_equal.
    clear IH Hnd. induction ks as [|b ks IH]; simpl; [reflexivity|].
    destruct (String.eqb_spec k b) as [->|Hne].
    + exfalso. apply Hnot. now left.
    + apply IH. intros H. apply Hnot. now right.
  - destruct (String.eqb_spec k a) as [->|Hne]; [contradiction|].
    now apply IH.
Qed.

Lemma count_by_key {A : Type} (key : A -> string) (ks : list string) (l : list A) :
  NoDup ks -> (forall a, In a l -> In (key a) ks) ->
  list_sum (map (fun c => List.length (filter (fun a => String.eqb (key a) c) l)) ks)
  = List.length l.
Proof.
  intros Hnd. induction l as [|a l IH]; intros Hin; simpl.
  - induction ks as [|c ks IHk]; simpl; [reflexivity|]. inv Hnd. now apply IHk.
  - transitivity
      (list_sum (map (fun c => if String.eqb (key a) c then 1%nat else 0%nat) ks)
       + list_sum (map (fun c => List.length (filter (fun a => String.eqb (key a) c) l)) ks))%nat.
    + clear. induction ks as [|c ks IHk]; simpl; [reflexivity|].
      destruct (String.eqb (key a) c); simpl; lia.
    + rewrite (@count_one_key (key a) ks Hnd (Hin a (or_introl eq_refl))).
      rewrite IH by (intros b Hb; apply Hin; now right). reflexivity.
Qed.

(** X24. The category filter of the items page, with an empty search and
    every kind shown: no category is offered twice and the category of
    every item is offered; each offered category other than the text 'all'
    lists exactly the items of that category, and at least one; the choice
    'all', which the filter reads as no filter also when an item has that
    category, lists every item; and when no item's category is 'all', the
    lists of the offered categories together hold every item once. *)
Theorem category_filter_partitions :
  forall (toLowerCase : string -> string) items,
    toLowerCase EmptyString = EmptyString ->
    let shown := fun category => filteredItems toLowerCase items EmptyString None category in
    NoDup (categories items) /\
    (forall item, In item items -> In (Items.category item) (categories items)) /\
    (forall category, In category (categories items) -> category <> "all" ->
       shown category = filter (fun item => String.eqb (Items.category item) category) items
       /\ shown category <> []) /\
    shown "all" = items /\
    (Forall (fun item => Items.category item <> "all") items ->
     list_sum (map (fun category => List.length (shown category)) (categories items))
     = List.length items).
Proof.
  intros toLowerCase items Hlower shown.
  assert (Hshown : forall category,
             shown category
             = filter (fun item => String.eqb category "all"
                                   || String.eqb (Items.category item) category) items).
  { intros category. unfold shown, filteredItems. apply filter_ext. intros item.
    rewrite Hlower, !js_includes_empty. reflexivity. }
  assert (Hcat : forall category, category <> "all" ->
             shown category
             = filter (fun item => String.eqb (Items.category item) category) items).
  { intros category Hne. rewrite Hshown. apply filter_ext. intros item.
    apply String.eqb_neq in Hne. now rewrite Hne. }
  assert (Hoffered : forall item, In item items ->
                                  In (Items.category item) (categories items)).
  { intros item Hin. apply new_Set_In. now apply in_map. }
  split; [apply new_Set_NoDup|]. split; [exact Hoffered|]. split; [|split].
  - intros category Hin Hne. split; [now apply Hcat|]. rewrite (Hcat _ Hne).
    unfold categories in Hin. apply (proj1 (new_Set_In _ _)) in Hin.
    apply in_map_iff in Hin.
    destruct Hin as (x & <- & Hx). intros Hnil.
    assert (Hx' : In x (filter (fun item => String.eqb (Items.category item)
                                                       (Items.category x)) items))
      by (apply filter_In; split; [exact Hx | apply String.eqb_refl]).
    rewrite Hnil in Hx'. contradiction.
  - rewrite Hshown. simpl. apply filter_none.
  - intros Hall.
    rewrite <- (@count_by_key _ Items.category (categories items) items
                  (new_Set_NoDup (map Items.category items)) Hoffered).
    f_equal. apply map_ext_in. intros category Hin. rewrite Hcat; [reflexivity|].
    unfold categories in Hin. apply (proj1 (new_Set_In _ _)) in Hin.
    apply in_map_iff in Hin. destruct Hin as (x & <- & Hx).
    rewrite Forall_forall in Hall. now apply Hall.
Qed.

(** ** The item page *)

Lemma filter_key_find {A : Type} (key : A -> string) (k : string) (l : list A) :
  NoDup (map key l) ->
  filter (fun r => String.eqb (key r) k) l
  = match find (fun r => String.eqb (key r) k) l with
    | Some r => [r]
    | None => []
    end.
Proof.
  induction l as [|a l IH]; simpl; [reflexivity|].
  rewrite NoDup_cons_iff. intros [Hnot Hnd].
  destruct (String.eqb_spec (key a) k) as [He|Hne]; [|now apply IH].
  f_equal. rewrite (filter_ext_in _ (fun _ => false)).
  - clear. induction l; simpl; auto.
  - intros b Hb. apply String.eqb_neq. intros Hk. apply Hnot. rewrite He, <- Hk.
    now apply in_map.
Qed.


(** ** The unread badge *)


(** ** Changing the status of an item *)

Lemma set_items_same (d : db) : set_items d (items d) = d.
Proof. now destruct d. Qed.

(** X27. [updateItemStatus]: run by an admin, it writes the status of the
    item with the given id and nothing else.  Run by a caller who is not an
    admin, it reports success without changing anything when the caller
    does not own an active item with that id; and when the caller does own
    one, a status other than active is refused, because the row it would
    write is no longer readable to the caller, and nothing changes.  No
    run changes another table. *)
Theorem updateItemStatus_effect :
  forall c itemId status d,
    (is_admin d c = true ->
     updateItemStatus c itemId status false d =
     (set_items d
        (map (fun r => if String.eqb (Items.id r) itemId
                       then apply_items_patch (item_status_patch status) r else r)
             (items d)),
      ToastSuccess)) /\
    (is_admin d c = false ->
     Forall (fun r => Items.id r = itemId ->
                      uid_is c (Items.user_id r) = false \/ status_is r active = false)
            (items d) ->
     updateItemStatus c itemId status false d = (d, ToastSuccess)) /\
    (is_admin d c = false ->
     status <> active ->
     Exists (fun r => Items.id r = itemId /\ uid_is c (Items.user_id r) = true
                      /\ status_is r active = true) (items d) ->
     updateItemStatus c itemId status false d = (d, ToastError)) /\
    (forall fault,
        let d' := fst (updateItemStatus c itemId status fault d) in
        users d' = users d /\ profiles d' = profiles d /\ claims d' = claims d /\
        notifications d' = notifications d /\ messages d' = messages d).
Proof.
  intros c itemId status d.
  assert (Hhit : is_admin d c = false -> forall r,
             items_update_hit d c itemId r
             = (String.eqb (Items.id r) itemId && status_is r active
                && uid_is c (Items.user_id r))%bool).
  { intros Ha r. unfold items_update_hit, items_select, items_update,
      admins_can_manage_all_items, anyone_can_view_active_items,
      users_can_update_own_items. now rewrite Ha, !orb_false_r. }
  split; [|split; [|split]].
  - intros Ha. unfold updateItemStatus. cbn [call].
    now rewrite (admin_update_item_status d c itemId status Ha).
  - intros Ha Hnone. rewrite Forall_forall in Hnone.
    assert (Hmiss : forall r, In r (items d) -> items_update_hit d c itemId r = false).
    { intros r Hr. rewrite (Hhit Ha).
      destruct (String.eqb_spec (Items.id r) itemId) as [He|Hne]; [|reflexivity].
      destruct (Hnone r Hr He) as [H|H]; rewrite H; cbn [andb];
        [now rewrite andb_false_r | reflexivity]. }
    unfold updateItemStatus. cbn [call]. unfold update_items, bind, guard.
    assert (forallb (fun r => negb (items_update_hit d c itemId r)
                              || (items_update d c (apply_items_patch (item_status_patch status) r)
                                  && items_select d c
                                       (apply_items_patch (item_status_patch status) r)))
                    (items d) = true) as ->.
    { apply forallb_forall. intros r Hr. now rewrite (Hmiss r Hr). }
    cbn [item_status_patch set_user_id]. unfold items_updated.
    rewrite (map_ext_in _ (fun r => r)).
    + now rewrite map_id, set_items_same.
    + intros r Hr. now rewrite (Hmiss r Hr).
  - intros Ha Hstatus Hown. apply Exists_exists in Hown.
    destruct Hown as (r & Hr & Hid & Hu & Hact).
    unfold updateItemStatus. cbn [call]. unfold update_items, bind, guard.
    assert (forallb (fun r => negb (items_update_hit d c itemId r)
                              || (items_update d c (apply_items_patch (item_status_patch status) r)
                                  && items_select d c
                                       (apply_items_patch (item_status_patch status) r)))
                    (items d) = false) as ->; [|reflexivity].
    apply not_true_is_false. intros Hall. rewrite forallb_forall in Hall.
    specialize (Hall r Hr). rewrite (Hhit Ha), Hu, Hact in Hall.
    apply String.eqb_eq in Hid. rewrite Hid in Hall. cbn [andb negb orb] in Hall.
    apply andb_true_iff in Hall. destruct Hall as [_ Hsel].
    unfold items_select, admins_can_manage_all_items, anyone_can_view_active_items,
      status_is in Hsel.
    rewrite Ha, orb_false_r in Hsel.
    cbn [apply_items_patch item_status_patch set_status or_keep Items.status] in Hsel.
    destruct status; [now elim Hstatus | discriminate | discriminate].
  - intros fault d'. unfold d', updateItemStatus.
    destruct (call fault _) as [d1|e] eqn:H; cbn [fst]; [|repeat split].
    apply call_ok in H. destruct H as [_ H]. apply update_items_inv in H. subst d1.
    tables. repeat split.
Qed.

(** ** The notifications the page shows *)

(** X28. [fetchNotifications] shows the notifications of its response, all
    of them, in the response's order and unchanged.  Only a notification of
    type 'message' is shown with an item, and that item is a row of the
    items response whose id is the item of the first message of the
    messages response sent within five seconds of the notification, the
    two times taken in whole milliseconds, which puts the stored times less
    than 5.001 seconds apart.  When the notifications request gives no data
    the page keeps what it had. *)
Theorem fetchNotifications_enhances :
  forall notificationsData messagesData itemsData prev,
    let shown := fetchNotifications (Some notificationsData) messagesData itemsData prev in
    map notification_row shown = notificationsData /\
    Forall (fun e =>
              forall item, notification_items e = Some item ->
                Notifications.type (notification_row e) = "message" /\
                exists messages items relatedMessage,
                  messagesData = Some messages /\ itemsData = Some items /\
                  find (within_5_seconds (notification_row e)) messages = Some relatedMessage /\
                  Z.abs (getTime (mref_created_at relatedMessage)
                         - getTime (Notifications.created_at (notification_row e)))
                  <= 5000 /\
                  Z.abs (mref_created_at relatedMessage
                         - Notifications.created_at (notification_row e)) < 5001000 /\
                  In item items /\ ref_id item = mref_item_id relatedMessage)
           shown /\
    fetchNotifications None messagesData itemsData prev = prev.
Proof.
  intros ns msgs items prev shown. split; [|split; [|reflexivity]].
  - unfold shown, fetchNotifications.
    destruct (filter _ ns) as [|n0 rest]; [rewrite map_map; apply map_id|].
    destruct msgs as [[|m0 ms]|]; try (rewrite map_map; apply map_id).
    rewrite map_map. rewrite <- (map_id ns) at 2. apply map_ext. intros n.
    destruct (String.eqb (Notifications.type n) "message"); [|reflexivity].
    destruct items as [il|]; [|reflexivity].
    now destruct (find (within_5_seconds n) (m0 :: ms)).
  - unfold shown, fetchNotifications. apply Forall_forall. intros e He item Hitem.
    assert (Hplain : ~ In e (map (fun n => mk_enhanced n None) ns)).
    { intros Hin. apply in_map_iff in Hin. destruct Hin as (n & <- & _). discriminate. }
    destruct (filter _ ns) as [|n0 rest]; [contradiction|].
    destruct msgs as [[|m0 ms]|]; try contradiction.
    apply in_map_iff in He. destruct He as (n & <- & _).
    destruct (String.eqb_spec (Notifications.type n) "message") as [Htype|];
      [|discriminate].
    destruct items as [il|]; [|discriminate].
    destruct (find (within_5_seconds n) (m0 :: ms)) as [rel|] eqn:Hrel; [|discriminate].
    cbn [notification_row notification_items] in *. split; [exact Htype|].
    exists (m0 :: ms), il, rel. split; [reflexivity|]. split; [reflexivity|].
    split; [exact Hrel|].
    apply find_some in Hrel. destruct Hrel as [_ Hwin].
    apply find_some in Hitem. destruct Hitem as [Hin Hid].
    apply String.eqb_eq in Hid. unfold within_5_seconds in Hwin.
    apply andb_true_iff in Hwin. destruct Hwin as [Hlo Hhi].
    apply Z.leb_le in Hlo, Hhi. split; [lia|]. split; [|split; [exact Hin | exact Hid]].
    unfold getTime in Hlo, Hhi. Z.div_mod_to_equations. lia.
Qed.

(** * Further instances on the sample data *)

Lemma registered_handle_shape_witness :
  exists d' p base suffix,
    sign_up 4 dave_account sample_db = Ok d' /\
    profiles d' = (profiles sample_db ++ [p])%list /\
    Profiles.username p = (base ++ suffix)%string /\
    base = base_username dave_account /\
    (String.length base <= 20)%nat /\
    handle_text base /\ digits_text suffix /\
    handle_text (Profiles.username p).
Proof.
  destruct (sign_up 4 dave_account sample_db) as [d'|e] eqn:H;
    [|vm_compute in H; discriminate].
  destruct (@registered_handle_shape 4 dave_account sample_db d' H)
    as (p & base & suffix & Hshape).
  exists d', p, base, suffix. split; [reflexivity | exact Hshape].
Defined.

Lemma registration_succeeds_witness :
  exists d',
    sign_up 4 dave_account sample_db = Ok d' /\
    users d' = (users sample_db ++ [dave_account])%list /\
    List.length (profiles d') = S (List.length (profiles sample_db)).
Proof.
  apply (@registration_succeeds 4 dave_account sample_db).
  - split; vm_compute; reflexivity.
  - vm_compute. reflexivity.
Defined.

Lemma reachable_primary_keys_witness : primary_keys claimed_db.
Proof. exact (@reachable_primary_keys claimed_db claimed_db_reachable). Defined.

Lemma reachable_one_profile_per_account_witness :
  map Profiles.id (profiles sample_db) = map Users.id (users sample_db) /\
  NoDup (map Profiles.username (profiles sample_db)).
Proof. exact (@reachable_one_profile_per_account sample_db sample_db_reachable). Defined.

Lemma reachable_referential_integrity_witness : referential_integrity claimed_db.
Proof. exact (@reachable_referential_integrity claimed_db claimed_db_reachable). Defined.

Lemma deleteUser_effect_witness :
  snd (deleteUser (Some carol) true alice false false false false false claimed_db)
  = ToastSuccess /\
  items (fst (deleteUser (Some carol) true alice false false false false false claimed_db))
  = [] /\
  claims (fst (deleteUser (Some carol) true alice false false false false false claimed_db))
  = [] /\
  deleteUser (Some bob) true alice false false false false false claimed_db
  = (claimed_db, ToastSuccess).
Proof.
  pose proof (@deleteUser_effect (Some carol) alice claimed_db) as (_ & Hadmin & _).
  pose proof (@deleteUser_effect (Some bob) alice claimed_db) as (_ & _ & Hother).
  rewrite (Hadmin eq_refl), (Hother eq_refl). repeat split.
Defined.

Lemma own_role_is_writable_witness :
  exists d',
    update_profiles (Some bob) bob (mk_profiles_patch None None (Some (Some admin)) None)
      sample_db = Ok d' /\
    get_user_role d' (Some bob) = Some admin /\
    is_admin d' (Some bob) = true /\
    (forall r, items_select d' (Some bob) r = true
               /\ items_update d' (Some bob) r = true
               /\ items_delete d' (Some bob) r = true).
Proof.
  apply (@own_role_is_writable sample_db bob bob_profile). reflexivity.
Defined.

Lemma handleSave_effect_witness :
  handleSave (Some bob) "alice" "Bob B." EmptyString false sample_db
  = (sample_db, ToastError).
Proof.
  apply (proj2 (@handleSave_effect (Some bob) "alice" "Bob B." EmptyString sample_db)
           false bob_profile (Profiles.mk alice "alice" (Some "alice") (Some user) None 1 1)).
  - simpl. right. left. reflexivity.
  - reflexivity.
  - simpl. left. reflexivity.
  - vm_compute. discriminate.
  - reflexivity.
Defined.

Lemma markConversationAsRead_effect_witness :
  (forall m,
      In m (messages (markConversationAsRead alice backpack_conversation false chat_db)) ->
      in_conversation alice (Conversation.item_id backpack_conversation)
        (Conversation.other_user_id backpack_conversation) m = true ->
      unread_for alice m = false) /\
  markConversationAsRead alice backpack_conversation true chat_db = chat_db.
Proof.
  assert (messages_response alice chat_db chat) as Hresponse.
  { split.
    - vm_compute. apply Permutation_refl.
    - unfold newest_first, chat. repeat constructor; simpl; lia. }
  assert (Forall (fun m => uuid_text (Messages.item_id m)) (messages chat_db)) as Huuid
    by (unfold chat_db, chat, uuid_text; simpl; repeat constructor).
  assert (NoDup (map Messages.id (messages chat_db))) as Hnd.
  { simpl. repeat constructor; simpl; intuition discriminate. }
  assert (In backpack_conversation (fetchConversations alice chat [] [])) as Hin
    by (vm_compute; right; left; reflexivity).
  destruct (@markConversationAsRead_effect alice chat_db chat [] [] backpack_conversation
              Hresponse Huuid Hnd Hin) as (_ & Hread & _ & _ & _ & _ & _ & Hfault).
  split; [exact Hread | exact Hfault].
Defined.

Lemma handleSendMessage_effect_witness :
  exists u n body,
    Some bob = Some u /\ trimmed_of "  Is it still there? " body /\ body <> EmptyString /\
    messages (fst (handleSendMessage (Some bob) alice backpack "  Is it still there? " 200
                     "30000000-0000-4000-8000-000000000001"
                     "40000000-0000-4000-8000-000000000001" false sample_db))
    = (messages sample_db
       ++ [Messages.mk "30000000-0000-4000-8000-000000000001" u alice backpack body
             false 200 200])%list /\
    notifications (fst (handleSendMessage (Some bob) alice backpack "  Is it still there? "
                          200 "30000000-0000-4000-8000-000000000001"
                          "40000000-0000-4000-8000-000000000001" false sample_db))
    = (notifications sample_db ++ [n])%list /\
    Notifications.user_id n = alice /\
    snd (handleSendMessage (Some bob) carol backpack "Is this Alice's?" 200
           "30000000-0000-4000-8000-000000000001"
           "40000000-0000-4000-8000-000000000001" false sample_db) = ToastSuccess.
Proof.
  destruct (proj1 (proj2 (@handleSendMessage_effect (Some bob) alice backpack
                            "  Is it still there? " 200
                            "30000000-0000-4000-8000-000000000001"
                            "40000000-0000-4000-8000-000000000001" false sample_db))
              eq_refl)
    as (u & n & body & Hu & Ht & Hb & Hm & Hn & Hr & _).
  exists u, n, body.
  refine (conj Hu (conj Ht (conj Hb (conj Hm (conj Hn (conj Hr _)))))).
  apply (proj2 (proj2 (proj2 (@handleSendMessage_effect (Some bob) carol backpack
                                "Is this Alice's?" 200
                                "30000000-0000-4000-8000-000000000001"
                                "40000000-0000-4000-8000-000000000001" false sample_db)))
           bob eq_refl eq_refl).
  repeat split.
Defined.

Lemma handleReply_effect_witness :
  exists u conversation n body,
    Some alice = Some u /\ Some backpack_conversation = Some conversation /\
    trimmed_of "On my way " body /\ body <> EmptyString /\
    messages (fst (handleReply (Some alice) (Some backpack_conversation) "On my way " 250
                     "30000000-0000-4000-8000-000000000005"
                     "40000000-0000-4000-8000-000000000005" false chat_db))
    = (messages chat_db
       ++ [Messages.mk "30000000-0000-4000-8000-000000000005" u
             (Conversation.other_user_id conversation) (Conversation.item_id conversation)
             body false 250 250])%list /\
    notifications (fst (handleReply (Some alice) (Some backpack_conversation) "On my way "
                          250 "30000000-0000-4000-8000-000000000005"
                          "40000000-0000-4000-8000-000000000005" false chat_db))
    = (notifications chat_db ++ [n])%list /\
    Notifications.user_id n = Conversation.other_user_id conversation.
Proof.
  destruct (proj1 (proj2 (@handleReply_effect (Some alice) (Some backpack_conversation)
                            "On my way " 250
                            "30000000-0000-4000-8000-000000000005"
                            "40000000-0000-4000-8000-000000000005" false chat_db))
              eq_refl)
    as (u & conversation & n & body & Hu & Hc & Ht & Hb & Hm & _ & Hn & Hr & _).
  exists u, conversation, n, body. repeat split; assumption.
Defined.

Lemma createAdminClaim_effect_witness :
  createAdminClaim (Some bob) backpack None 130 "20000000-0000-4000-8000-000000000003"
    false claimed_db
  = (claimed_db, ToastError) /\
  exists u message,
    Some carol = Some u /\
    claims (fst (createAdminClaim (Some carol) backpack (Some EmptyString) 130
                   "20000000-0000-4000-8000-000000000003" false claimed_db))
    = (claims claimed_db
       ++ [Claims.mk "20000000-0000-4000-8000-000000000003" backpack u message
             (Some pending) 130 130])%list /\
    message = "Admin claim verification".
Proof.
  split.
  - apply (proj2 (proj2 (@createAdminClaim_effect (Some bob) backpack None 130
                           "20000000-0000-4000-8000-000000000003" false claimed_db))
             bob eq_refl).
    reflexivity.
  - destruct (proj1 (@createAdminClaim_effect (Some carol) backpack (Some EmptyString) 130
                       "20000000-0000-4000-8000-000000000003" false claimed_db) eq_refl)
      as (u & message & Hu & Hc & _ & _ & Hdefault & _).
    exists u, message. repeat split; try assumption. apply Hdefault. now right.
Defined.

Lemma deleteItem_effect_witness :
  snd (deleteItem (Some carol) backpack false false claimed_db) = ToastSuccess /\
  items (fst (deleteItem (Some carol) backpack false false claimed_db)) = [lost_umbrella] /\
  claims (fst (deleteItem (Some carol) backpack false false claimed_db)) = [] /\
  deleteItem (Some alice) backpack false false claimed_db = (claimed_db, ToastSuccess).
Proof.
  destruct (proj1 (@deleteItem_effect (Some carol) backpack claimed_db) eq_refl)
    as (Ht & Hi & Hc & _).
  rewrite Ht, Hi, Hc.
  rewrite (proj1 (proj2 (@deleteItem_effect (Some alice) backpack claimed_db)) eq_refl).
  repeat split.
Defined.

Lemma item_image_name_passes_policy_witness :
  objects_insert (Some alice)
    (mkobj "item-images" (item_image_name alice 1751347419000 "photo.of.keys.jpg")) = true /\
  objects_insert (Some bob)
    (mkobj "item-images" (item_image_name alice 1751347419000 "photo.of.keys.jpg")) = false.
Proof.
  destruct (@item_image_name_passes_policy alice 1751347419000 "photo.of.keys.jpg" eq_refl)
    as (Hins & _ & _ & Hown).
  split; [exact Hown|]. rewrite Hins. reflexivity.
Defined.



Lemma category_filter_partitions_witness :
  list_sum (map (fun category =>
                   List.length (filteredItems lower (items sample_db) EmptyString None category))
                (categories (items sample_db)))
  = List.length (items sample_db) /\
  filteredItems lower (items sample_db) EmptyString None "all" = items sample_db.
Proof.
  assert (Forall (fun item => Items.category item <> "all") (items sample_db)) as Hall
    by (repeat constructor; simpl; discriminate).
  destruct (@category_filter_partitions lower (items sample_db) eq_refl)
    as (_ & _ & _ & Hevery & Hsum).
  split; [exact (Hsum Hall) | exact Hevery].
Defined.


Lemma updateItemStatus_effect_witness :
  updateItemStatus (Some alice) backpack claimed false sample_db = (sample_db, ToastError) /\
  updateItemStatus (Some bob) backpack claimed false sample_db = (sample_db, ToastSuccess) /\
  snd (updateItemStatus (Some carol) backpack claimed false sample_db) = ToastSuccess.
Proof.
  destruct (@updateItemStatus_effect (Some alice) backpack claimed sample_db)
    as (_ & _ & Howner & _).
  destruct (@updateItemStatus_effect (Some bob) backpack claimed sample_db)
    as (_ & Hother & _).
  destruct (@updateItemStatus_effect (Some carol) backpack claimed sample_db)
    as (Hadmin & _).
  split; [|split].
  - apply Howner; [reflexivity | discriminate|].
    constructor. repeat split.
  - apply Hother; [reflexivity|].
    repeat constructor; intros H; try (now left); discriminate H.
  - now rewrite (Hadmin eq_refl).
Defined.
